(** * The POWER8 OCC hwmon driver over i2c: protocol core

    A shallow embedding of [drivers/hwmon/power8_occ_i2c.c]: the register
    access layer ([occ_getscomb], [occ_putscom]), the command exchange
    ([occ_send_cmd]), the response parser ([parse_occ_response]), the sensor
    storage manager ([occ_renew_sensor], [deinit_occ_resp_buf]) and the
    refresh cache ([occ_update_device]), followed by the properties of the
    design description that are checked against them.

    Conventions of the embedding.
    - Machine integers are [Z] with the wrap-around written out ([u8],
      [u16], [u32]).  A shift whose count is negative or not less than the
      width of the operand is undefined in C and is a [Fault]; a left shift
      of an [int] that overflows wraps (the kernel is built with GCC, which
      defines it so).
    - The host is little-endian (the driver runs on the ARM BMC), so
      [cpu_to_le16] is the identity and [memcpy] into a word fills its low
      bytes first.
    - Pointers are addresses in a heap of typed objects; address 0 is NULL.
      A C execution with undefined behaviour (NULL or dangling dereference,
      double free, load or store outside an object, shift by too much) is a
      [Fault]. *)

From Stdlib Require Import ZArith Lia List Bool.
From stdpp Require Import base option list gmap.

Local Open Scope Z_scope.

(** ** Machine integers and bytes *)

Definition u8 (x : Z) : Z := x mod 2 ^ 8.
Definition u16 (x : Z) : Z := x mod 2 ^ 16.
Definition u32 (x : Z) : Z := x mod 2 ^ 32.

(** [(w >> (i * 8)) & 0xFF] *)
Definition byte_of (w i : Z) : Z := Z.land (Z.shiftr w (i * 8)) 255.

(** The bytes of a 32-bit word in memory order on the little-endian host. *)
Definition le32 (w : Z) : list Z := map (byte_of w) [0; 1; 2; 3].

(** [data[i]] of a [uint8_t *], for [i] inside the object [data] points to.
    The response buffer is kzalloc'ed: a list shorter than the buffer gives
    its leading bytes and stands for the buffer with its zero-filled
    remainder.  Where the source computes the index, the load is preceded by
    a bounds check ([in_buffer], or the length test of [occ_cmd2_payload])
    that faults outside the object. *)
Definition byte_at (data : list Z) (i : Z) : Z :=
  if i <? 0 then 0 else u8 (nth (Z.to_nat i) data 0).

Definition be16_to_cpup (data : list Z) (i : Z) : Z :=
  byte_at data i * 256 + byte_at data (i + 1).

Definition be32_to_cpup (data : list Z) (i : Z) : Z :=
  ((byte_at data i * 256 + byte_at data (i + 1)) * 256
   + byte_at data (i + 2)) * 256 + byte_at data (i + 3).

Definition cpu_to_le16 (x : Z) : Z := u16 x.

(** ** Outcomes of C executions *)

Inductive fault : Set :=
  | NullDeref      (* dereference of NULL *)
  | Dangling       (* dereference of freed (or never allocated) storage *)
  | DoubleFree     (* kfree of storage that is not live *)
  | OutOfBounds    (* access past the end of an allocation *)
  | BadCast        (* an address used at the wrong object type *)
  | BadShift.      (* shift by a negative count or by the operand's width or more *)

Inductive res (A : Type) : Type :=
  | Ok (a : A)
  | Fault (f : fault).
Arguments Ok {A} a.
Arguments Fault {A} f.

#[global] Instance res_ret : MRet res := fun _ a => Ok a.
#[global] Instance res_bind : MBind res := fun _ _ k m =>
  match m with Ok a => k a | Fault f => Fault f end.

(** A [for] loop over the index list [l], threading the loop state. *)
Fixpoint for_each {A S : Type} (body : A -> S -> res S) (l : list A) (s : S) : res S :=
  match l with
  | [] => Ok s
  | i :: l => s' ← body i s; for_each body l s'
  end.

(** ** Command frame encoding (lines 559-570 of [occ_send_cmd]) *)

(** Store byte [b] at byte position [i] of the word [w]. *)
Definition set_byte (w i b : Z) : Z :=
  Z.lor (Z.ldiff w (Z.shiftl 255 (i * 8))) (Z.shiftl (u8 b) (i * 8)).

(** [memcpy(&cmd2, data, length)]: bytes [0 .. length-1] of the word are
    overwritten, the others keep what the stack slot held.  Only the four
    bytes of the word are modelled. *)
Definition memcpy_word (w : Z) (data : list Z) (length : Z) : Z :=
  fold_left (fun acc i => if i <? length then set_byte acc i (byte_at data i) else acc)
            [0; 1; 2; 3] w.

(** [cmd1 = (seq << 24) | (type << 16) | length] *)
Definition occ_cmd1 (seq type length : Z) : Z :=
  let length := cpu_to_le16 length in
  u32 (Z.lor (Z.lor (Z.shiftl (u8 seq) 24) (Z.shiftl (u8 type) 16)) length).

(** [x << n] on a 32-bit operand.  ISO C (6.5.7) leaves the shift undefined
    when the count is negative or not less than the width. *)
Definition shl32 (x n : Z) : res Z :=
  if (0 <=? n) && (n <? 32) then Ok (u32 (Z.shiftl x n)) else Fault BadShift.

(** [memcpy(&cmd2, data, length); cmd2 <<= ((4 - length) * 8)]; [stack] is
    the uninitialised content of the local [cmd2].  The copy must stay
    inside the four bytes of [cmd2] and inside the payload [data]; the
    shift count is 32 for a length of 0. *)
Definition occ_cmd2_payload (length : Z) (data : list Z) (stack : Z) : res Z :=
  let length := cpu_to_le16 length in
  if (4 <? length) || (Z.of_nat (List.length data) <? length) then Fault OutOfBounds
  else
    let cmd2 := memcpy_word (u32 stack) data length in
    shl32 cmd2 ((4 - length) * 8).

(** The two [for] loops accumulating into the [uint16_t checksum]. *)
Definition sum_bytes (w : Z) (checksum : Z) : Z :=
  fold_left (fun c i => u16 (c + byte_of w i)) [0; 1; 2; 3] checksum.

Definition occ_checksum (cmd1 cmd2 : Z) : Z :=
  sum_bytes cmd2 (sum_bytes cmd1 0).

(** [cmd2 |= checksum << ((2 - length) * 8)]; the count is negative for a
    length above 2. *)
Definition occ_cmd2 (seq type length : Z) (data : list Z) (stack : Z) : res Z :=
  let cmd1 := occ_cmd1 seq type length in
  cmd2 ← occ_cmd2_payload length data stack;
  let checksum := occ_checksum cmd1 cmd2 in
  field ← shl32 checksum ((2 - cpu_to_le16 length) * 8);
  Ok (u32 (Z.lor cmd2 field)).

(** *** The receiving side of a frame, following the design description

    The 16-bit field found [(2 - length)] bytes above the bottom of word2,
    the sum of the eight bytes of word1 and of word2 before the checksum
    went in, and the sum of every byte of the finished frame outside the
    checksum field. *)
Definition embedded_checksum (length cmd2 : Z) : Z :=
  Z.land (Z.shiftr cmd2 ((2 - length) * 8)) 65535.

Definition frame_byte_sum (cmd1 payload : Z) : Z :=
  fold_left Z.add (map (byte_of cmd1) [0; 1; 2; 3] ++ map (byte_of payload) [0; 1; 2; 3]) 0.

Definition is_checksum_byte (length i : Z) : bool :=
  (i =? 2 - length) || (i =? 3 - length).

Definition decoder_checksum (length cmd1 cmd2 : Z) : Z :=
  (fold_left Z.add (map (byte_of cmd1) [0; 1; 2; 3]) 0
   + fold_left Z.add
       (map (byte_of cmd2) (filter (fun i => negb (is_checksum_byte length i)) [0; 1; 2; 3])) 0)
  mod 65536.

(** ** The platform: the i2c adapter and the clock

    [i2c_master_send w buf] hands [buf] to the peer and returns the count the
    adapter reports (the length on success, anything else on a short or
    failed transfer); [i2c_master_recv w count] returns the reported count
    and the bytes placed in the receive buffer.  [jiffies] is the tick
    counter. *)
Class Platform (W : Type) : Type := {
  i2c_master_send : W -> list Z -> W * Z;
  i2c_master_recv : W -> Z -> W * (Z * list Z);
  jiffies : W -> Z
}.

Definition OCC_DATA_MAX : Z := 4096.
Definition I2C_READ_ERROR : Z := 1.
Definition I2C_WRITE_ERROR : Z := 2.
Definition ATTN_DATA : Z := 0x0006B035.
Definition OCB_ADDRESS : Z := 0x0006B070.
Definition OCB_DATA : Z := 0x0006B075.
Definition OCB_STATUS_CONTROL_AND : Z := 0x0006B072.
Definition OCB_STATUS_CONTROL_OR : Z := 0x0006B073.
Definition OCC_COMMAND_ADDR : Z := 0xFFFF6000.
Definition OCC_RESPONSE_ADDR : Z := 0xFFFF7000.
Definition EINVAL : Z := 22.
Definition ENOMEM : Z := 12.

(** [data[offset + i] = bytes[i]] for every [i]; a store outside the
    allocation is a fault. *)
Definition store_bytes (data : list Z) (offset : Z) (bytes : list Z) : res (list Z) :=
  if (0 <=? offset) && (offset + Z.of_nat (length bytes) <=? Z.of_nat (length data))
  then Ok (take (Z.to_nat offset) data ++ bytes
           ++ drop (Z.to_nat offset + length bytes) data)
  else Fault OutOfBounds.

Section RegisterAccess.
Context {W : Type} `{Platform W}.

Definition occ_i2c_read (w : W) (count : Z) : W * (Z * list Z) :=
  i2c_master_recv w count.

Definition occ_i2c_write (w : W) (buf : list Z) : W * Z :=
  i2c_master_send w buf.

(** read 8-byte value and put into data[offset] *)
Definition occ_getscomb (w : W) (address : Z) (data : list Z) (offset : Z)
  : res (W * Z * list Z) :=
  let address := u32 (Z.shiftl address 1) in
  let '(w, ret) := occ_i2c_write w (le32 address) in
  if negb (u32 ret =? 4) then Ok (w, - I2C_WRITE_ERROR, data)
  else
    let '(w, (ret, buf)) := occ_i2c_read w 8 in
    if negb (u32 ret =? 8) then Ok (w, - I2C_READ_ERROR, data)
    else
      data ← store_bytes data offset (map (fun i => byte_at buf (7 - i)) (seqZ 0 8));
      Ok (w, 0, data).

Definition occ_putscom (w : W) (address data0 data1 : Z) : W * Z :=
  let address := u32 (Z.shiftl address 1) in
  let buf := le32 address ++ le32 data1 ++ le32 data0 in
  let '(w, ret) := occ_i2c_write w buf in
  if negb (u32 ret =? 12) then (w, I2C_WRITE_ERROR) else (w, 0).

(** The command exchange.  The value of every register operation is
    discarded, as in the source; the result is [resp[2]]. *)
Definition occ_send_cmd (w : W) (seq type length : Z) (data : list Z)
    (stack : Z) (resp : list Z) : res (W * Z * list Z) :=
  let cmd1 := occ_cmd1 seq type length in
  cmd2 ← occ_cmd2 seq type length data stack;
  (* Init OCB *)
  let '(w, _) := occ_putscom w OCB_STATUS_CONTROL_OR 0x08000000 0x00000000 in
  let '(w, _) := occ_putscom w OCB_STATUS_CONTROL_AND 0xFBFFFFFF 0xFFFFFFFF in
  (* Send command *)
  let '(w, _) := occ_putscom w OCB_ADDRESS OCC_COMMAND_ADDR 0x00000000 in
  let '(w, _) := occ_putscom w OCB_ADDRESS OCC_COMMAND_ADDR 0x00000000 in
  let '(w, _) := occ_putscom w OCB_DATA cmd1 cmd2 in
  (* Trigger attention *)
  let '(w, _) := occ_putscom w ATTN_DATA 0x01010000 0x00000000 in
  (* Get response data *)
  let '(w, _) := occ_putscom w OCB_ADDRESS OCC_RESPONSE_ADDR 0x00000000 in
  '(w, _, resp) ← occ_getscomb w OCB_DATA resp 0;
  (* return status *)
  Ok (w, byte_at resp 2, resp).

(** The values [i] takes in [for (i = 8; i < num_bytes + 8; i = i + 8)]. *)
Definition read_offsets (num_bytes : Z) : list Z :=
  map (fun k => 8 + 8 * k) (seqZ 0 ((num_bytes + 7) / 8)).

(** read remaining data *)
Definition read_remaining (w : W) (occ_data : list Z) (num_bytes : Z)
  : res (W * list Z) :=
  for_each (fun i '(w, occ_data) =>
              '(w, _, occ_data) ← occ_getscomb w OCB_DATA occ_data i;
              Ok (w, occ_data))
           (read_offsets num_bytes) (w, occ_data).
End RegisterAccess.

(** ** OCC sensor data format *)

Record occ_sensor : Set := {
  sensor_id : Z;
  value : Z
}.

Record power_sensor : Set := {
  p_sensor_id : Z;
  update_tag : Z;
  accumulator : Z;
  p_value : Z
}.

Record caps_sensor : Set := {
  curr_powercap : Z;
  curr_powerreading : Z;
  norm_powercap : Z;
  max_powercap : Z;
  min_powercap : Z;
  user_powerlimit : Z
}.

Definition ptr : Set := Z.
Definition NULL : ptr := 0.

Record sensor_data_block : Set := {
  sensor_type : list Z;
  reserved0 : Z;
  sensor_format : Z;
  sensor_length : Z;
  num_of_sensors : Z;
  sensor : ptr;
  power : ptr;
  caps : ptr
}.

Record occ_poll_header : Set := {
  status : Z;
  ext_status : Z;
  occs_present : Z;
  config : Z;
  occ_state : Z;
  h_reserved0 : Z;
  h_reserved1 : Z;
  error_log_id : Z;
  error_log_addr_start : Z;
  error_log_length : Z;
  h_reserved2 : Z;
  h_reserved3 : Z;
  occ_code_level : list Z;
  sensor_eye_catcher : list Z;
  sensor_block_num : Z;
  sensor_data_version : Z
}.

Record occ_response : Set := {
  sequence_num : Z;
  cmd_type : Z;
  rtn_status : Z;
  data_length : Z;
  header : occ_poll_header;
  blocks : ptr;
  chk_sum : Z;
  temp_block_id : Z;
  freq_block_id : Z;
  power_block_id : Z;
  caps_block_id : Z
}.

(** data private to each client (the i2c client, the hwmon device and the
    mutex are not part of the sequential model) *)
Record occ_drv_data : Set := {
  valid : bool;
  last_updated : Z;
  update_interval : Z;
  occ_online : Z;
  user_powercap : Z;
  occ_resp : occ_response
}.

Inductive sensor_t : Set := freq | temp | power_t | caps_t.

(** Everything [memset(.., 0, ..)] or [kcalloc] leaves behind. *)
Definition zero_occ_sensor : occ_sensor := {| sensor_id := 0; value := 0 |}.
Definition zero_power_sensor : power_sensor :=
  {| p_sensor_id := 0; update_tag := 0; accumulator := 0; p_value := 0 |}.
Definition zero_caps_sensor : caps_sensor :=
  {| curr_powercap := 0; curr_powerreading := 0; norm_powercap := 0;
     max_powercap := 0; min_powercap := 0; user_powerlimit := 0 |}.
Definition zero_block : sensor_data_block :=
  {| sensor_type := [0; 0; 0; 0]; reserved0 := 0; sensor_format := 0;
     sensor_length := 0; num_of_sensors := 0;
     sensor := NULL; power := NULL; caps := NULL |}.
Definition zero_header : occ_poll_header :=
  {| status := 0; ext_status := 0; occs_present := 0; config := 0;
     occ_state := 0; h_reserved0 := 0; h_reserved1 := 0; error_log_id := 0;
     error_log_addr_start := 0; error_log_length := 0; h_reserved2 := 0;
     h_reserved3 := 0; occ_code_level := replicate 16 0;
     sensor_eye_catcher := replicate 6 0; sensor_block_num := 0;
     sensor_data_version := 0 |}.
Definition zero_response : occ_response :=
  {| sequence_num := 0; cmd_type := 0; rtn_status := 0; data_length := 0;
     header := zero_header; blocks := NULL; chk_sum := 0;
     temp_block_id := 0; freq_block_id := 0; power_block_id := 0;
     caps_block_id := 0 |}.

(** ** The heap

    Allocations are typed arrays at distinct addresses; an address is never
    handed out twice, so a freed address stays recognisable.  [quota] is the
    number of allocations the allocator will still grant before kcalloc
    starts returning NULL. *)
Inductive object : Set :=
  | Blocks (bs : list sensor_data_block)
  | Sensors (ss : list occ_sensor)
  | Powers (ps : list power_sensor)
  | Caps (cs : list caps_sensor).

Record heap : Type := {
  objs : gmap Z object;
  brk : Z;
  quota : nat
}.

Definition live (h : heap) (p : ptr) : bool := bool_decide (is_Some (objs h !! p)).

Definition kcalloc (h : heap) (o : object) : ptr * heap :=
  match quota h with
  | O => (NULL, h)
  | S q =>
      let p := Z.max 1 (brk h) in
      (p, {| objs := <[p := o]> (objs h); brk := p + 1; quota := q |})
  end.

Definition kfree (p : ptr) (h : heap) : res heap :=
  if p =? NULL then Ok h
  else match objs h !! p with
       | Some _ => Ok {| objs := delete p (objs h); brk := brk h; quota := quota h |}
       | None => Fault DoubleFree
       end.

Definition deref (h : heap) (p : ptr) : res object :=
  if p =? NULL then Fault NullDeref
  else match objs h !! p with
       | Some o => Ok o
       | None => Fault Dangling
       end.

Definition assign (h : heap) (p : ptr) (o : object) : heap :=
  {| objs := <[p := o]> (objs h); brk := brk h; quota := quota h |}.

(** [n]-th element of an array / its replacement, with the bounds of the
    allocation enforced. *)
Definition index {A : Type} (l : list A) (n : Z) : res A :=
  if n <? 0 then Fault OutOfBounds
  else match l !! Z.to_nat n with
       | Some a => Ok a
       | None => Fault OutOfBounds
       end.

Definition update {A : Type} (l : list A) (n : Z) (a : A) : res (list A) :=
  if (0 <=? n) && (n <? Z.of_nat (length l)) then Ok (<[Z.to_nat n := a]> l)
  else Fault OutOfBounds.

(** [p[i]] for [p] a [struct sensor_data_block *] *)
Definition load_block (h : heap) (p : ptr) (i : Z) : res sensor_data_block :=
  o ← deref h p;
  match o with
  | Blocks bs => index bs i
  | _ => Fault BadCast
  end.

(** [p[i] = b] *)
Definition store_block (h : heap) (p : ptr) (i : Z) (b : sensor_data_block) : res heap :=
  o ← deref h p;
  match o with
  | Blocks bs => bs ← update bs i b; Ok (assign h p (Blocks bs))
  | _ => Fault BadCast
  end.

(** ** Sensor storage manager *)

(** The state [deinit_occ_resp_buf] leaves: [memset(p, 0, sizeof( *p))]
    followed by the four indices set to -1. *)
Definition reset_response : occ_response :=
  {| sequence_num := 0; cmd_type := 0; rtn_status := 0; data_length := 0;
     header := zero_header; blocks := NULL; chk_sum := 0;
     temp_block_id := -1; freq_block_id := -1; power_block_id := -1;
     caps_block_id := -1 |}.

(** The body of the loop of [deinit_occ_resp_buf]:
    [kfree(p->blocks[i].sensor); kfree(p->blocks[i].power); kfree(p->blocks[i].caps)] *)
Definition free_block (p : occ_response) (i : Z) (h : heap) : res heap :=
  b ← load_block h (blocks p) i;
  h ← kfree (sensor b) h;
  b ← load_block h (blocks p) i;
  h ← kfree (power b) h;
  b ← load_block h (blocks p) i;
  kfree (caps b) h.

(** [p] itself is never NULL: it is the address of a member of the driver
    data. *)
Definition deinit_occ_resp_buf (p : occ_response) (h : heap) : res (occ_response * heap) :=
  if blocks p =? NULL then Ok (p, h)
  else
    h ← for_each (free_block p) (seqZ 0 (sensor_block_num (header p))) h;
    h ← kfree (blocks p) h;
    Ok (reset_response, h).

Definition block_id (resp : occ_response) (t : sensor_t) : Z :=
  match t with
  | temp => temp_block_id resp
  | freq => freq_block_id resp
  | power_t => power_block_id resp
  | caps_t => caps_block_id resp
  end.

(** The member of a block that holds the records of type [t]. *)
Definition array_of (t : sensor_t) (b : sensor_data_block) : ptr :=
  match t with
  | temp | freq => sensor b
  | power_t => power b
  | caps_t => caps b
  end.

Definition set_array (t : sensor_t) (b : sensor_data_block) (p : ptr) : sensor_data_block :=
  match t with
  | temp | freq =>
      {| sensor_type := sensor_type b; reserved0 := reserved0 b;
         sensor_format := sensor_format b; sensor_length := sensor_length b;
         num_of_sensors := num_of_sensors b;
         sensor := p; power := power b; caps := caps b |}
  | power_t =>
      {| sensor_type := sensor_type b; reserved0 := reserved0 b;
         sensor_format := sensor_format b; sensor_length := sensor_length b;
         num_of_sensors := num_of_sensors b;
         sensor := sensor b; power := p; caps := caps b |}
  | caps_t =>
      {| sensor_type := sensor_type b; reserved0 := reserved0 b;
         sensor_format := sensor_format b; sensor_length := sensor_length b;
         num_of_sensors := num_of_sensors b;
         sensor := sensor b; power := power b; caps := p |}
  end.

(** [kcalloc(num_of_sensors, sizeof(struct ..), GFP_KERNEL)] for type [t] *)
Definition zero_array (t : sensor_t) (n : Z) : object :=
  match t with
  | temp | freq => Sensors (replicate (Z.to_nat n) zero_occ_sensor)
  | power_t => Powers (replicate (Z.to_nat n) zero_power_sensor)
  | caps_t => Caps (replicate (Z.to_nat n) zero_caps_sensor)
  end.

Definition occ_get_sensor_by_type (resp : occ_response) (h : heap) (t : sensor_t) : res ptr :=
  if blocks resp =? NULL then Ok NULL
  else if block_id resp t =? -1 then Ok NULL
  else b ← load_block h (blocks resp) (block_id resp t); Ok (array_of t b).

(** The four arms of the [switch] differ only in the index and the member
    they use; they are one arm over [block_id], [array_of] and [set_array]. *)
Definition occ_renew_sensor (resp : occ_response) (h : heap)
    (len num : Z) (t : sensor_t) (block : Z)
  : res (Z * occ_response * heap) :=
  sensor ← occ_get_sensor_by_type resp h t;
  (* empty sensor block, release older sensor data *)
  if (num =? 0) || (len =? 0) then
    h ← kfree sensor h; Ok (-1, resp, h)
  else
    renew ← (if sensor =? NULL then Ok true
             else b ← load_block h (blocks resp) (block_id resp t);
                  Ok (negb (num =? num_of_sensors b)));
    if renew : bool then
      h ← kfree sensor h;
      let '(p, h) := kcalloc h (zero_array t num) in
      b ← load_block h (blocks resp) block;
      h ← store_block h (blocks resp) block (set_array t b p);
      if p =? NULL then
        '(resp, h) ← deinit_occ_resp_buf resp h; Ok (- ENOMEM, resp, h)
      else Ok (0, resp, h)
    else Ok (0, resp, h).

(** ** Response parser *)

Definition RESP_DATA_LENGTH : Z := 3.
Definition RESP_HEADER_OFFSET : Z := 5.
Definition SENSOR_STR_OFFSET : Z := 37.
Definition SENSOR_BLOCK_NUM_OFFSET : Z := 43.
Definition SENSOR_BLOCK_OFFSET : Z := 45.

Definition get_occdata_length (data : list Z) : Z :=
  be16_to_cpup data RESP_DATA_LENGTH.

(** The [n] bytes at [&data[off]]. *)
Definition bytes_at (data : list Z) (off n : Z) : list Z :=
  map (fun k => byte_at data (off + k)) (seqZ 0 n).

(** The kernel's [strncmp]: compares at most [count] characters and stops
    at a NUL. *)
Fixpoint strncmp (cs ct : list Z) (count : nat) : Z :=
  match count with
  | O => 0
  | S count =>
      let c1 := hd 0 cs in
      let c2 := hd 0 ct in
      if negb (c1 =? c2) then (if c1 <? c2 then -1 else 1)
      else if c1 =? 0 then 0
      else strncmp (tl cs) (tl ct) count
  end.

(** The kernel's [strncpy]: copies up to a NUL and pads with NULs. *)
Fixpoint strncpy (src : list Z) (count : nat) : list Z :=
  match count with
  | O => []
  | S count =>
      let c := hd 0 src in
      if c =? 0 then replicate (S count) 0
      else c :: strncpy (tl src) count
  end.

(** The string literals of the parser, as character codes. *)
Definition str_SENSOR : list Z := [83; 69; 78; 83; 79; 82].
Definition str_FREQ : list Z := [70; 82; 69; 81].
Definition str_TEMP : list Z := [84; 69; 77; 80].
Definition str_POWR : list Z := [80; 79; 87; 82].
Definition str_CAPS : list Z := [67; 65; 80; 83].

(** [memcpy(&resp->header, &data[RESP_HEADER_OFFSET], sizeof(resp->header))]
    followed by the two byte-order conversions.  The structure has no
    padding: its members lie at offsets 0..7, 8, 12, 14, 15, 16, 32, 38, 39. *)
Definition read_header (data : list Z) : occ_poll_header :=
  let o := RESP_HEADER_OFFSET in
  {| status := byte_at data o;
     ext_status := byte_at data (o + 1);
     occs_present := byte_at data (o + 2);
     config := byte_at data (o + 3);
     occ_state := byte_at data (o + 4);
     h_reserved0 := byte_at data (o + 5);
     h_reserved1 := byte_at data (o + 6);
     error_log_id := byte_at data (o + 7);
     error_log_addr_start := be32_to_cpup data (o + 8);
     error_log_length := be16_to_cpup data (o + 12);
     h_reserved2 := byte_at data (o + 14);
     h_reserved3 := byte_at data (o + 15);
     occ_code_level := bytes_at data (o + 16) 16;
     sensor_eye_catcher := bytes_at data (o + 32) 6;
     sensor_block_num := byte_at data (o + 38);
     sensor_data_version := byte_at data (o + 39) |}.

Definition set_header (resp : occ_response) (hd : occ_poll_header) : occ_response :=
  {| sequence_num := sequence_num resp; cmd_type := cmd_type resp;
     rtn_status := rtn_status resp; data_length := data_length resp;
     header := hd; blocks := blocks resp; chk_sum := chk_sum resp;
     temp_block_id := temp_block_id resp; freq_block_id := freq_block_id resp;
     power_block_id := power_block_id resp; caps_block_id := caps_block_id resp |}.

Definition set_blocks (resp : occ_response) (p : ptr) : occ_response :=
  {| sequence_num := sequence_num resp; cmd_type := cmd_type resp;
     rtn_status := rtn_status resp; data_length := data_length resp;
     header := header resp; blocks := p; chk_sum := chk_sum resp;
     temp_block_id := temp_block_id resp; freq_block_id := freq_block_id resp;
     power_block_id := power_block_id resp; caps_block_id := caps_block_id resp |}.

(** [resp->freq_block_id = b] and its three siblings *)
Definition set_block_id (resp : occ_response) (t : sensor_t) (b : Z) : occ_response :=
  {| sequence_num := sequence_num resp; cmd_type := cmd_type resp;
     rtn_status := rtn_status resp; data_length := data_length resp;
     header := header resp; blocks := blocks resp; chk_sum := chk_sum resp;
     temp_block_id := (if t is temp then b else temp_block_id resp);
     freq_block_id := (if t is freq then b else freq_block_id resp);
     power_block_id := (if t is power_t then b else power_block_id resp);
     caps_block_id := (if t is caps_t then b else caps_block_id resp) |}.

(** The response buffer has [OCC_DATA_MAX] bytes; a load of [n] bytes at
    [&data[i]] that leaves it is undefined.  The parser's cursor [dnum] is
    the one index into the buffer that depends on the reply. *)
Definition in_buffer (i n : Z) : res unit :=
  if (0 <=? i) && (i + n <=? OCC_DATA_MAX) then Ok tt else Fault OutOfBounds.

(** The number of bytes, from [&data[dnum]] on, one record of each type is
    decoded from. *)
Definition record_size (t : sensor_t) : Z :=
  match t with
  | temp | freq => 4
  | power_t | caps_t => 12
  end.

(** The fields one record of each type is decoded from. *)
Definition decode_occ_sensor (data : list Z) (dnum : Z) : occ_sensor :=
  {| sensor_id := be16_to_cpup data dnum;
     value := be16_to_cpup data (dnum + 2) |}.

Definition decode_power_sensor (data : list Z) (dnum : Z) : power_sensor :=
  {| p_sensor_id := be16_to_cpup data dnum;
     update_tag := be32_to_cpup data (dnum + 2);
     accumulator := be32_to_cpup data (dnum + 6);
     p_value := be16_to_cpup data (dnum + 10) |}.

Definition decode_caps_sensor (data : list Z) (dnum : Z) : caps_sensor :=
  {| curr_powercap := be16_to_cpup data dnum;
     curr_powerreading := be16_to_cpup data (dnum + 2);
     norm_powercap := be16_to_cpup data (dnum + 4);
     max_powercap := be16_to_cpup data (dnum + 6);
     min_powercap := be16_to_cpup data (dnum + 8);
     user_powerlimit := be16_to_cpup data (dnum + 10) |}.

(** One turn of a record loop: the stores through
    [&resp->blocks[b].sensor[s]] (or [.power[s]], [.caps[s]]) followed by
    [dnum = dnum + sensor_length]. *)
Definition decode_record (data : list Z) (resp : occ_response) (t : sensor_t)
    (b len : Z) (s : Z) (st : Z * heap) : res (Z * heap) :=
  let '(dnum, h) := st in
  blk ← load_block h (blocks resp) b;
  let a := array_of t blk in
  _ ← in_buffer dnum (record_size t);
  o ← deref h a;
  o ← match t, o with
      | (temp | freq), Sensors l =>
          l ← update l s (decode_occ_sensor data dnum); Ok (Sensors l)
      | power_t, Powers l =>
          l ← update l s (decode_power_sensor data dnum); Ok (Powers l)
      | caps_t, Caps l =>
          l ← update l s (decode_caps_sensor data dnum); Ok (Caps l)
      | _, _ => Fault BadCast
      end;
  Ok (dnum + len, assign h a o).

Definition sensor_t_of_tag (tag : list Z) : option sensor_t :=
  if strncmp tag str_FREQ 4 =? 0 then Some freq
  else if strncmp tag str_TEMP 4 =? 0 then Some temp
  else if strncmp tag str_POWR 4 =? 0 then Some power_t
  else if strncmp tag str_CAPS 4 =? 0 then Some caps_t
  else None.

(** What one turn of the block loop ends in: the next turn ([continue] or
    the end of the body), or [goto err] with the value of [ret]. *)
Inductive turn : Type :=
  | Next (dnum : Z) (resp : occ_response) (h : heap)
  | GotoErr (ret : Z) (resp : occ_response) (h : heap).

(** The body of [for (b = 0; b < sensor_block_num; b++)]. *)
Definition parse_block (data : list Z) (b : Z) (dnum : Z)
    (resp : occ_response) (h : heap) : res turn :=
  (* 8-byte sensor block head *)
  _ ← in_buffer dnum 8;
  let tag := strncpy (bytes_at data dnum 4) 4 in
  let format := byte_at data (dnum + 5) in
  let len := byte_at data (dnum + 6) in
  let num := byte_at data (dnum + 7) in
  let dnum := dnum + 8 in
  match sensor_t_of_tag tag with
  | Some t =>
      '(ret, resp, h) ← occ_renew_sensor resp h len num t b;
      if negb (ret =? 0) then Ok (Next dnum resp h)
      else
        let resp := set_block_id resp t b in
        '(dnum, h) ← for_each (decode_record data resp t b len) (seqZ 0 num) (dnum, h);
        blk ← load_block h (blocks resp) b;
        h ← store_block h (blocks resp) b
              {| sensor_type := strncpy tag 4; reserved0 := reserved0 blk;
                 sensor_format := format; sensor_length := len;
                 num_of_sensors := num;
                 sensor := sensor blk; power := power blk; caps := caps blk |};
        Ok (Next dnum resp h)
  | None => Ok (GotoErr (-1) resp h)
  end.

(** The block loop over the turns [bs]: the state it leaves when every turn
    ran to its end, or the [goto err] that cut it short. *)
Fixpoint run_turns (data : list Z) (bs : list Z) (dnum : Z)
    (resp : occ_response) (h : heap) : res turn :=
  match bs with
  | [] => Ok (Next dnum resp h)
  | b :: bs =>
      r ← parse_block data b dnum resp h;
      match r with
      | Next dnum resp h => run_turns data bs dnum resp h
      | GotoErr ret resp h => Ok (GotoErr ret resp h)
      end
  end.

(** The loop followed by [return 0], or by the [err:] exit. *)
Definition parse_blocks (data : list Z) (bs : list Z) (dnum : Z)
    (resp : occ_response) (h : heap) : res (Z * occ_response * heap) :=
  r ← run_turns data bs dnum resp h;
  match r with
  | Next _ resp h => Ok (0, resp, h)
  | GotoErr ret resp h =>
      '(resp, h) ← deinit_occ_resp_buf resp h; Ok (ret, resp, h)
  end.

(** if sensor block has changed, re-malloc.  The flag is the
    [if (!resp->blocks)] that follows the allocation. *)
Definition renew_block_list (nblocks : Z) (resp : occ_response) (h : heap)
  : res (occ_response * heap * bool) :=
  if negb (nblocks =? sensor_block_num (header resp)) then
    '(resp, h) ← deinit_occ_resp_buf resp h;
    let '(p, h) := kcalloc h (Blocks (replicate (Z.to_nat nblocks) zero_block)) in
    Ok (set_blocks resp p, h, p =? NULL)
  else Ok (resp, h, false).

(** The header copy and the block loop. *)
Definition parse_body (data : list Z) (nblocks : Z) (resp : occ_response) (h : heap)
  : res (Z * occ_response * heap) :=
  let resp := set_header resp (read_header data) in
  parse_blocks data (seqZ 0 nblocks) SENSOR_BLOCK_OFFSET resp h.

Definition parse_occ_response (data : list Z) (resp : occ_response) (h : heap)
  : res (Z * occ_response * heap) :=
  (* check if the data is valid *)
  if negb (strncmp (bytes_at data SENSOR_STR_OFFSET 6) str_SENSOR 6 =? 0) then
    '(resp, h) ← deinit_occ_resp_buf resp h; Ok (-1, resp, h)
  else
    let nblocks := byte_at data SENSOR_BLOCK_NUM_OFFSET in
    if nblocks =? 0 then
      '(resp, h) ← deinit_occ_resp_buf resp h; Ok (-1, resp, h)
    else
      '(resp, h, enomem) ← renew_block_list nblocks resp h;
      if enomem : bool then Ok (- ENOMEM, resp, h)
      else parse_body data nblocks resp h.

(** ** Refresh *)

Section Refresh.
Context {W : Type} `{Platform W}.

(** The poll command is sent with a one-byte payload, for which the frame
    does not depend on what the stack slot of [cmd2] held (see
    [poll_frame_stack_independent]); the slot is taken as 0. *)
Definition occ_get_all (w : W) (occ_resp : occ_response) (h : heap)
  : res (W * Z * occ_response * heap) :=
  let poll_cmd_data := 0x10 in
  let occ_data := replicate (Z.to_nat OCC_DATA_MAX) 0 in
  '(w, ret, occ_data) ← occ_send_cmd w 0 0 1 [poll_cmd_data] 0 occ_data;
  if negb (ret =? 0) then Ok (w, - EINVAL, occ_resp, h)
  else
    let num_bytes := get_occdata_length occ_data in
    if num_bytes >? OCC_DATA_MAX then Ok (w, - EINVAL, occ_resp, h)
    else if num_bytes <=? 0 then Ok (w, - EINVAL, occ_resp, h)
    else
      (* read remaining data *)
      '(w, occ_data) ← read_remaining w occ_data num_bytes;
      '(ret, occ_resp, h) ← parse_occ_response occ_data occ_resp h;
      Ok (w, ret, occ_resp, h).

(** [unsigned long] arithmetic of the tick counter and the kernel's
    [time_after(a, b)], which is [(long)(b - a) < 0]. *)
Definition BITS_PER_LONG : Z := 32.
Definition ulong (x : Z) : Z := x mod 2 ^ BITS_PER_LONG.
Definition time_after (a b : Z) : bool :=
  2 ^ (BITS_PER_LONG - 1) <=? ulong (b - a).

Definition set_valid (data : occ_drv_data) (v : bool) : occ_drv_data :=
  {| valid := v; last_updated := last_updated data;
     update_interval := update_interval data; occ_online := occ_online data;
     user_powercap := user_powercap data; occ_resp := occ_resp data |}.

Definition set_last_updated (data : occ_drv_data) (j : Z) : occ_drv_data :=
  {| valid := valid data; last_updated := j;
     update_interval := update_interval data; occ_online := occ_online data;
     user_powercap := user_powercap data; occ_resp := occ_resp data |}.

Definition set_occ_resp (data : occ_drv_data) (r : occ_response) : occ_drv_data :=
  {| valid := valid data; last_updated := last_updated data;
     update_interval := update_interval data; occ_online := occ_online data;
     user_powercap := user_powercap data; occ_resp := r |}.

(** The test that gates a refresh. *)
Definition refresh_due (w : W) (data : occ_drv_data) : bool :=
  time_after (ulong (jiffies w)) (ulong (last_updated data + update_interval data))
  || negb (valid data).

(** The mutex is held from entry to exit; the model is sequential. *)
Definition occ_update_device (w : W) (data : occ_drv_data) (h : heap)
  : res (W * Z * occ_drv_data * heap) :=
  if refresh_due w data then
    let data := set_valid data true in
    '(w, ret, resp, h) ← occ_get_all w (occ_resp data) h;
    let data := set_occ_resp data resp in
    let data := if negb (ret =? 0) then set_valid data false else data in
    let data := set_last_updated data (ulong (jiffies w)) in
    Ok (w, ret, data, h)
  else Ok (w, 0, data, h).

Definition occ_get_sensor (w : W) (data : occ_drv_data) (h : heap) (t : sensor_t)
  : res (W * ptr * occ_drv_data * heap) :=
  '(w, ret, data, h) ← occ_update_device w data h;
  if negb (ret =? 0) then Ok (w, NULL, data, h)
  else p ← occ_get_sensor_by_type (occ_resp data) h t; Ok (w, p, data, h).
End Refresh.

(** ** Two simulated peers

    [sim] hands back a canned reply eight bytes at a time (each register
    read returns the next eight bytes of the reply, in the reversed order the
    register layer undoes) and acknowledges every write in full.  [sent]
    counts the write transfers, [clock] is the tick counter; no time passes
    during a transfer. *)
Record sim : Type := {
  reply : list Z;
  sent : Z;
  clock : Z
}.

Definition sim_send (w : sim) (buf : list Z) : sim * Z :=
  ({| reply := reply w; sent := sent w + 1; clock := clock w |},
   Z.of_nat (length buf)).

Definition sim_recv (w : sim) (count : Z) : sim * (Z * list Z) :=
  ({| reply := drop 8 (reply w); sent := sent w; clock := clock w |},
   (count, reverse (bytes_at (reply w) 0 8))).

#[global] Instance sim_platform : Platform sim :=
  {| i2c_master_send := sim_send; i2c_master_recv := sim_recv; jiffies := clock |}.

(** [dead] is a peer that does not answer: every write is reported short
    (0 bytes), every read likewise.  [attempts] counts the write
    transfers. *)
Record dead : Type := {
  attempts : Z;
  ticks : Z
}.

Definition dead_send (w : dead) (buf : list Z) : dead * Z :=
  ({| attempts := attempts w + 1; ticks := ticks w |}, 0).

Definition dead_recv (w : dead) (count : Z) : dead * (Z * list Z) :=
  (w, (0, [])).

#[global] Instance dead_platform : Platform dead :=
  {| i2c_master_send := dead_send; i2c_master_recv := dead_recv; jiffies := ticks |}.

Definition empty_heap (q : nat) : heap := {| objs := ∅; brk := 1; quota := q |}.

(** The response state before the first refresh: all zero, with the four
    indices set to -1 by [occ_create_hwmon_attribute]. *)
Definition fresh_response : occ_response := reset_response.

(** A reply with one block: tag, format, record length and count, followed
    by the record bytes.  Bytes 0..4 carry sequence, command, status and the
    data length; the header is zero up to the eye catcher. *)
Definition reply_prefix (data_len nblocks : Z) : list Z :=
  [0; 0; 0; data_len / 256; data_len mod 256] ++ replicate 32 0
  ++ str_SENSOR ++ [nblocks; 1].

Definition block_head (tag : list Z) (len num : Z) : list Z :=
  tag ++ [0; 1; len; num].

(** ** Ownership

    The storage a response state refers to: the non-NULL record arrays of
    its first [sensor_block_num] blocks.  The state owns its storage when
    its block list and those arrays are live, pairwise distinct
    allocations; this is what [deinit_occ_resp_buf] needs in order to free
    each of them exactly once. *)
Definition non_null (p : ptr) : list ptr := if p =? NULL then [] else [p].

Definition block_ptrs (b : sensor_data_block) : list ptr :=
  non_null (sensor b) ++ non_null (power b) ++ non_null (caps b).

Definition owned_ptrs (bs : list sensor_data_block) : list ptr :=
  concat (map block_ptrs bs).

Definition owns_storage (resp : occ_response) (h : heap) : bool :=
  match objs h !! blocks resp with
  | Some (Blocks bs) =>
      let n := sensor_block_num (header resp) in
      negb (blocks resp =? NULL)
      && (0 <=? n) && (n <=? Z.of_nat (length bs))
      && bool_decide (NoDup (blocks resp :: owned_ptrs (take (Z.to_nat n) bs)))
      && forallb (live h) (owned_ptrs (take (Z.to_nat n) bs))
  | _ => false
  end.

(** Heaps that differ by the release of the addresses [P]. *)
Definition released (P : list ptr) (h h' : heap) : Prop :=
  (forall q : ptr, objs h' !! q = if bool_decide (q ∈ P) then None else objs h !! q)
  /\ brk h' = brk h /\ quota h' = quota h.

(** Every allocation lies below the next address the allocator hands out. *)
Definition below_brk (h : heap) : Prop :=
  map_Forall (fun (q : Z) (_ : object) => q < brk h) (objs h).

(** ** Sample replies and states *)

Definition state_after (r : res (Z * occ_response * heap)) : occ_response * heap :=
  match r with
  | Ok (_, resp, h) => (resp, h)
  | Fault _ => (fresh_response, empty_heap 0)
  end.

(** A reply holding a single FREQ block. *)
Definition reply_freq (len num : Z) (records : list Z) : list Z :=
  reply_prefix 64 1 ++ block_head str_FREQ len num ++ records.

(** The snapshot after a first refresh that found two frequency records:
    the block list at address 1, the record array at address 2. *)
Definition snapshot_freq2 : occ_response * heap :=
  state_after (parse_occ_response (reply_freq 4 2 [0; 1; 0; 100; 0; 2; 0; 200])
                 fresh_response (empty_heap 8)).

(** A FREQ block followed by a block tagged "XYZZ". *)
Definition reply_xyzz : list Z :=
  reply_prefix 64 2 ++ block_head str_FREQ 4 2 ++ [0; 1; 0; 100; 0; 2; 0; 200]
  ++ block_head [88; 89; 90; 90] 4 1 ++ [0; 3; 0; 7].

(** A controller announcing 4096 bytes of data. *)
Definition sim_4096 : sim := {| reply := reply_prefix 4096 1; sent := 0; clock := 0 |}.

Definition dead_0 : dead := {| attempts := 0; ticks := 5000 |}.

(** Driver data before the first refresh, and after a refresh that failed
    at tick 5000. *)
Definition drv_0 : occ_drv_data :=
  {| valid := false; last_updated := 0; update_interval := 1000; occ_online := 1;
     user_powercap := 0; occ_resp := fresh_response |}.

Definition drv_failed : occ_drv_data :=
  {| valid := false; last_updated := 5000; update_interval := 1000; occ_online := 1;
     user_powercap := 0; occ_resp := fresh_response |}.

(** ** The sysfs readers and the power cap control

    Each [show_..] function formats one [int] with ["%d\n"]; the model
    returns that [int] (the formatting itself is the kernel's [snprintf]).
    The index [n] (and [nr]) comes from the attribute table. *)

(** [sensor[n]] for [sensor] a [struct occ_sensor *], and its siblings *)
Definition sensor_at (h : heap) (p : ptr) (n : Z) : res occ_sensor :=
  o ← deref h p;
  match o with
  | Sensors l => index l n
  | _ => Fault BadCast
  end.

Definition power_at (h : heap) (p : ptr) (n : Z) : res power_sensor :=
  o ← deref h p;
  match o with
  | Powers l => index l n
  | _ => Fault BadCast
  end.

Definition caps_at (h : heap) (p : ptr) (n : Z) : res caps_sensor :=
  o ← deref h p;
  match o with
  | Caps l => index l n
  | _ => Fault BadCast
  end.

Section Readout.
Context {W : Type} `{Platform W}.

Definition show_occ_temp_input (w : W) (data : occ_drv_data) (h : heap) (n : Z)
  : res (W * Z * occ_drv_data * heap) :=
  '(w, sensor, data, h) ← occ_get_sensor w data h temp;
  if sensor =? NULL then Ok (w, -1, data, h)
  else
    (* in millidegree Celsius *)
    s ← sensor_at h sensor n; Ok (w, value s * 1000, data, h).

Definition show_occ_temp_label (w : W) (data : occ_drv_data) (h : heap) (n : Z)
  : res (W * Z * occ_drv_data * heap) :=
  '(w, sensor, data, h) ← occ_get_sensor w data h temp;
  if sensor =? NULL then Ok (w, -1, data, h)
  else s ← sensor_at h sensor n; Ok (w, sensor_id s, data, h).

Definition show_occ_power_label (w : W) (data : occ_drv_data) (h : heap) (n : Z)
  : res (W * Z * occ_drv_data * heap) :=
  '(w, sensor, data, h) ← occ_get_sensor w data h power_t;
  if sensor =? NULL then Ok (w, -1, data, h)
  else s ← power_at h sensor n; Ok (w, p_sensor_id s, data, h).

Definition show_occ_power_input (w : W) (data : occ_drv_data) (h : heap) (n : Z)
  : res (W * Z * occ_drv_data * heap) :=
  '(w, sensor, data, h) ← occ_get_sensor w data h power_t;
  if sensor =? NULL then Ok (w, -1, data, h)
  else s ← power_at h sensor n; Ok (w, p_value s, data, h).

Definition show_occ_freq_label (w : W) (data : occ_drv_data) (h : heap) (n : Z)
  : res (W * Z * occ_drv_data * heap) :=
  '(w, sensor, data, h) ← occ_get_sensor w data h freq;
  if sensor =? NULL then Ok (w, -1, data, h)
  else s ← sensor_at h sensor n; Ok (w, sensor_id s, data, h).

Definition show_occ_freq_input (w : W) (data : occ_drv_data) (h : heap) (n : Z)
  : res (W * Z * occ_drv_data * heap) :=
  '(w, sensor, data, h) ← occ_get_sensor w data h freq;
  if sensor =? NULL then Ok (w, -1, data, h)
  else s ← sensor_at h sensor n; Ok (w, value s, data, h).

Definition show_occ_caps (w : W) (data : occ_drv_data) (h : heap) (nr n : Z)
  : res (W * Z * occ_drv_data * heap) :=
  '(w, sensor, data, h) ← occ_get_sensor w data h caps_t;
  if sensor =? NULL then Ok (w, -1, data, h)
  else
    if nr =? 0 then s ← caps_at h sensor n; Ok (w, curr_powercap s, data, h)
    else if nr =? 1 then s ← caps_at h sensor n; Ok (w, curr_powerreading s, data, h)
    else if nr =? 2 then s ← caps_at h sensor n; Ok (w, norm_powercap s, data, h)
    else if nr =? 3 then s ← caps_at h sensor n; Ok (w, max_powercap s, data, h)
    else if nr =? 4 then s ← caps_at h sensor n; Ok (w, min_powercap s, data, h)
    else if nr =? 5 then s ← caps_at h sensor n; Ok (w, user_powerlimit s, data, h)
    else Ok (w, -1, data, h).


(** [kstrtou16] is the kernel's parser (lib/kstrtox.c), which is not part
    of this file: it is a parameter.  [kstrtou16 buf base] is the error code
    it returns and the value it stores through [&val] when that code is 0. *)
Variable kstrtou16 : list Z -> Z -> Z * Z.

End Readout.

(** ** Reference views used in the statements

    The records found at [dnum], [dnum + len], [dnum + 2 * len], ... and
    the byte image of a frequency or temperature record. *)
Fixpoint decode_list {A : Type} (dec : Z -> A) (dnum len : Z) (n : nat) : list A :=
  match n with
  | O => []
  | S n => dec dnum :: decode_list dec (dnum + len) len n
  end.

Definition decoded_array (t : sensor_t) (data : list Z) (dnum len num : Z) : object :=
  match t with
  | temp | freq => Sensors (decode_list (decode_occ_sensor data) dnum len (Z.to_nat num))
  | power_t => Powers (decode_list (decode_power_sensor data) dnum len (Z.to_nat num))
  | caps_t => Caps (decode_list (decode_caps_sensor data) dnum len (Z.to_nat num))
  end.

Definition encode_occ_sensor (r : occ_sensor) : list Z :=
  [sensor_id r / 256; sensor_id r mod 256; value r / 256; value r mod 256].

Definition occ_sensor_in_range (r : occ_sensor) : Prop :=
  0 <= sensor_id r < 65536 /\ 0 <= value r < 65536.

(** The tag of each sensor type. *)
Definition tag_of (t : sensor_t) : list Z :=
  match t with
  | freq => str_FREQ
  | temp => str_TEMP
  | power_t => str_POWR
  | caps_t => str_CAPS
  end.

(** The length of the array of type [t] held in an object. *)
Definition array_length (t : sensor_t) (o : object) : option nat :=
  match t, o with
  | (temp | freq), Sensors l => Some (length l)
  | power_t, Powers l => Some (length l)
  | caps_t, Caps l => Some (length l)
  | _, _ => None
  end.

(** The block head the parser leaves in the list after decoding the block
    found at [dnum], its records being in the array [p]. *)
Definition decoded_block (t : sensor_t) (data : list Z) (dnum : Z)
    (blk : sensor_data_block) (p : ptr) : sensor_data_block :=
  let blk := set_array t blk p in
  {| sensor_type := tag_of t; reserved0 := reserved0 blk;
     sensor_format := byte_at data (dnum + 5);
     sensor_length := byte_at data (dnum + 6);
     num_of_sensors := byte_at data (dnum + 7);
     sensor := sensor blk; power := power blk; caps := caps blk |}.

(** [mute] is a peer that takes every write in full and answers no read. *)
Record mute : Type := {
  writes : Z
}.

Definition mute_send (w : mute) (buf : list Z) : mute * Z :=
  ({| writes := writes w + 1 |}, Z.of_nat (length buf)).

Definition mute_recv (w : mute) (count : Z) : mute * (Z * list Z) :=
  (w, (0, [])).

#[global] Instance mute_platform : Platform mute :=
  {| i2c_master_send := mute_send; i2c_master_recv := mute_recv;
     jiffies := fun _ => 0 |}.

(** A controller answering the poll with two frequency records. *)
Definition sim_freq2 : sim :=
  {| reply := reply_freq 4 2 [0; 1; 0; 100; 0; 2; 0; 200]; sent := 0; clock := 5000 |}.

(** The state in which the block loop is entered on a first reply with one
    block: an empty block list at address 1. *)
Definition entry_state (data : list Z) : occ_response * heap :=
  (set_header (set_blocks fresh_response 1) (read_header data),
   {| objs := <[1 := Blocks [zero_block]]> (∅ : gmap Z object); brk := 2; quota := 4 |}).

(** Driver data after the refresh at tick 5000 that produced
    [snapshot_freq2], and the controller once that reply is consumed. *)
Definition drv_freq2 : occ_drv_data :=
  {| valid := true; last_updated := 5000; update_interval := 1000; occ_online := 1;
     user_powercap := 0; occ_resp := snapshot_freq2.1 |}.

Definition sim_idle (ticks : Z) : sim := {| reply := []; sent := 16; clock := ticks |}.

(** The seven register writes of [occ_send_cmd] in program order (register,
    [data0], [data1]), and the adapter after a list of writes, whatever
    each of them reported. *)
Definition exchange_writes (cmd1 cmd2 : Z) : list (Z * Z * Z) :=
  [(OCB_STATUS_CONTROL_OR, 0x08000000, 0x00000000);
   (OCB_STATUS_CONTROL_AND, 0xFBFFFFFF, 0xFFFFFFFF);
   (OCB_ADDRESS, OCC_COMMAND_ADDR, 0x00000000);
   (OCB_ADDRESS, OCC_COMMAND_ADDR, 0x00000000);
   (OCB_DATA, cmd1, cmd2);
   (ATTN_DATA, 0x01010000, 0x00000000);
   (OCB_ADDRESS, OCC_RESPONSE_ADDR, 0x00000000)].

Definition after_writes {W : Type} `{Platform W} (w : W) (l : list (Z * Z * Z)) : W :=
  fold_left (fun w '(address, data0, data1) => (occ_putscom w address data0 data1).1) l w.

(** Replies with three blocks, the last tagged "XYZZ": after a FREQ block
    with two records comes a FREQ block with a record count of 0, or a FREQ
    block with three records. *)
Definition reply_retire_xyzz : list Z :=
  reply_prefix 64 3 ++ block_head str_FREQ 4 2 ++ [0; 1; 0; 100; 0; 2; 0; 200]
  ++ block_head str_FREQ 4 0
  ++ block_head [88; 89; 90; 90] 4 1 ++ [0; 3; 0; 7].

Definition reply_twice_xyzz : list Z :=
  reply_prefix 64 3 ++ block_head str_FREQ 4 2 ++ [0; 1; 0; 100; 0; 2; 0; 200]
  ++ block_head str_FREQ 4 3 ++ [0; 1; 0; 100; 0; 2; 0; 200; 0; 3; 0; 250]
  ++ block_head [88; 89; 90; 90] 4 1 ++ [0; 3; 0; 7].

(** The snapshot after a first refresh that found two frequency records
    (block 0, array at address 2) and three temperature records (block 1,
    array at address 3), and two replies that come after it: a POWR block
    followed by the same two-record FREQ block, and the two blocks of the
    first reply in the opposite order. *)
Definition reply_freq_temp : list Z :=
  reply_prefix 64 2 ++ block_head str_FREQ 4 2 ++ [0; 1; 0; 100; 0; 2; 0; 200]
  ++ block_head str_TEMP 4 3 ++ [0; 1; 0; 30; 0; 2; 0; 31; 0; 3; 0; 32].

Definition snapshot_freq2_temp3 : occ_response * heap :=
  state_after (parse_occ_response reply_freq_temp fresh_response (empty_heap 8)).

Definition reply_powr_freq : list Z :=
  reply_prefix 64 2
  ++ block_head str_POWR 12 1 ++ [0; 1; 0; 0; 0; 7; 0; 0; 0; 9; 0; 80]
  ++ block_head str_FREQ 4 2 ++ [0; 1; 0; 111; 0; 2; 0; 222].

Definition reply_temp_freq : list Z :=
  reply_prefix 64 2 ++ block_head str_TEMP 4 3 ++ [0; 1; 0; 30; 0; 2; 0; 31; 0; 3; 0; 32]
  ++ block_head str_FREQ 4 2 ++ [0; 1; 0; 100; 0; 2; 0; 200].




(** The block whose head is at [dnum] lies inside the response buffer: its
    eight-byte head and the bytes its [num] records, [len] bytes apart, are
    decoded from. *)
Definition block_in_buffer (t : sensor_t) (dnum len num : Z) : Prop :=
  0 <= dnum /\ dnum + 8 <= OCC_DATA_MAX
  /\ (num <> 0 -> dnum + 8 + (num - 1) * len + record_size t <= OCC_DATA_MAX).

(** The heap once the allocator grants nothing more. *)
Definition exhausted (h : heap) : heap :=
  {| objs := objs h; brk := brk h; quota := 0 |}.

(** * Properties *)

#[local] Set Warnings "-clear-no-such-hyp".

(** ** The command frame *)

Lemma byte_of_mod w i : 0 <= i -> byte_of w i = (w / 2 ^ (i * 8)) mod 256.
Proof.
  intros Hi. unfold byte_of.
  change 255 with (Z.ones 8). rewrite Z.land_ones by lia.
  rewrite Z.shiftr_div_pow2 by lia. reflexivity.
Qed.

Lemma byte_of_range w i : 0 <= i -> 0 <= byte_of w i < 256.
Proof. intros Hi. rewrite byte_of_mod by done. apply Z.mod_pos_bound. lia. Qed.

Lemma sum_bytes_spec w c :
  sum_bytes w c = (c + byte_of w 0 + byte_of w 1 + byte_of w 2 + byte_of w 3) mod 65536.
Proof.
  unfold sum_bytes, u16. simpl. change (2 ^ 16) with 65536.
  repeat (rewrite <- ?Z.add_assoc; rewrite Zplus_mod_idemp_l).
  f_equal. lia.
Qed.

Lemma lor_disjoint a b k :
  0 <= k -> 0 <= b < 2 ^ k -> Z.lor (a * 2 ^ k) b = a * 2 ^ k + b.
Proof.
  intros Hk Hb. rewrite <- Z.add_lor_land.
  assert (Z.land (a * 2 ^ k) b = 0) as ->; [|lia].
  apply Z.bits_inj'. intros n Hn. rewrite Z.land_spec, Z.bits_0.
  destruct (Z.lt_ge_cases n k).
  - rewrite Z.mul_pow2_bits_low by lia. reflexivity.
  - assert (Z.testbit b n = false) as ->; [|apply andb_false_r].
    destruct (Z.eq_dec b 0) as [->|]; [apply Z.bits_0|].
    apply Z.bits_above_log2; [lia|].
    apply Z.log2_lt_pow2; [lia|].
    apply Z.lt_le_trans with (2 ^ k); [lia|]. apply Z.pow_le_mono_r; lia.
Qed.

Lemma byte_of_set_byte w i j b :
  0 <= i -> 0 <= j ->
  byte_of (set_byte w i b) j = if i =? j then u8 b else byte_of w j.
Proof.
  intros Hi Hj. unfold byte_of, set_byte, u8.
  apply Z.bits_inj'. intros n Hn.
  change 255 with (Z.ones 8).
  destruct (Z.eqb_spec i j) as [->|Hne].
  - rewrite Z.land_spec, Z.shiftr_spec, Z.lor_spec, Z.ldiff_spec, !Z.shiftl_spec by lia.
    rewrite !Z.testbit_mod_pow2 by lia.
    replace (n + j * 8 - j * 8) with n by lia.
    rewrite !(Z.testbit_ones_nonneg 8 n) by lia.
    destruct (n <? 8), (Z.testbit w (n + j * 8)), (Z.testbit b n); reflexivity.
  - rewrite !Z.land_spec, !Z.shiftr_spec, Z.lor_spec, Z.ldiff_spec, !Z.shiftl_spec by lia.
    rewrite (Z.testbit_ones_nonneg 8 n) by lia.
    destruct (Z.ltb_spec n 8); rewrite ?andb_false_r, ?andb_true_r; [|done].
    assert (n + j * 8 - i * 8 < 0 \/ 8 <= n + j * 8 - i * 8) as [Hlt|Hge] by lia.
    + rewrite !(Z.testbit_neg_r _ (n + j * 8 - i * 8)) by lia.
      simpl. rewrite andb_true_r, orb_false_r. reflexivity.
    + rewrite Z.testbit_ones_nonneg by lia.
      rewrite Z.testbit_mod_pow2 by lia.
      replace (n + j * 8 - i * 8 <? 8) with false by (symmetry; apply Z.ltb_ge; lia).
      simpl. rewrite andb_true_r, orb_false_r. reflexivity.
Qed.

Lemma u16_small l : 0 <= l <= 2 -> cpu_to_le16 l = l.
Proof. intros. unfold cpu_to_le16, u16. apply Z.mod_small. lia. Qed.

(** The word after the memcpy: its low [l] bytes are the payload. *)
Lemma memcpy_word_bytes w data l j :
  0 <= j < 4 ->
  byte_of (memcpy_word w data l) j = if j <? l then byte_at data j else byte_of w j.
Proof.
  intros Hj. unfold memcpy_word. simpl.
  assert (j = 0 \/ j = 1 \/ j = 2 \/ j = 3) as Hc by lia.
  destruct (Z.ltb_spec 0 l), (Z.ltb_spec 1 l), (Z.ltb_spec 2 l), (Z.ltb_spec 3 l);
    try lia;
    destruct Hc as [-> | [-> | [-> | ->]]];
    rewrite ?byte_of_set_byte by lia; simpl;
    repeat match goal with |- context [?a <? l] => destruct (Z.ltb_spec a l); try lia end;
    try reflexivity; unfold byte_at; simpl; unfold u8; rewrite ?Z.mod_mod by lia; reflexivity.
Qed.

Lemma occ_checksum_range cmd1 cmd2 : 0 <= occ_checksum cmd1 cmd2 < 65536.
Proof. unfold occ_checksum. rewrite sum_bytes_spec. apply Z.mod_pos_bound. lia. Qed.

Lemma lor_disjoint_shifted a b k s :
  0 <= k -> 0 <= s -> 0 <= b < 2 ^ k ->
  Z.lor (a * 2 ^ (k + s)) (Z.shiftl b s) = (a * 2 ^ k + b) * 2 ^ s.
Proof.
  intros Hk Hs Hb.
  rewrite Z.pow_add_r, Z.mul_assoc by lia.
  rewrite <- (Z.shiftl_mul_pow2 (a * 2 ^ k) s) by lia.
  rewrite <- Z.shiftl_lor, lor_disjoint by lia.
  apply Z.shiftl_mul_pow2. lia.
Qed.

Lemma shl32_defined x n : 0 <= n < 32 -> shl32 x n = Ok (u32 (Z.shiftl x n)).
Proof.
  intros Hn. unfold shl32.
  destruct (Z.leb_spec 0 n); [|lia]. by destruct (Z.ltb_spec n 32); [|lia].
Qed.

(** The payload word, for a payload of one or two bytes that [data] holds
    in full: the copied bytes, left-justified. *)
Lemma occ_cmd2_payload_form l data stack :
  1 <= l <= 2 -> l <= Z.of_nat (length data) ->
  occ_cmd2_payload l data stack
  = Ok ((memcpy_word (u32 stack) data l mod 2 ^ (8 * l)) * 2 ^ (32 - 8 * l)).
Proof.
  intros Hl Hd. unfold occ_cmd2_payload. rewrite u16_small by lia.
  destruct (Z.ltb_spec 4 l); [lia|].
  destruct (Z.ltb_spec (Z.of_nat (length data)) l); [lia|]. cbn [orb].
  rewrite shl32_defined by lia. f_equal.
  unfold u32 at 1. rewrite Z.shiftl_mul_pow2 by lia.
  replace ((4 - l) * 8) with (32 - 8 * l) by lia.
  replace (2 ^ 32) with (2 ^ (8 * l) * 2 ^ (32 - 8 * l)).
  - apply Z.mul_mod_distr_r; apply Z.pow_nonzero; lia.
  - rewrite <- Z.pow_add_r by lia. f_equal. lia.
Qed.

Lemma occ_cmd2_form seq type l data stack :
  1 <= l <= 2 -> l <= Z.of_nat (length data) ->
  occ_cmd2 seq type l data stack
  = Ok ((memcpy_word (u32 stack) data l mod 2 ^ (8 * l) * 65536
         + occ_checksum (occ_cmd1 seq type l)
             ((memcpy_word (u32 stack) data l mod 2 ^ (8 * l)) * 2 ^ (32 - 8 * l)))
        * 2 ^ ((2 - l) * 8)).
Proof.
  intros Hl Hd. unfold occ_cmd2. rewrite occ_cmd2_payload_form by lia.
  cbn [mbind res_bind]. rewrite u16_small by lia.
  rewrite shl32_defined by lia. cbn [mbind res_bind]. f_equal.
  set (q := memcpy_word (u32 stack) data l mod 2 ^ (8 * l)).
  pose proof (occ_checksum_range (occ_cmd1 seq type l) (q * 2 ^ (32 - 8 * l))) as Hc.
  set (cs := occ_checksum _ _) in *.
  assert (0 <= q < 2 ^ (8 * l)) as Hq by (apply Z.mod_pos_bound, Z.pow_pos_nonneg; lia).
  assert (u32 (Z.shiftl cs ((2 - l) * 8)) = Z.shiftl cs ((2 - l) * 8)) as ->.
  { unfold u32. apply Z.mod_small. rewrite Z.shiftl_mul_pow2 by lia.
    assert (l = 1 \/ l = 2) as [-> | ->] by lia; simpl; lia. }
  replace (32 - 8 * l) with (16 + (2 - l) * 8) by lia.
  rewrite lor_disjoint_shifted by (change (2 ^ 16) with 65536; lia).
  change (2 ^ 16) with 65536. unfold u32. apply Z.mod_small.
  assert (l = 1 \/ l = 2) as [-> | ->] by lia; simpl in Hq |- *; lia.
Qed.

Lemma occ_checksum_spec cmd1 cmd2 :
  occ_checksum cmd1 cmd2 = frame_byte_sum cmd1 cmd2 mod 65536.
Proof.
  unfold occ_checksum, frame_byte_sum. rewrite !sum_bytes_spec. simpl.
  repeat (rewrite <- ?Z.add_assoc; rewrite Zplus_mod_idemp_l).
  f_equal. lia.
Qed.

Ltac split_length l :=
  match goal with
  | H : 1 <= l <= 2 |- _ =>
      let E := fresh in
      assert (l = 1 \/ l = 2) as E by lia;
      destruct E as [-> | ->]
  end.

Ltac bytes_arith :=
  rewrite ?byte_of_mod by lia; simpl Z.mul; simpl Z.sub; simpl Z.pow;
  Z.div_mod_to_equations; lia.

Lemma embedded_checksum_form l q cs :
  1 <= l <= 2 -> 0 <= cs < 65536 ->
  embedded_checksum l ((q * 65536 + cs) * 2 ^ ((2 - l) * 8)) = cs.
Proof.
  intros Hl Hc. unfold embedded_checksum.
  change 65535 with (Z.ones 16). rewrite Z.land_ones, Z.shiftr_div_pow2 by lia.
  rewrite Z.div_mul by (apply Z.pow_nonzero; lia).
  change (2 ^ 16) with 65536.
  rewrite Z.add_comm, Z.mod_add by lia. apply Z.mod_small. lia.
Qed.

(** Against C2 as stated: a payload length of 0 is "at most 2", but for it
    the encoder shifts the 32-bit word by 32 bits; the shift is undefined
    and no frame, hence no checksum, is defined. *)
Lemma no_frame_without_payload :
  occ_cmd2_payload 0 [] 0x5b7b5a5a = Fault BadShift
  /\ occ_cmd2 0 0 0 [] 0x5b7b5a5a = Fault BadShift
  /\ ~ (exists payload cmd2,
          occ_cmd2_payload 0 [] 0x5b7b5a5a = Ok payload
          /\ occ_cmd2 0 0 0 [] 0x5b7b5a5a = Ok cmd2
          /\ embedded_checksum 0 cmd2 = frame_byte_sum (occ_cmd1 0 0 0) payload mod 65536).
Proof.
  split; [reflexivity|]. split; [reflexivity|].
  intros (payload & cmd2 & Hp & _). discriminate Hp.
Qed.

(** C2, as amended.  For a payload of one or two bytes the encoder builds a
    frame, and the 16-bit field it leaves in word2 is the byte-wise sum,
    modulo 65536, of the eight bytes of word1 and of word2 as it stood
    before the checksum went in; a receiver that sums every byte of the
    frame outside the checksum field finds the same value. *)
Theorem checksum_is_byte_sum seq type l data stack :
  1 <= l <= 2 -> l <= Z.of_nat (length data) ->
  exists payload cmd2,
    occ_cmd2_payload l data stack = Ok payload
    /\ occ_cmd2 seq type l data stack = Ok cmd2
    /\ embedded_checksum l cmd2
       = frame_byte_sum (occ_cmd1 seq type l) payload mod 65536
    /\ decoder_checksum l (occ_cmd1 seq type l) cmd2 = embedded_checksum l cmd2.
Proof.
  intros Hl Hd. eexists _, _.
  split; [by apply occ_cmd2_payload_form|].
  split; [by apply occ_cmd2_form|].
  set (x := memcpy_word (u32 stack) data l).
  set (c1 := occ_cmd1 seq type l).
  pose proof (occ_checksum_range c1 (x mod 2 ^ (8 * l) * 2 ^ (32 - 8 * l))) as Hc.
  rewrite embedded_checksum_form by done.
  split; [apply occ_checksum_spec|].
  etransitivity; [|symmetry; apply occ_checksum_spec].
  set (cs := occ_checksum _ _) in *.
  unfold decoder_checksum, frame_byte_sum.
  pose proof (byte_of_range c1 0). pose proof (byte_of_range c1 1).
  pose proof (byte_of_range c1 2). pose proof (byte_of_range c1 3).
  split_length l; simpl; f_equal.
  all: set (a := byte_of c1 0) in *; set (b := byte_of c1 1) in *;
    set (c := byte_of c1 2) in *; set (d := byte_of c1 3) in *.
  all: bytes_arith.
Qed.

Lemma checksum_is_byte_sum_witness :
  exists payload cmd2,
    occ_cmd2_payload 1 [16] 0 = Ok payload
    /\ occ_cmd2 0 0 1 [16] 0 = Ok cmd2
    /\ embedded_checksum 1 cmd2 = frame_byte_sum (occ_cmd1 0 0 1) payload mod 65536
    /\ decoder_checksum 1 (occ_cmd1 0 0 1) cmd2 = embedded_checksum 1 cmd2.
Proof. apply (checksum_is_byte_sum 0 0 1 [16] 0); simpl; lia. Defined.

(** Against C3 as stated: for the payload length 0 the shift that is to
    left-justify the payload has the count 32, which is undefined for a
    32-bit word; the encoder does not get as far as placing a checksum. *)
Lemma no_placement_without_payload :
  (4 - cpu_to_le16 0) * 8 = 32
  /\ (forall x, shl32 x 32 = Fault BadShift)
  /\ occ_cmd2 0 34 0 [52; 18] 0 = Fault BadShift
  /\ ~ (exists payload cmd2,
          occ_cmd2_payload 0 [52; 18] 0 = Ok payload
          /\ occ_cmd2 0 34 0 [52; 18] 0 = Ok cmd2
          /\ Z.land (Z.shiftr cmd2 ((2 - 0) * 8)) 65535
             = occ_checksum (occ_cmd1 0 34 0) payload).
Proof.
  split; [reflexivity|]. split; [intros x; reflexivity|]. split; [reflexivity|].
  intros (payload & cmd2 & Hp & _). discriminate Hp.
Qed.

(** C3, as amended.  For a payload length of 1 or 2 the frame is defined
    and the checksum is ORed into word2 as a 16-bit field [(2 - length)]
    bytes above the bottom of the word: it fills bytes [2 - length] and
    [3 - length], the payload bytes stay intact in the most significant
    bytes [4 - length ..], and the bytes below the field are zero, so
    checksum and payload never share a byte. *)
Theorem checksum_placement seq type l data stack :
  1 <= l <= 2 -> l <= Z.of_nat (length data) ->
  exists payload cmd2,
    occ_cmd2_payload l data stack = Ok payload
    /\ occ_cmd2 seq type l data stack = Ok cmd2
    /\ Z.land (Z.shiftr cmd2 ((2 - l) * 8)) 65535
       = occ_checksum (occ_cmd1 seq type l) payload
    /\ byte_of cmd2 (2 - l) = occ_checksum (occ_cmd1 seq type l) payload mod 256
    /\ byte_of cmd2 (3 - l) = occ_checksum (occ_cmd1 seq type l) payload / 256
    /\ (forall i, 0 <= i < l -> byte_of cmd2 (4 - l + i) = byte_at data i)
    /\ (forall j, 0 <= j < 2 - l -> byte_of cmd2 j = 0).
Proof.
  intros Hl Hd. eexists _, _.
  split; [by apply occ_cmd2_payload_form|].
  split; [by apply occ_cmd2_form|].
  pose proof (memcpy_word_bytes (u32 stack) data l 0) as H0.
  pose proof (memcpy_word_bytes (u32 stack) data l 1) as H1.
  set (x := memcpy_word (u32 stack) data l) in *.
  pose proof (occ_checksum_range (occ_cmd1 seq type l)
                (x mod 2 ^ (8 * l) * 2 ^ (32 - 8 * l))) as Hc.
  set (cs := occ_checksum _ _) in *.
  split; [by apply (embedded_checksum_form l _ cs)|].
  rewrite !byte_of_mod in H0, H1 by lia.
  repeat split.
  - split_length l; bytes_arith.
  - split_length l; bytes_arith.
  - intros i Hi.
    split_length l; [assert (i = 0) as -> by lia | assert (i = 0 \/ i = 1) as [-> | ->] by lia];
      simpl in H0, H1; rewrite <- ?H0, <- ?H1 by lia; bytes_arith.
  - intros j Hj.
    split_length l; [assert (j = 0) as -> by lia | lia]; bytes_arith.
Qed.

Lemma checksum_placement_witness :
  exists payload cmd2,
    occ_cmd2_payload 2 [52; 18] 0 = Ok payload
    /\ occ_cmd2 0 34 2 [52; 18] 0 = Ok cmd2
    /\ Z.land (Z.shiftr cmd2 ((2 - 2) * 8)) 65535 = occ_checksum (occ_cmd1 0 34 2) payload
    /\ byte_of cmd2 (2 - 2) = occ_checksum (occ_cmd1 0 34 2) payload mod 256
    /\ byte_of cmd2 (3 - 2) = occ_checksum (occ_cmd1 0 34 2) payload / 256
    /\ (forall i, 0 <= i < 2 -> byte_of cmd2 (4 - 2 + i) = byte_at [52; 18] i)
    /\ (forall j, 0 <= j < 2 - 2 -> byte_of cmd2 j = 0).
Proof. apply (checksum_placement 0 34 2 [52; 18] 0); simpl; lia. Defined.

(** The frames the driver sends: the poll command and a power cap of
    0x1234. *)
Example poll_frame :
  (occ_cmd1 0 0 1, occ_cmd2 0 0 1 [16] 0) = (0x00000001, Ok 0x10001100).
Proof. reflexivity. Qed.

Example powercap_frame :
  (occ_cmd1 0 34 2, occ_cmd2 0 34 2 [52; 18] 0) = (0x00220002, Ok 0x1234006A).
Proof. reflexivity. Qed.

(** With a one-byte payload the stack slot of [cmd2] is shifted out. *)
Lemma occ_cmd2_payload_one data stack :
  1 <= Z.of_nat (length data) ->
  occ_cmd2_payload 1 data stack = Ok (byte_at data 0 * 2 ^ 24).
Proof.
  intros Hd. rewrite occ_cmd2_payload_form by lia. do 2 f_equal.
  pose proof (memcpy_word_bytes (u32 stack) data 1 0) as Hb.
  rewrite byte_of_mod in Hb by lia. simpl in Hb.
  rewrite <- Hb by lia. rewrite Z.div_1_r. reflexivity.
Qed.

Lemma occ_cmd2_payload_short l data stack :
  0 <= l <= 2 -> Z.of_nat (length data) < l ->
  occ_cmd2_payload l data stack = Fault OutOfBounds.
Proof.
  intros Hl Hd. unfold occ_cmd2_payload. rewrite u16_small by lia.
  destruct (Z.ltb_spec 4 l); [done|].
  by destruct (Z.ltb_spec (Z.of_nat (length data)) l); [|lia].
Qed.

Lemma poll_frame_stack_independent data stack :
  occ_cmd2 0 0 1 data stack = occ_cmd2 0 0 1 data 0.
Proof.
  unfold occ_cmd2. destruct (Z.le_gt_cases 1 (Z.of_nat (length data))).
  - by rewrite !occ_cmd2_payload_one.
  - by rewrite !occ_cmd2_payload_short by lia.
Qed.

(** ** The command exchange *)

(** Against C1 as stated: on a peer that answers nothing the first register
    write reports [I2C_WRITE_ERROR] (and so does every later one), yet the
    exchange returns 0, the byte the caller's buffer held. *)
Lemma occ_send_cmd_drops_transport_error :
  (occ_putscom dead_0 OCB_STATUS_CONTROL_OR 0x08000000 0).2 = I2C_WRITE_ERROR
  /\ occ_send_cmd dead_0 0 0 1 [16] 0 (replicate 8 0)
     = Ok ({| attempts := 8; ticks := 5000 |}, 0, replicate 8 0).
Proof. split; vm_compute; reflexivity. Qed.

Lemma u8_byte_at data j : u8 (byte_at data j) = byte_at data j.
Proof.
  unfold byte_at. destruct (j <? 0); [done|]. unfold u8. by rewrite Z.mod_mod.
Qed.

Lemma byte_at_lookup (data : list Z) (j : Z) :
  0 <= j -> byte_at data j = u8 (default 0 (data !! Z.to_nat j)).
Proof.
  intros Hj. unfold byte_at. destruct (Z.ltb_spec j 0); [lia|].
  by rewrite nth_lookup.
Qed.

Lemma byte_at_neg (data : list Z) (j : Z) : j < 0 -> byte_at data j = 0.
Proof. intros Hj. unfold byte_at. by destruct (Z.ltb_spec j 0); [|lia]. Qed.

Lemma byte_at_app_l (l1 l2 : list Z) (j : Z) :
  j < Z.of_nat (length l1) -> byte_at (l1 ++ l2) j = byte_at l1 j.
Proof.
  intros Hj. destruct (Z.lt_ge_cases j 0); [by rewrite !byte_at_neg|].
  rewrite !byte_at_lookup by done. rewrite lookup_app_l by lia. done.
Qed.

Lemma byte_at_app_r (l1 l2 : list Z) (j : Z) :
  Z.of_nat (length l1) <= j -> byte_at (l1 ++ l2) j = byte_at l2 (j - Z.of_nat (length l1)).
Proof.
  intros Hj. rewrite !byte_at_lookup by lia. rewrite lookup_app_r by lia.
  do 3 f_equal. lia.
Qed.

(** A store at the start of a buffer that is long enough. *)
Lemma store_bytes_front (data bytes : list Z) :
  Z.of_nat (length bytes) <= Z.of_nat (length data) ->
  store_bytes data 0 bytes = Ok (bytes ++ drop (length bytes) data).
Proof.
  intros Hl. unfold store_bytes.
  destruct (Z.leb_spec (0 + Z.of_nat (length bytes)) (Z.of_nat (length data))); [|lia].
  reflexivity.
Qed.

Section Exchange.
Context {W : Type} `{Platform W}.

Lemma occ_getscomb_defined (w : W) address data offset :
  0 <= offset -> offset + 8 <= Z.of_nat (length data) ->
  exists w' ret data', occ_getscomb w address data offset = Ok (w', ret, data').
Proof.
  intros H0 H8. unfold occ_getscomb.
  destruct (occ_i2c_write w _) as [w1 ret1].
  destruct (negb (u32 ret1 =? 4)); [by eexists _, _, _|].
  destruct (occ_i2c_read w1 8) as [w2 [ret2 buf]].
  destruct (negb (u32 ret2 =? 8)); [by eexists _, _, _|].
  unfold store_bytes. rewrite length_map, length_seqZ.
  change (Z.of_nat (Z.to_nat 8)) with 8.
  destruct (Z.leb_spec 0 offset); [|lia].
  destruct (Z.leb_spec (offset + 8) (Z.of_nat (length data))); [|lia].
  simpl. by eexists _, _, _.
Qed.

(** On an adapter that completes no write, a register write reports
    [I2C_WRITE_ERROR]. *)
Lemma occ_putscom_short_write (w : W) address data0 data1 :
  (forall w buf, buf <> [] -> u32 (i2c_master_send w buf).2 <> Z.of_nat (length buf)) ->
  (occ_putscom w address data0 data1).2 = I2C_WRITE_ERROR.
Proof.
  intros Hshort. unfold occ_putscom, occ_i2c_write.
  pose proof (Hshort w (le32 (u32 (Z.shiftl address 1)) ++ le32 data1 ++ le32 data0)
                ltac:(done)) as Hs.
  destruct (i2c_master_send w _) as [w' ret]. simpl in Hs.
  by destruct (Z.eqb_spec (u32 ret) 12).
Qed.

(** The exchange, once the frame is built: the seven writes, then the
    register read. *)
Lemma occ_send_cmd_unfold (w : W) seq type l data stack resp cmd2 :
  occ_cmd2 seq type l data stack = Ok cmd2 ->
  occ_send_cmd w seq type l data stack resp
  = ('(w', _, resp') ← occ_getscomb
                         (after_writes w (exchange_writes (occ_cmd1 seq type l) cmd2))
                         OCB_DATA resp 0;
     Ok (w', byte_at resp' 2, resp')).
Proof.
  intros Hf. unfold occ_send_cmd. rewrite Hf. cbn [mbind res_bind].
  unfold after_writes, exchange_writes. cbn [fold_left].
  repeat match goal with
         | |- context [occ_putscom ?w ?a ?b ?c] =>
             destruct (occ_putscom w a b c) as [? ?]; cbn [fst]
         end.
  reflexivity.
Qed.



(** C1, as amended.  The exchange performs its seven register writes
    whatever each of them reports, then the register read, and returns byte
    2 of the response buffer.  If the address write of the read is not
    reported as 4 bytes, or the read not as 8 bytes, the caller's buffer is
    left as it was and the value returned is the byte it held; otherwise
    the eight bytes received are stored, reversed, at the start of the
    buffer and the value returned is the status byte of the reply.  No
    value reported by a register operation reaches the caller.  The poll
    path treats a non-zero status byte as a rejection ([-EINVAL]). *)
Theorem occ_send_cmd_returns_status_byte (w : W) :
  (forall seq type l data stack resp cmd2 w7 w8 r1 w9 r2 buf,
      occ_cmd2 seq type l data stack = Ok cmd2 ->
      8 <= Z.of_nat (length resp) ->
      after_writes w (exchange_writes (occ_cmd1 seq type l) cmd2) = w7 ->
      i2c_master_send w7 (le32 (u32 (Z.shiftl OCB_DATA 1))) = (w8, r1) ->
      i2c_master_recv w8 8 = (w9, (r2, buf)) ->
      occ_send_cmd w seq type l data stack resp
      = if negb (u32 r1 =? 4) then Ok (w8, byte_at resp 2, resp)
        else if negb (u32 r2 =? 8) then Ok (w9, byte_at resp 2, resp)
        else Ok (w9, byte_at buf 5,
                 map (fun i => byte_at buf (7 - i)) (seqZ 0 8) ++ drop 8 resp))
  /\ (forall occ_resp h w' st buf,
        occ_send_cmd w 0 0 1 [16] 0 (replicate (Z.to_nat OCC_DATA_MAX) 0) = Ok (w', st, buf) ->
        st <> 0 ->
        occ_get_all w occ_resp h = Ok (w', - EINVAL, occ_resp, h)).
Proof.
  split.
  - intros seq type l data stack resp cmd2 w7 w8 r1 w9 r2 buf Hf Hlen <- Hs Hr.
    rewrite (occ_send_cmd_unfold _ _ _ _ _ _ _ _ Hf).
    unfold occ_getscomb, occ_i2c_write, occ_i2c_read. rewrite Hs.
    destruct (negb (u32 r1 =? 4)); [done|]. rewrite Hr.
    destruct (negb (u32 r2 =? 8)); [done|].
    rewrite store_bytes_front by (rewrite length_map, length_seqZ; lia).
    cbn [mbind res_bind]. rewrite length_map, length_seqZ.
    change (Z.to_nat 8) with 8%nat. do 3 f_equal.
    rewrite byte_at_app_l by (rewrite length_map, length_seqZ; lia).
    change (seqZ 0 8) with [0; 1; 2; 3; 4; 5; 6; 7]. cbn [map].
    unfold byte_at at 1. change (2 <? 0) with false. change (Z.to_nat 2) with 2%nat.
    cbn [nth]. change (7 - 2) with 5. apply u8_byte_at.
  - intros occ_resp h w' st buf Hcmd Hst. unfold occ_get_all. rewrite Hcmd. simpl.
    by destruct (Z.eqb_spec st 0).
Qed.
End Exchange.

(** A peer that answers nothing: the caller's byte comes back.  A peer that
    answers: the status byte of its reply (here 225) comes back, and the
    poll is rejected. *)
Lemma occ_send_cmd_returns_status_byte_witness :
  occ_send_cmd dead_0 0 34 2 [1; 2] 0 (replicate 8 7)
  = Ok ({| attempts := 8; ticks := 5000 |}, 7, replicate 8 7)
  /\ occ_send_cmd {| reply := [0; 0; 225]; sent := 0; clock := 0 |} 0 0 1 [16] 0
       (replicate 8 7)
     = Ok ({| reply := []; sent := 8; clock := 0 |}, 225, [0; 0; 225; 0; 0; 0; 0; 0])
  /\ occ_get_all {| reply := [0; 0; 225]; sent := 0; clock := 0 |} fresh_response (empty_heap 8)
     = Ok ({| reply := []; sent := 8; clock := 0 |}, - EINVAL, fresh_response, empty_heap 8).
Proof.
  assert ((225 : Z) <> 0) as H225 by lia.
  assert (8 <= Z.of_nat (length (replicate 8 (7 : Z)))) as Hlen by (simpl; lia).
  split; [|split].
  - exact (proj1 (occ_send_cmd_returns_status_byte dead_0) 0 34 2 [1; 2] 0 (replicate 8 7)
             _ _ _ _ _ _ _ eq_refl Hlen eq_refl eq_refl eq_refl).
  - exact (proj1 (occ_send_cmd_returns_status_byte
                    {| reply := [0; 0; 225]; sent := 0; clock := 0 |})
             0 0 1 [16] 0 (replicate 8 7) _ _ _ _ _ _ _ eq_refl Hlen eq_refl eq_refl eq_refl).
  - assert (occ_send_cmd {| reply := [0; 0; 225]; sent := 0; clock := 0 |} 0 0 1 [16] 0
              (replicate (Z.to_nat OCC_DATA_MAX) 0)
            = Ok ({| reply := []; sent := 8; clock := 0 |}, 225,
                  [0; 0; 225; 0; 0; 0; 0; 0] ++ replicate 4088 0)) as Hcmd
      by (vm_compute; reflexivity).
    exact (proj2 (occ_send_cmd_returns_status_byte
                    {| reply := [0; 0; 225]; sent := 0; clock := 0 |})
             fresh_response (empty_heap 8) _ _ _ Hcmd H225).
Defined.

(** ** The refresh reads *)

Lemma elem_of_read_offsets n i :
  i ∈ read_offsets n <-> exists k, 0 <= k /\ i = 8 + 8 * k /\ i < n + 8.
Proof.
  unfold read_offsets. rewrite list_elem_of_fmap. split.
  - intros (k & -> & Hk%elem_of_seqZ). exists k. repeat split; [lia|].
    Z.div_mod_to_equations. lia.
  - intros (k & Hk & -> & Hlt). exists k. split; [done|].
    apply elem_of_seqZ. split; [lia|]. Z.div_mod_to_equations. lia.
Qed.

(** Lengths up to 4088 keep every read inside the buffer; every accepted
    length above that reaches offset 4096. *)
Lemma read_offsets_inside n i :
  n <= 4088 -> i ∈ read_offsets n -> 8 <= i /\ i + 8 <= OCC_DATA_MAX.
Proof.
  intros Hn (k & Hk & -> & Hlt)%elem_of_read_offsets. unfold OCC_DATA_MAX. lia.
Qed.

Lemma read_offsets_overrun n :
  4088 < n -> 4096 ∈ read_offsets n.
Proof. intros Hn. apply elem_of_read_offsets. exists 511. lia. Qed.

(** C4 does not hold of the code.  A data length of 4096 passes both
    checks of [occ_get_all]; the read loop then runs up to offset 4096 and
    the register read there stores at [occ_data[4096 .. 4103]], past the end
    of the 4096-byte buffer. *)
Theorem refresh_overruns_buffer :
  get_occdata_length (reply_prefix 4096 1) = 4096
  /\ (4096 >? OCC_DATA_MAX) = false /\ (4096 <=? 0) = false
  /\ last (read_offsets 4096) = Some 4096
  /\ occ_get_all sim_4096 fresh_response (empty_heap 8) = Fault OutOfBounds.
Proof. vm_compute. repeat split. Qed.

(** ** Teardown *)

Lemma released_nil h : released [] h h.
Proof.
  split; [|done]. intros q. rewrite bool_decide_eq_false_2; [done|]. apply not_elem_of_nil.
Qed.

Lemma released_app P Q h1 h2 h3 :
  released P h1 h2 -> released Q h2 h3 -> released (P ++ Q) h1 h3.
Proof.
  intros (H1 & ? & ?) (H2 & ? & ?). split; [|split; congruence].
  intros q. rewrite H2, H1.
  repeat case_bool_decide; try done; set_solver.
Qed.

Lemma kfree_null h : kfree NULL h = Ok h.
Proof. reflexivity. Qed.

Lemma kfree_live p h :
  p <> NULL -> is_Some (objs h !! p) ->
  exists h', kfree p h = Ok h' /\ released [p] h h'.
Proof.
  intros Hp [o Ho]. unfold kfree.
  destruct (Z.eqb_spec p NULL) as [|_]; [done|]. rewrite Ho.
  eexists. split; [done|]. split; [|done]. simpl. intros q.
  case_bool_decide as Hq.
  - apply list_elem_of_singleton in Hq as ->. apply lookup_delete_eq.
  - apply lookup_delete_ne. set_solver.
Qed.

(** Freeing one member of a block: nothing for NULL, a release otherwise. *)
Lemma kfree_member p h :
  (forall q, q ∈ non_null p -> is_Some (objs h !! q)) ->
  exists h', kfree p h = Ok h' /\ released (non_null p) h h'.
Proof.
  intros Hl. unfold non_null in *. destruct (Z.eqb_spec p NULL) as [->|Hp].
  - exists h. split; [done|]. apply released_nil.
  - apply kfree_live; [done|]. apply Hl. set_solver.
Qed.

Lemma released_keeps P h h' q :
  released P h h' -> q ∉ P -> objs h' !! q = objs h !! q.
Proof. intros (Hr & _) Hq. rewrite Hr. by rewrite bool_decide_eq_false_2. Qed.

Lemma load_block_ok h pb bs i b :
  pb <> NULL -> objs h !! pb = Some (Blocks bs) -> 0 <= i ->
  bs !! Z.to_nat i = Some b -> load_block h pb i = Ok b.
Proof.
  intros Hp Hh Hi Hb. unfold load_block, deref.
  destruct (Z.eqb_spec pb NULL); [done|]. rewrite Hh. simpl.
  unfold index. destruct (Z.ltb_spec i 0); [lia|]. by rewrite Hb.
Qed.

Lemma free_block_ok p h bs i b :
  blocks p <> NULL -> objs h !! blocks p = Some (Blocks bs) -> 0 <= i ->
  bs !! Z.to_nat i = Some b ->
  NoDup (blocks p :: block_ptrs b) ->
  (forall q, q ∈ block_ptrs b -> is_Some (objs h !! q)) ->
  exists h', free_block p i h = Ok h' /\ released (block_ptrs b) h h'.
Proof.
  intros Hp Hh Hi Hb Hnd Hlive. unfold free_block, block_ptrs in *.
  apply NoDup_cons in Hnd as [Hpb Hnd].
  apply NoDup_app in Hnd as (_ & Hs & Hnd).
  apply NoDup_app in Hnd as (_ & Hpc & _).
  rewrite (load_block_ok h _ bs i b) by done. simpl.
  destruct (kfree_member (sensor b) h) as (h1 & -> & R1); [set_solver|]. simpl.
  assert (objs h1 !! blocks p = Some (Blocks bs)) as Hh1.
  { rewrite (released_keeps _ _ _ _ R1); [done|set_solver]. }
  rewrite (load_block_ok h1 _ bs i b) by done. simpl.
  destruct (kfree_member (power b) h1) as (h2 & -> & R2).
  { intros q Hq. rewrite (released_keeps _ _ _ _ R1); [set_solver|].
    intros Hq'. eapply Hs; [done|]. set_solver. }
  simpl.
  assert (objs h2 !! blocks p = Some (Blocks bs)) as Hh2.
  { rewrite (released_keeps _ _ _ _ R2); [done|set_solver]. }
  rewrite (load_block_ok h2 _ bs i b) by done. simpl.
  destruct (kfree_member (caps b) h2) as (h3 & -> & R3).
  { intros q Hq. rewrite (released_keeps _ _ _ _ R2), (released_keeps _ _ _ _ R1).
    - set_solver.
    - intros Hq'. eapply Hs; [done|]. set_solver.
    - intros Hq'. eapply Hpc; done. }
  exists h3. split; [done|].
  eapply released_app; [done|]. eapply released_app; done.
Qed.

(** The loop of [deinit_occ_resp_buf] over blocks [k .. k + length l - 1],
    [l] being that slice of the block list. *)
Lemma free_loop_ok p bs l : forall k h,
  blocks p <> NULL -> objs h !! blocks p = Some (Blocks bs) ->
  (forall j b, l !! j = Some b -> bs !! (k + j)%nat = Some b) ->
  NoDup (blocks p :: owned_ptrs l) ->
  (forall q, q ∈ owned_ptrs l -> is_Some (objs h !! q)) ->
  exists h', for_each (free_block p) (seqZ (Z.of_nat k) (Z.of_nat (length l))) h = Ok h'
             /\ released (owned_ptrs l) h h'.
Proof.
  induction l as [|b l IH]; intros k h Hp Hh Hbs Hnd Hlive.
  - exists h. split; [done|]. apply released_nil.
  - change (length (b :: l)) with (S (length l)).
    rewrite Nat2Z.inj_succ, seqZ_cons by lia. simpl.
    unfold owned_ptrs in *. simpl in Hnd, Hlive.
    apply NoDup_cons in Hnd as [Hpb Hnd].
    apply NoDup_app in Hnd as (Hb & Hdis & Hl).
    destruct (free_block_ok p h bs (Z.of_nat k) b) as (h1 & -> & R1); try done.
    { lia. }
    { rewrite Nat2Z.id. specialize (Hbs 0%nat b eq_refl). by rewrite Nat.add_0_r in Hbs. }
    { apply NoDup_cons. split; [set_solver|done]. }
    { set_solver. }
    simpl. replace (Z.succ (Z.of_nat k)) with (Z.of_nat (S k)) by lia.
    replace (Z.pred (Z.succ (Z.of_nat (length l)))) with (Z.of_nat (length l)) by lia.
    destruct (IH (S k) h1) as (h2 & -> & R2); try done.
    { rewrite (released_keeps _ _ _ _ R1); [done|set_solver]. }
    { intros j b' Hj. specialize (Hbs (S j) b' Hj).
      by replace (S k + j)%nat with (k + S j)%nat by lia. }
    { apply NoDup_cons. split; [set_solver|done]. }
    { intros q Hq. rewrite (released_keeps _ _ _ _ R1); [set_solver|].
      intros Hq'. eapply Hdis; done. }
    exists h2. split; [done|]. eapply released_app; done.
Qed.

Lemma owns_storage_inv resp h :
  owns_storage resp h = true ->
  exists bs, objs h !! blocks resp = Some (Blocks bs)
    /\ blocks resp <> NULL
    /\ 0 <= sensor_block_num (header resp) <= Z.of_nat (length bs)
    /\ NoDup (blocks resp :: owned_ptrs (take (Z.to_nat (sensor_block_num (header resp))) bs))
    /\ (forall q, q ∈ owned_ptrs (take (Z.to_nat (sensor_block_num (header resp))) bs) ->
          is_Some (objs h !! q)).
Proof.
  unfold owns_storage. destruct (objs h !! blocks resp) as [[bs| | |]|]; try done.
  intros Ho. exists bs.
  repeat (apply andb_prop in Ho as [Ho ?]).
  split; [done|]. split; [by destruct (Z.eqb_spec (blocks resp) NULL)|].
  split; [lia|]. split; [by apply bool_decide_eq_true in H0|].
  intros q Hq. rewrite forallb_forall in H. apply list_elem_of_In in Hq.
  specialize (H _ Hq). unfold live in H. by apply bool_decide_eq_true in H.
Qed.

(** Teardown of a state that owns its storage: defined, leaves the reset
    state, and releases the block list and every record array. *)
Lemma deinit_owned resp h :
  owns_storage resp h = true ->
  exists bs h',
    objs h !! blocks resp = Some (Blocks bs)
    /\ deinit_occ_resp_buf resp h = Ok (reset_response, h')
    /\ released (owned_ptrs (take (Z.to_nat (sensor_block_num (header resp))) bs)
                 ++ [blocks resp]) h h'.
Proof.
  intros (bs & Hh & Hp & Hn & Hnd & Hlive)%owns_storage_inv.
  set (n := sensor_block_num (header resp)) in *.
  unfold deinit_occ_resp_buf. destruct (Z.eqb_spec (blocks resp) NULL); [done|].
  destruct (free_loop_ok resp bs (take (Z.to_nat n) bs) 0%nat h) as (h1 & Hloop & R1);
    try done.
  { intros j b Hj. by apply lookup_take_Some in Hj as [? _]. }
  rewrite length_take, Nat.min_l, Z2Nat.id in Hloop by lia.
  change (Z.of_nat 0) with 0 in Hloop. unfold n in Hloop. rewrite Hloop. simpl.
  destruct (kfree_live (blocks resp) h1) as (h2 & -> & R2); [done| |].
  { rewrite (released_keeps _ _ _ _ R1); [done|].
    apply NoDup_cons in Hnd as [? _]. done. }
  exists bs, h2. split; [done|]. split; [done|]. eapply released_app; done.
Qed.

(** C10.  Teardown of a state whose block list pointer is NULL returns at
    once and leaves the state and the heap as they were: no index is set to
    -1, the header is not cleared.  The reset happens only with a block list
    present: the state then becomes [reset_response] and the block list is
    freed, and for a state that owns its storage the teardown is defined. *)
Theorem teardown_needs_block_list (p : occ_response) (h : heap) :
  (blocks p = NULL -> deinit_occ_resp_buf p h = Ok (p, h))
  /\ (blocks p <> NULL -> forall p' h',
        deinit_occ_resp_buf p h = Ok (p', h') ->
        p' = reset_response /\ live h' (blocks p) = false)
  /\ (owns_storage p h = true ->
        exists h', deinit_occ_resp_buf p h = Ok (reset_response, h')).
Proof.
  split; [|split].
  - intros Hnull. unfold deinit_occ_resp_buf. by rewrite Hnull.
  - intros Hp p' h'. unfold deinit_occ_resp_buf.
    destruct (Z.eqb_spec (blocks p) NULL); [done|].
    destruct (for_each _ _ _) as [h1|]; [simpl|done].
    unfold kfree. destruct (Z.eqb_spec (blocks p) NULL); [done|].
    destruct (objs h1 !! blocks p); [simpl|done].
    intros [= <- <-]. split; [done|].
    unfold live. simpl. apply bool_decide_eq_false. rewrite lookup_delete_eq.
    by intros [? ?].
  - intros (bs & h' & _ & -> & _)%deinit_owned. by exists h'.
Qed.

(** The state the probe leaves (all zero, indices 0 rather than -1) is
    untouched; the snapshot of two frequency records is reset. *)
Lemma teardown_needs_block_list_witness :
  deinit_occ_resp_buf zero_response (empty_heap 8) = Ok (zero_response, empty_heap 8)
  /\ (forall p' h',
        deinit_occ_resp_buf snapshot_freq2.1 snapshot_freq2.2 = Ok (p', h') ->
        p' = reset_response /\ live h' (blocks snapshot_freq2.1) = false)
  /\ exists h', deinit_occ_resp_buf snapshot_freq2.1 snapshot_freq2.2
                = Ok (reset_response, h').
Proof.
  split; [|split].
  - apply (proj1 (teardown_needs_block_list zero_response (empty_heap 8))). reflexivity.
  - apply (proj1 (proj2 (teardown_needs_block_list snapshot_freq2.1 snapshot_freq2.2))).
    vm_compute. discriminate.
  - apply (proj2 (proj2 (teardown_needs_block_list snapshot_freq2.1 snapshot_freq2.2))).
    vm_compute. reflexivity.
Defined.

(** ** The response parser *)

Lemma strncmp_SENSOR (l : list Z) :
  length l = 6%nat -> strncmp l str_SENSOR 6 = 0 <-> l = str_SENSOR.
Proof.
  intros Hl.
  destruct l as [|a [|b [|c [|d [|e [|f [|]]]]]]]; try discriminate. clear Hl.
  unfold str_SENSOR. simpl.
  destruct (Z.eqb_spec a 83) as [->|]; simpl; [|split; [destruct (a <? 83); done|congruence]].
  destruct (Z.eqb_spec b 69) as [->|]; simpl; [|split; [destruct (b <? 69); done|congruence]].
  destruct (Z.eqb_spec c 78) as [->|]; simpl; [|split; [destruct (c <? 78); done|congruence]].
  destruct (Z.eqb_spec d 83) as [->|]; simpl; [|split; [destruct (d <? 83); done|congruence]].
  destruct (Z.eqb_spec e 79) as [->|]; simpl; [|split; [destruct (e <? 79); done|congruence]].
  destruct (Z.eqb_spec f 82) as [->|]; simpl; [|split; [destruct (f <? 82); done|congruence]].
  done.
Qed.

Lemma length_bytes_at data off n : 0 <= n -> length (bytes_at data off n) = Z.to_nat n.
Proof. intros. unfold bytes_at. by rewrite length_map, length_seqZ. Qed.

(** C5.  Whenever the six bytes at offset 37 are not "SENSOR", or the block
    count at offset 43 is zero, the parse is the teardown of the previous
    state followed by [return -1], whatever else the buffer holds: the two
    checks come first, in that order, and no block is decoded.  From a state
    without a block list the result is -1 with state and heap untouched;
    from a state that owns its storage it is -1 with the state reset. *)
Theorem parse_rejects_malformed (data : list Z) (resp : occ_response) (h : heap) :
  bytes_at data SENSOR_STR_OFFSET 6 <> str_SENSOR
  \/ byte_at data SENSOR_BLOCK_NUM_OFFSET = 0 ->
  parse_occ_response data resp h
  = ('(resp, h) ← deinit_occ_resp_buf resp h; Ok (-1, resp, h))
  /\ (blocks resp = NULL -> parse_occ_response data resp h = Ok (-1, resp, h))
  /\ (owns_storage resp h = true ->
      exists h', parse_occ_response data resp h = Ok (-1, reset_response, h')).
Proof.
  intros Hbad.
  assert (parse_occ_response data resp h
          = ('(resp, h) ← deinit_occ_resp_buf resp h; Ok (-1, resp, h))) as Heq.
  { unfold parse_occ_response.
    destruct (Z.eqb_spec (strncmp (bytes_at data SENSOR_STR_OFFSET 6) str_SENSOR 6) 0)
      as [Hsig|]; [|done]. simpl.
    apply strncmp_SENSOR in Hsig; [|by rewrite length_bytes_at].
    destruct Hbad as [? | ->]; done. }
  split; [done|]. rewrite Heq. split.
  - intros Hnull. unfold deinit_occ_resp_buf. by rewrite Hnull.
  - intros (bs & h' & _ & -> & _)%deinit_owned. by exists h'.
Qed.

Lemma parse_rejects_malformed_witness :
  parse_occ_response (replicate 64 0) fresh_response (empty_heap 8)
  = Ok (-1, fresh_response, empty_heap 8)
  /\ exists h', parse_occ_response (reply_prefix 64 0) snapshot_freq2.1 snapshot_freq2.2
                = Ok (-1, reset_response, h').
Proof.
  split.
  - assert (bytes_at (replicate 64 0) SENSOR_STR_OFFSET 6 <> str_SENSOR) as Hsig
      by (vm_compute; discriminate).
    apply (proj1 (proj2 (parse_rejects_malformed (replicate 64 0) fresh_response
                           (empty_heap 8) (or_introl Hsig)))).
    reflexivity.
  - assert (byte_at (reply_prefix 64 0) SENSOR_BLOCK_NUM_OFFSET = 0) as Hnum
      by (vm_compute; reflexivity).
    apply (proj2 (proj2 (parse_rejects_malformed (reply_prefix 64 0) snapshot_freq2.1
                           snapshot_freq2.2 (or_intror Hnum)))).
    vm_compute. reflexivity.
Defined.

Lemma run_turns_app data bs1 : forall bs2 dnum resp h,
  run_turns data (bs1 ++ bs2) dnum resp h
  = (r ← run_turns data bs1 dnum resp h;
     match r with
     | Next dnum resp h => run_turns data bs2 dnum resp h
     | GotoErr ret resp h => Ok (GotoErr ret resp h)
     end).
Proof.
  induction bs1 as [|b bs1 IH]; intros bs2 dnum resp h; [done|].
  simpl. destruct (parse_block data b dnum resp h) as [[d r h'|ret r h']|f]; simpl; [|done..].
  apply IH.
Qed.

Lemma in_buffer_ok i n : 0 <= i -> i + n <= OCC_DATA_MAX -> in_buffer i n = Ok tt.
Proof.
  intros Hi Hn. unfold in_buffer.
  destruct (Z.leb_spec 0 i); [|lia].
  by destruct (Z.leb_spec (i + n) OCC_DATA_MAX); [|lia].
Qed.

Lemma in_buffer_fault i n : i < 0 \/ OCC_DATA_MAX < i + n -> in_buffer i n = Fault OutOfBounds.
Proof.
  intros Hi. unfold in_buffer.
  destruct (Z.leb_spec 0 i); [|done].
  by destruct (Z.leb_spec (i + n) OCC_DATA_MAX); [lia|].
Qed.

Lemma parse_block_unsupported data b dnum resp h :
  0 <= dnum -> dnum + 8 <= OCC_DATA_MAX ->
  sensor_t_of_tag (strncpy (bytes_at data dnum 4) 4) = None ->
  parse_block data b dnum resp h = Ok (GotoErr (-1) resp h).
Proof.
  intros H0 H8 Htag. unfold parse_block. rewrite in_buffer_ok by done.
  cbn [mbind res_bind]. by rewrite Htag.
Qed.

(** An unsupported tag met in a consistent state.  Let the loop have run
    through blocks [0 .. k-1]; if block [k] lies inside the buffer and
    carries a tag that is none of "FREQ", "TEMP",
    "POWR", "CAPS", the whole parse is the teardown of the state reached
    there followed by [return -1].  When that state owns its storage the
    teardown is defined and nothing of the snapshot is kept: the state is
    [reset_response] (no block list, the four indices -1) and the block
    list and every record array the state held are freed. *)
Lemma unsupported_type_teardown (data : list Z) (resp : occ_response) (h : heap)
    (resp0 : occ_response) (h0 : heap) (k dnum : Z) (resp_k : occ_response) (h_k : heap) :
  strncmp (bytes_at data SENSOR_STR_OFFSET 6) str_SENSOR 6 = 0 ->
  byte_at data SENSOR_BLOCK_NUM_OFFSET <> 0 ->
  renew_block_list (byte_at data SENSOR_BLOCK_NUM_OFFSET) resp h = Ok (resp0, h0, false) ->
  0 <= k < byte_at data SENSOR_BLOCK_NUM_OFFSET ->
  run_turns data (seqZ 0 k) SENSOR_BLOCK_OFFSET (set_header resp0 (read_header data)) h0
  = Ok (Next dnum resp_k h_k) ->
  0 <= dnum -> dnum + 8 <= OCC_DATA_MAX ->
  sensor_t_of_tag (strncpy (bytes_at data dnum 4) 4) = None ->
  parse_occ_response data resp h
  = ('(resp', h') ← deinit_occ_resp_buf resp_k h_k; Ok (-1, resp', h'))
  /\ (owns_storage resp_k h_k = true ->
      exists bs h',
        objs h_k !! blocks resp_k = Some (Blocks bs)
        /\ parse_occ_response data resp h = Ok (-1, reset_response, h')
        /\ released (owned_ptrs (take (Z.to_nat (sensor_block_num (header resp_k))) bs)
                     ++ [blocks resp_k]) h_k h').
Proof.
  intros Hsig Hn Hlist Hk Hrun H0 H8 Htag.
  assert (parse_occ_response data resp h
          = ('(resp', h') ← deinit_occ_resp_buf resp_k h_k; Ok (-1, resp', h'))) as Heq.
  { unfold parse_occ_response. rewrite Hsig. simpl.
    destruct (Z.eqb_spec (byte_at data SENSOR_BLOCK_NUM_OFFSET) 0) as [|_]; [done|].
    rewrite Hlist. simpl. unfold parse_body, parse_blocks.
    set (n := byte_at data SENSOR_BLOCK_NUM_OFFSET) in *.
    replace n with (k + (n - k)) by lia.
    rewrite seqZ_app by lia. rewrite run_turns_app, Hrun. simpl.
    rewrite seqZ_cons by lia. simpl.
    by rewrite parse_block_unsupported. }
  split; [done|]. intros Hown.
  destruct (deinit_owned _ _ Hown) as (bs & h' & Hbs & Hde & Hrel).
  exists bs, h'. split; [done|]. split; [|done].
  rewrite Heq. by rewrite Hde.
Qed.

(** A FREQ block with two records, then a block tagged "XYZZ": the parse
    fails and both the block list (address 1) and the frequency records
    (address 2) are gone. *)
Example unsupported_after_one_block :
  exists h',
    parse_occ_response reply_xyzz fresh_response (empty_heap 8) = Ok (-1, reset_response, h')
    /\ objs h' !! 1 = None /\ objs h' !! 2 = None.
Proof. eexists. repeat split; vm_compute; reflexivity. Qed.

(** C6 does not hold of the code.  The reply carries three blocks: FREQ
    with two records, FREQ with a record count of 0, and a block tagged
    "XYZZ".  The second block makes [occ_renew_sensor] free the array of the
    first (address 2) while block 0 keeps the pointer and [freq_block_id]
    its value, so the state reached at the third block no longer owns its
    storage; the teardown that the unsupported tag triggers frees the array
    a second time.  The same happens when the second block is a FREQ block
    with a different record count: the array moves to block 1 and block 0
    keeps the pointer to the freed one. *)
Theorem unsupported_type_frees_twice :
  (exists resp0 h0 dnum resp2 h2,
      renew_block_list 3 fresh_response (empty_heap 8) = Ok (resp0, h0, false)
      /\ run_turns reply_retire_xyzz (seqZ 0 2) SENSOR_BLOCK_OFFSET
           (set_header resp0 (read_header reply_retire_xyzz)) h0
         = Ok (Next dnum resp2 h2)
      /\ sensor_t_of_tag (strncpy (bytes_at reply_retire_xyzz dnum 4) 4) = None
      /\ occ_get_sensor_by_type resp2 h2 freq = Ok 2
      /\ live h2 2 = false
      /\ owns_storage resp2 h2 = false
      /\ deinit_occ_resp_buf resp2 h2 = Fault DoubleFree)
  /\ parse_occ_response reply_retire_xyzz fresh_response (empty_heap 8) = Fault DoubleFree
  /\ parse_occ_response reply_twice_xyzz fresh_response (empty_heap 8) = Fault DoubleFree.
Proof.
  split; [|split; vm_compute; reflexivity].
  eexists _, _, _, _, _. split; [vm_compute; reflexivity|].
  split; [vm_compute; reflexivity|]. vm_compute. repeat split.
Qed.

(** ** The sensor storage manager *)

Lemma array_of_set_array t b p : array_of t (set_array t b p) = p.
Proof. by destruct t. Qed.

Lemma renew_keeps resp h len num t block sensor b :
  num <> 0 -> len <> 0 ->
  occ_get_sensor_by_type resp h t = Ok sensor ->
  sensor <> NULL ->
  load_block h (blocks resp) (block_id resp t) = Ok b ->
  num_of_sensors b = num ->
  occ_renew_sensor resp h len num t block = Ok (0, resp, h).
Proof.
  intros Hnum Hlen Hget Hs Hb Hcount. unfold occ_renew_sensor. rewrite Hget. simpl.
  destruct (Z.eqb_spec num 0) as [|_]; [done|].
  destruct (Z.eqb_spec len 0) as [|_]; [done|]. simpl.
  destruct (Z.eqb_spec sensor NULL) as [|_]; [done|].
  rewrite Hb. simpl. rewrite Hcount, Z.eqb_refl. done.
Qed.

Lemma renew_allocates resp h len num t block sensor bs :
  num <> 0 -> len <> 0 ->
  occ_get_sensor_by_type resp h t = Ok sensor ->
  (sensor = NULL
   \/ exists b, load_block h (blocks resp) (block_id resp t) = Ok b
                /\ num_of_sensors b <> num) ->
  blocks resp <> NULL ->
  objs h !! blocks resp = Some (Blocks bs) ->
  0 <= block < Z.of_nat (length bs) ->
  sensor <> blocks resp ->
  (sensor <> NULL -> is_Some (objs h !! sensor)) ->
  quota h <> 0%nat ->
  below_brk h ->
  exists p h' blk,
    occ_renew_sensor resp h len num t block = Ok (0, resp, h')
    /\ p <> NULL /\ objs h !! p = None
    /\ objs h' !! p = Some (zero_array t num)
    /\ (sensor <> NULL -> objs h' !! sensor = None)
    /\ load_block h' (blocks resp) block = Ok blk
    /\ array_of t blk = p.
Proof.
  intros Hnum Hlen Hget Hrenew Hp Hbs Hblock Hne Hlive Hq Hbrk.
  unfold occ_renew_sensor. rewrite Hget. simpl.
  destruct (Z.eqb_spec num 0) as [|_]; [done|].
  destruct (Z.eqb_spec len 0) as [|_]; [done|]. simpl.
  assert ((if sensor =? NULL then Ok true
           else b ← load_block h (blocks resp) (block_id resp t);
                Ok (negb (num =? num_of_sensors b))) = Ok true) as ->.
  { destruct (Z.eqb_spec sensor NULL) as [|Hs]; [done|].
    destruct Hrenew as [|(b & -> & Hc)]; [done|]. simpl.
    destruct (Z.eqb_spec num (num_of_sensors b)); [congruence|done]. }
  simpl.
  assert (exists h1, kfree sensor h = Ok h1 /\ released (non_null sensor) h h1)
    as (h1 & -> & R1).
  { apply kfree_member. unfold non_null. intros q.
    destruct (Z.eqb_spec sensor NULL); [set_solver|].
    intros ->%list_elem_of_singleton. by apply Hlive. }
  simpl. destruct R1 as (R1 & Hbrk1 & Hq1).
  unfold kcalloc. rewrite Hq1. destruct (quota h) as [|q] eqn:Eq; [done|].
  rewrite Hbrk1. set (p := Z.max 1 (brk h)).
  assert (objs h !! p = None) as Hfresh.
  { destruct (objs h !! p) as [o|] eqn:E; [|done].
    apply Hbrk in E. simpl in E. lia. }
  assert (p <> blocks resp) as Hpb.
  { intros E. cut (Some (Blocks bs) = None); [discriminate|].
    rewrite <- Hbs, <- Hfresh. by rewrite E. }
  assert (objs h1 !! blocks resp = Some (Blocks bs)) as Hbs1.
  { rewrite R1, bool_decide_eq_false_2; [done|].
    unfold non_null. destruct (Z.eqb_spec sensor NULL); set_solver. }
  destruct (lookup_lt_is_Some_2 bs (Z.to_nat block)) as [blk Hblk]; [lia|].
  set (h2 := {| objs := <[p:=zero_array t num]> (objs h1); brk := p + 1; quota := q |}).
  assert (load_block h2 (blocks resp) block = Ok blk) as ->.
  { apply (load_block_ok _ _ bs); [done| |lia|done].
    simpl. by rewrite lookup_insert_ne. }
  simpl. unfold store_block, deref.
  destruct (Z.eqb_spec (blocks resp) NULL) as [|_]; [done|].
  simpl. rewrite lookup_insert_ne, Hbs1 by done. simpl.
  unfold update.
  destruct (Z.leb_spec 0 block); [|lia].
  destruct (Z.ltb_spec block (Z.of_nat (length bs))); [|lia]. simpl.
  destruct (Z.eqb_spec p NULL) as [Hp0|_]; [unfold p, NULL in Hp0; lia|].
  eexists p, _, (set_array t blk p). split; [reflexivity|].
  split; [unfold p, NULL; lia|]. split; [done|].
  split; [simpl; rewrite lookup_insert_ne, lookup_insert_eq by done; done|].
  split.
  { intros Hs. simpl. rewrite !lookup_insert_ne.
    - rewrite R1, bool_decide_eq_true_2; [done|].
      unfold non_null. destruct (Z.eqb_spec sensor NULL); set_solver.
    - intros E. destruct (Hlive Hs) as [o Ho].
      cut (Some o = None); [discriminate|]. rewrite <- Ho, <- Hfresh. by rewrite E.
    - intros E. by apply Hne. }
  split; [|apply array_of_set_array].
  apply (load_block_ok _ _ (<[Z.to_nat block:=set_array t blk p]> bs)); [done| |lia|].
  - simpl. by rewrite lookup_insert_eq.
  - apply list_lookup_insert_eq. lia.
Qed.

(** C7 does not hold of the code.  [occ_renew_sensor] compares the new
    count with [num_of_sensors] of the block the type's index points to and
    stores a new array in the block being parsed, and the parser writes the
    records through the block being parsed; when a type arrives in another
    block than in the previous reply these are different blocks.  After a
    snapshot with two frequency records in block 0 and three temperature
    records in block 1:
    - a reply with a POWR block followed by the same two-record FREQ block
      has the frequency array freed and a new one allocated although its
      count is unchanged; the new array lands in block 1, which the
      temperature index still names, and the temperature array is left
      allocated with no reference to it;
    - a reply with the two blocks in the opposite order passes the reuse
      test for the three temperature records and writes them through block
      0, into the array of two frequency records, past its end. *)
Theorem renew_reads_the_old_slot :
  occ_get_sensor_by_type snapshot_freq2_temp3.1 snapshot_freq2_temp3.2 freq = Ok 2
  /\ objs snapshot_freq2_temp3.2 !! 2
     = Some (Sensors [{| sensor_id := 1; value := 100 |}; {| sensor_id := 2; value := 200 |}])
  /\ occ_get_sensor_by_type snapshot_freq2_temp3.1 snapshot_freq2_temp3.2 temp = Ok 3
  /\ objs snapshot_freq2_temp3.2 !! 3
     = Some (Sensors [{| sensor_id := 1; value := 30 |}; {| sensor_id := 2; value := 31 |};
                      {| sensor_id := 3; value := 32 |}])
  /\ (exists resp' h',
        parse_occ_response reply_powr_freq snapshot_freq2_temp3.1 snapshot_freq2_temp3.2
        = Ok (0, resp', h')
        /\ live h' 2 = false
        /\ occ_get_sensor_by_type resp' h' freq = Ok 5
        /\ objs h' !! 5
           = Some (Sensors [{| sensor_id := 1; value := 111 |};
                            {| sensor_id := 2; value := 222 |}])
        /\ occ_get_sensor_by_type resp' h' temp = Ok 5
        /\ live h' 3 = true)
  /\ parse_occ_response reply_temp_freq snapshot_freq2_temp3.1 snapshot_freq2_temp3.2
     = Fault OutOfBounds.
Proof.
  do 4 (split; [vm_compute; reflexivity|]).
  split; [|vm_compute; reflexivity].
  eexists _, _. split; [vm_compute; reflexivity|]. vm_compute. repeat split.
Qed.

Lemma below_brk_snapshot_freq2 : below_brk snapshot_freq2.2.
Proof. unfold below_brk. apply (bool_decide_unpack _). vm_compute. exact I. Qed.

(** A second reply with the same count is decoded into the same array:
    no allocation, the block list and the array stay at their addresses and
    the records are replaced. *)
Example reparse_same_count_overwrites :
  exists resp' h',
    parse_occ_response (reply_freq 4 2 [0; 1; 0; 111; 0; 2; 0; 222])
      snapshot_freq2.1 snapshot_freq2.2 = Ok (0, resp', h')
    /\ resp' = snapshot_freq2.1
    /\ brk h' = brk snapshot_freq2.2
    /\ objs h' !! 2 = Some (Sensors [{| sensor_id := 1; value := 111 |};
                                     {| sensor_id := 2; value := 222 |}]).
Proof. eexists _, _. repeat split; vm_compute; reflexivity. Qed.

(** Retiring a type: the state, and with it the type's index, is handed
    back as it was, whatever it held. *)
Lemma retire_keeps_state resp h len num t block ret resp' h' :
  num = 0 \/ len = 0 ->
  occ_renew_sensor resp h len num t block = Ok (ret, resp', h') ->
  ret = -1 /\ resp' = resp.
Proof.
  intros Hz. unfold occ_renew_sensor.
  destruct (occ_get_sensor_by_type resp h t) as [sensor|]; [simpl|done].
  assert ((num =? 0) || (len =? 0) = true) as ->.
  { destruct Hz as [-> | ->]; [done|]. apply orb_true_r. }
  destruct (kfree sensor h) as [h1|]; [simpl|done].
  by intros [= <- <- <-].
Qed.

(** Only for a type that was absent already does the reader find it
    absent afterwards. *)
Lemma retire_absent_type resp h len num t block :
  num = 0 \/ len = 0 ->
  block_id resp t = -1 ->
  occ_renew_sensor resp h len num t block = Ok (-1, resp, h)
  /\ occ_get_sensor_by_type resp h t = Ok NULL.
Proof.
  intros Hz Hid.
  assert (occ_get_sensor_by_type resp h t = Ok NULL) as Hget.
  { unfold occ_get_sensor_by_type. rewrite Hid.
    by destruct (blocks resp =? NULL). }
  split; [|done]. unfold occ_renew_sensor. rewrite Hget. simpl.
  assert ((num =? 0) || (len =? 0) = true) as ->; [|done].
  destruct Hz as [-> | ->]; [done|]. apply orb_true_r.
Qed.

(** C8 does not hold of the code.  After a snapshot with two frequency
    records, a reply whose FREQ block has a record count of 0 is parsed with
    success and the array is freed, but [freq_block_id] keeps its old value
    and the block keeps the pointer: a reader of the frequency sensors is
    handed the address of the freed array instead of NULL. *)
Theorem retired_type_keeps_stale_index :
  exists resp' h',
    parse_occ_response (reply_freq 4 0 []) snapshot_freq2.1 snapshot_freq2.2
    = Ok (0, resp', h')
    /\ freq_block_id snapshot_freq2.1 = 0
    /\ freq_block_id resp' = 0
    /\ occ_get_sensor_by_type resp' h' freq = Ok 2
    /\ live snapshot_freq2.2 2 = true
    /\ live h' 2 = false.
Proof. eexists _, _. repeat split; vm_compute; reflexivity. Qed.

(** ** The refresh cache *)

(** Against C9 as stated: after a failed refresh at tick 5000 with an
    interval of 1000, a second call at the same tick, with the interval not
    elapsed, goes to the bus again (eight more write transfers). *)
Lemma failed_refresh_refetches_at_once :
  occ_update_device dead_0 drv_0 (empty_heap 8)
  = Ok ({| attempts := 8; ticks := 5000 |}, - EINVAL, drv_failed, empty_heap 8)
  /\ time_after (ulong 5000) (ulong (last_updated drv_failed + update_interval drv_failed))
     = false
  /\ occ_update_device {| attempts := 8; ticks := 5000 |} drv_failed (empty_heap 8)
     = Ok ({| attempts := 16; ticks := 5000 |}, - EINVAL, drv_failed, empty_heap 8).
Proof. vm_compute. repeat split. Qed.

Section Cache.
Context {W : Type} `{Platform W}.

(** C9, as amended.  A refresh that fails leaves [valid] false and
    [last_updated] at the tick read after the attempt; and with [valid]
    false the next call refreshes again whatever the tick counter says: the
    interval is not waited for. *)
Theorem failed_refresh_is_retried (w : W) (data : occ_drv_data) (h : heap) :
  (forall w' ret resp h',
      refresh_due w data = true ->
      occ_get_all w (occ_resp data) h = Ok (w', ret, resp, h') ->
      ret <> 0 ->
      occ_update_device w data h
      = Ok (w', ret,
            {| valid := false; last_updated := ulong (jiffies w');
               update_interval := update_interval data; occ_online := occ_online data;
               user_powercap := user_powercap data; occ_resp := resp |}, h'))
  /\ (valid data = false ->
      refresh_due w data = true
      /\ occ_update_device w data h
         = ('(w', ret, resp, h') ← occ_get_all w (occ_resp data) h;
            Ok (w', ret,
                {| valid := (ret =? 0); last_updated := ulong (jiffies w');
                   update_interval := update_interval data;
                   occ_online := occ_online data;
                   user_powercap := user_powercap data; occ_resp := resp |}, h'))).
Proof.
  split.
  - intros w' ret resp h' Hdue Hget Hret. unfold occ_update_device.
    rewrite Hdue. simpl. rewrite Hget. simpl.
    by destruct (Z.eqb_spec ret 0).
  - intros Hv.
    assert (refresh_due w data = true) as Hdue.
    { unfold refresh_due. rewrite Hv. apply orb_true_r. }
    split; [done|]. unfold occ_update_device. rewrite Hdue. simpl.
    destruct (occ_get_all w (occ_resp data) h) as [[[[w' ret] resp] h']|]; [|done].
    simpl. by destruct (Z.eqb_spec ret 0).
Qed.
End Cache.

Lemma failed_refresh_is_retried_witness :
  occ_update_device dead_0 drv_0 (empty_heap 8)
  = Ok ({| attempts := 8; ticks := 5000 |}, - EINVAL, drv_failed, empty_heap 8)
  /\ refresh_due {| attempts := 8; ticks := 5000 |} drv_failed = true.
Proof.
  split.
  - assert (refresh_due dead_0 drv_0 = true) as Hdue by reflexivity.
    assert (occ_get_all dead_0 (occ_resp drv_0) (empty_heap 8)
            = Ok ({| attempts := 8; ticks := 5000 |}, - EINVAL, fresh_response, empty_heap 8))
      as Hget by (vm_compute; reflexivity).
    assert (- EINVAL <> 0) as Hret by discriminate.
    exact (proj1 (failed_refresh_is_retried dead_0 drv_0 (empty_heap 8)) _ _ _ _
             Hdue Hget Hret).
  - apply (proj2 (failed_refresh_is_retried {| attempts := 8; ticks := 5000 |} drv_failed
                    (empty_heap 8))).
    reflexivity.
Defined.

(** * Further properties of the driver *)

(** ** Register reads *)

(** What a successful store leaves in the buffer. *)
Lemma store_bytes_spec (data bytes data' : list Z) (offset : Z) :
  store_bytes data offset bytes = Ok data' ->
  length data' = length data
  /\ forall j, byte_at data' j
               = if (offset <=? j) && (j <? offset + Z.of_nat (length bytes))
                 then byte_at bytes (j - offset) else byte_at data j.
Proof.
  unfold store_bytes.
  destruct (Z.leb_spec 0 offset); [|done].
  destruct (Z.leb_spec (offset + Z.of_nat (length bytes)) (Z.of_nat (length data))); [|done].
  simpl. intros [= <-]. split.
  - rewrite !length_app, length_take, length_drop. lia.
  - intros j. destruct (Z.lt_ge_cases j 0) as [Hneg|Hpos].
    { rewrite !byte_at_neg by lia. destruct (Z.leb_spec offset j); [lia|done]. }
    destruct (Z.leb_spec offset j); simpl.
    + rewrite byte_at_app_r by (rewrite length_take; lia).
      rewrite length_take, Nat.min_l by lia. rewrite Z2Nat.id by lia.
      destruct (Z.ltb_spec j (offset + Z.of_nat (length bytes))).
      * by rewrite byte_at_app_l by lia.
      * rewrite byte_at_app_r by lia. rewrite !byte_at_lookup by lia.
        rewrite lookup_drop. do 3 f_equal. lia.
    + rewrite byte_at_app_l by (rewrite length_take; lia).
      rewrite !byte_at_lookup by lia. rewrite lookup_take_lt by lia. done.
Qed.


Section Register.
Context {W : Type} `{Platform W}.

(** X1.  A register read whose address write is reported as 4 bytes and
    whose read as 8 bytes returns 0 and stores the eight bytes received in
    reverse order at [offset .. offset + 7] of the caller's buffer; every
    other byte of the buffer, and its length, are left as they were. *)
Theorem occ_getscomb_success (w w1 w2 : W) (address : Z) (data buf : list Z)
    (offset r1 r2 : Z) :
  i2c_master_send w (le32 (u32 (Z.shiftl address 1))) = (w1, r1) ->
  u32 r1 = 4 ->
  i2c_master_recv w1 8 = (w2, (r2, buf)) ->
  u32 r2 = 8 ->
  0 <= offset -> offset + 8 <= Z.of_nat (length data) ->
  exists data',
    occ_getscomb w address data offset = Ok (w2, 0, data')
    /\ length data' = length data
    /\ forall j, byte_at data' j
                 = if (offset <=? j) && (j <? offset + 8)
                   then byte_at buf (7 - (j - offset)) else byte_at data j.
Proof.
  intros Hs Hr1 Hr Hr2 Ho Hlen. unfold occ_getscomb, occ_i2c_write, occ_i2c_read.
  rewrite Hs, Hr1. simpl. rewrite Hr, Hr2. simpl.
  destruct (store_bytes data offset _) as [data'|f] eqn:E; simpl.
  - destruct (store_bytes_spec _ _ _ _ E) as [Hl Hj].
    exists data'. split; [done|]. split; [done|]. intros j. rewrite Hj.
    simpl length. change (Z.of_nat 8) with 8.
    destruct (Z.leb_spec offset j), (Z.ltb_spec j (offset + 8)); simpl; try done.
    assert (j - offset = 0 \/ j - offset = 1 \/ j - offset = 2 \/ j - offset = 3
            \/ j - offset = 4 \/ j - offset = 5 \/ j - offset = 6 \/ j - offset = 7)
      as Hk by lia.
    destruct Hk as [-> | [-> | [-> | [-> | [-> | [-> | [-> | ->]]]]]]];
      unfold byte_at at 1; simpl; apply u8_byte_at.
  - unfold store_bytes in E. simpl length in E. change (Z.of_nat 8) with 8 in E.
    destruct (Z.leb_spec 0 offset); [|lia].
    destruct (Z.leb_spec (offset + 8) (Z.of_nat (length data))); [done|lia].
Qed.

(** X2.  A register read fails without touching the caller's buffer: when
    the address write is not reported as 4 bytes it returns
    [-I2C_WRITE_ERROR] and no read is issued; when the read is not reported
    as 8 bytes it returns [-I2C_READ_ERROR]. *)
Theorem occ_getscomb_failure (w : W) (address : Z) (data : list Z) (offset : Z) :
  (forall w1 r1,
      i2c_master_send w (le32 (u32 (Z.shiftl address 1))) = (w1, r1) ->
      u32 r1 <> 4 ->
      occ_getscomb w address data offset = Ok (w1, - I2C_WRITE_ERROR, data))
  /\ (forall w1 r1 w2 r2 buf,
        i2c_master_send w (le32 (u32 (Z.shiftl address 1))) = (w1, r1) ->
        u32 r1 = 4 ->
        i2c_master_recv w1 8 = (w2, (r2, buf)) ->
        u32 r2 <> 8 ->
        occ_getscomb w address data offset = Ok (w2, - I2C_READ_ERROR, data)).
Proof.
  split.
  - intros w1 r1 Hs Hr1. unfold occ_getscomb, occ_i2c_write. rewrite Hs.
    by destruct (Z.eqb_spec (u32 r1) 4).
  - intros w1 r1 w2 r2 buf Hs Hr1 Hr Hr2. unfold occ_getscomb, occ_i2c_write, occ_i2c_read.
    rewrite Hs, Hr1. simpl. rewrite Hr. by destruct (Z.eqb_spec (u32 r2) 8).
Qed.
End Register.

Lemma occ_getscomb_success_witness :
  exists data',
    occ_getscomb {| reply := [1; 2; 3; 4; 5; 6; 7; 8]; sent := 0; clock := 0 |}
      OCB_DATA (replicate 16 0) 8
    = Ok ({| reply := []; sent := 1; clock := 0 |}, 0, data')
    /\ length data' = 16%nat
    /\ forall j, byte_at data' j
                 = if (8 <=? j) && (j <? 8 + 8)
                   then byte_at [8; 7; 6; 5; 4; 3; 2; 1] (7 - (j - 8))
                   else byte_at (replicate 16 0) j.
Proof.
  apply (occ_getscomb_success
           {| reply := [1; 2; 3; 4; 5; 6; 7; 8]; sent := 0; clock := 0 |}
           {| reply := [1; 2; 3; 4; 5; 6; 7; 8]; sent := 1; clock := 0 |}
           {| reply := []; sent := 1; clock := 0 |}
           OCB_DATA (replicate 16 0) [8; 7; 6; 5; 4; 3; 2; 1] 8 4 8);
    [reflexivity | reflexivity | reflexivity | reflexivity | lia | simpl; lia].
Defined.

Lemma occ_getscomb_failure_witness :
  occ_getscomb dead_0 OCB_DATA (replicate 8 7) 0
  = Ok ({| attempts := 1; ticks := 5000 |}, - I2C_WRITE_ERROR, replicate 8 7)
  /\ occ_getscomb {| writes := 0 |} OCB_DATA (replicate 8 7) 0
     = Ok ({| writes := 1 |}, - I2C_READ_ERROR, replicate 8 7).
Proof.
  split.
  - apply (proj1 (occ_getscomb_failure dead_0 OCB_DATA (replicate 8 7) 0) _ 0);
      [reflexivity | vm_compute; discriminate].
  - apply (proj2 (occ_getscomb_failure {| writes := 0 |} OCB_DATA (replicate 8 7) 0)
             {| writes := 1 |} 4 _ 0 []);
      [reflexivity | reflexivity | reflexivity | vm_compute; discriminate].
Defined.

(** ** The read loop *)

Section Reads.
Context {W : Type} `{Platform W}.

Lemma occ_getscomb_frame (w w' : W) address data offset ret data' :
  occ_getscomb w address data offset = Ok (w', ret, data') ->
  length data' = length data
  /\ forall j, j < offset \/ offset + 8 <= j -> byte_at data' j = byte_at data j.
Proof.
  unfold occ_getscomb.
  destruct (occ_i2c_write w _) as [w1 r1].
  destruct (negb (u32 r1 =? 4)); [by intros [= <- <- <-]|].
  destruct (occ_i2c_read w1 8) as [w2 [r2 buf]].
  destruct (negb (u32 r2 =? 8)); [by intros [= <- <- <-]|].
  destruct (store_bytes data offset _) as [d|] eqn:E; [simpl|done].
  intros [= <- <- <-]. destruct (store_bytes_spec _ _ _ _ E) as [Hl Hj].
  split; [done|]. intros j Hout. rewrite Hj. simpl length.
  change (Z.of_nat 8) with 8.
  destruct (Z.leb_spec offset j), (Z.ltb_spec j (offset + 8)); simpl; try done. lia.
Qed.

Lemma read_loop_frame (offs : list Z) : forall (w w' : W) data data' lo hi,
  (forall i, i ∈ offs -> lo <= i /\ i + 8 <= hi) ->
  for_each (fun i '(w, occ_data) =>
              '(w, _, occ_data) ← occ_getscomb w OCB_DATA occ_data i;
              Ok (w, occ_data)) offs (w, data) = Ok (w', data') ->
  length data' = length data
  /\ forall j, j < lo \/ hi <= j -> byte_at data' j = byte_at data j.
Proof.
  induction offs as [|i offs IH]; intros w w' data data' lo hi Hoffs.
  - simpl. by intros [= <- <-].
  - simpl. destruct (occ_getscomb w OCB_DATA data i) as [[[w1 ret] d1]|] eqn:E; [simpl|done].
    intros Hrest. destruct (occ_getscomb_frame _ _ _ _ _ _ _ E) as [Hl1 Hj1].
    destruct (IH w1 w' d1 data' lo hi) as [Hl Hj]; [set_solver|done|].
    split; [congruence|]. intros j Hout. rewrite Hj by done. apply Hj1.
    destruct (Hoffs i); [set_solver|]. lia.
Qed.

Lemma read_loop_defined (offs : list Z) : forall (w : W) data,
  (forall i, i ∈ offs -> 0 <= i /\ i + 8 <= Z.of_nat (length data)) ->
  exists w' data',
    for_each (fun i '(w, occ_data) =>
                '(w, _, occ_data) ← occ_getscomb w OCB_DATA occ_data i;
                Ok (w, occ_data)) offs (w, data) = Ok (w', data').
Proof.
  induction offs as [|i offs IH]; intros w data Hoffs.
  - by eexists _, _.
  - simpl. destruct (Hoffs i) as [H0 H8]; [set_solver|].
    destruct (occ_getscomb_defined w OCB_DATA data i H0 H8) as (w1 & ret & d1 & E).
    rewrite E. simpl.
    destruct (occ_getscomb_frame _ _ _ _ _ _ _ E) as [Hl1 _].
    apply IH. intros i' Hi'. rewrite Hl1. apply Hoffs. set_solver.
Qed.

(** X3.  While the announced length is at most 4088 the read loop of
    [occ_get_all] stays inside the 4096-byte buffer: it never faults, keeps
    the length, and leaves the first eight bytes (the first register read)
    and every byte past the last chunk untouched. *)
Theorem read_remaining_inside (w : W) (occ_data : list Z) (num_bytes : Z) :
  length occ_data = Z.to_nat OCC_DATA_MAX ->
  num_bytes <= 4088 ->
  exists w' data',
    read_remaining w occ_data num_bytes = Ok (w', data')
    /\ length data' = length occ_data
    /\ forall j, j < 8 \/ 8 + 8 * ((num_bytes + 7) / 8) <= j ->
                 byte_at data' j = byte_at occ_data j.
Proof.
  intros Hlen Hn. unfold read_remaining.
  destruct (read_loop_defined (read_offsets num_bytes) w occ_data) as (w' & data' & E).
  { intros i Hi. destruct (read_offsets_inside _ _ Hn Hi).
    rewrite Hlen. unfold OCC_DATA_MAX in *. lia. }
  exists w', data'. split; [done|].
  apply (read_loop_frame _ _ _ _ _ 8 (8 + 8 * ((num_bytes + 7) / 8)) ) in E; [done|].
  intros i (k & Hk & -> & Hlt)%elem_of_read_offsets.
  split; [lia|]. Z.div_mod_to_equations. lia.
Qed.
End Reads.

Lemma read_remaining_inside_witness :
  exists w' data',
    read_remaining {| reply := [1; 2; 3]; sent := 0; clock := 0 |}
      (replicate (Z.to_nat OCC_DATA_MAX) 0) 16 = Ok (w', data')
    /\ length data' = length (replicate (Z.to_nat OCC_DATA_MAX) 0)
    /\ forall j, j < 8 \/ 8 + 8 * ((16 + 7) / 8) <= j ->
                 byte_at data' j = byte_at (replicate (Z.to_nat OCC_DATA_MAX) 0) j.
Proof.
  apply (read_remaining_inside {| reply := [1; 2; 3]; sent := 0; clock := 0 |}).
  - apply length_replicate.
  - lia.
Defined.

(** ** Command frames and the power cap *)

Lemma occ_cmd2_payload_two data stack :
  2 <= Z.of_nat (length data) ->
  occ_cmd2_payload 2 data stack = Ok ((byte_at data 0 + 256 * byte_at data 1) * 2 ^ 16).
Proof.
  intros Hd. rewrite occ_cmd2_payload_form by lia. do 2 f_equal.
  pose proof (memcpy_word_bytes (u32 stack) data 2 0) as H0.
  pose proof (memcpy_word_bytes (u32 stack) data 2 1) as H1.
  rewrite byte_of_mod in H0, H1 by lia. simpl in H0, H1.
  rewrite <- H0, <- H1 by lia.
  set (x := memcpy_word (u32 stack) data 2).
  change (2 ^ (8 * 2)) with 65536. Z.div_mod_to_equations. lia.
Qed.

(** X4.  For the payload lengths the driver uses (1 and 2) the second
    command word does not depend on what the uninitialised local [cmd2]
    held: [memcpy] followed by the shift discards its bytes. *)
Theorem frame_ignores_stack (seq type l : Z) (data : list Z) (s1 s2 : Z) :
  1 <= l <= 2 ->
  occ_cmd2 seq type l data s1 = occ_cmd2 seq type l data s2.
Proof.
  intros Hl. unfold occ_cmd2.
  destruct (Z.le_gt_cases l (Z.of_nat (length data))).
  - assert (l = 1 \/ l = 2) as [-> | ->] by lia;
      by rewrite ?occ_cmd2_payload_one, ?occ_cmd2_payload_two by lia.
  - by rewrite !occ_cmd2_payload_short by lia.
Qed.

Lemma frame_ignores_stack_witness :
  occ_cmd2 0 0 1 [16] 305419896 = occ_cmd2 0 0 1 [16] 0.
Proof. apply frame_ignores_stack. lia. Defined.

Lemma byte_at_two a b :
  byte_at [a; b] 0 = u8 a /\ byte_at [a; b] 1 = u8 b.
Proof. done. Qed.

(** X5.  The frame [set_user_powercap] sends for a 16-bit value: the first
    word is [0x00220002], the second carries the value in its upper half
    and, in its lower half, the sum of the frame's bytes. *)
Theorem powercap_frame_value (val stack : Z) :
  0 <= val < 65536 ->
  occ_cmd1 0 34 2 = 0x00220002
  /\ occ_cmd2 0 34 2 [byte_of val 0; byte_of val 1] stack
     = Ok (val * 65536 + (36 + val / 256 + val mod 256)).
Proof.
  intros Hv. split; [reflexivity|].
  rewrite occ_cmd2_form by (simpl; lia). f_equal. rewrite occ_checksum_spec.
  pose proof (memcpy_word_bytes (u32 stack) [byte_of val 0; byte_of val 1] 2 0) as H0.
  pose proof (memcpy_word_bytes (u32 stack) [byte_of val 0; byte_of val 1] 2 1) as H1.
  rewrite byte_of_mod in H0, H1 by lia. simpl in H0, H1.
  destruct (byte_at_two (byte_of val 0) (byte_of val 1)) as [E0 E1].
  rewrite E0 in *. rewrite E1 in *. clear E0 E1.
  unfold u8 in *. rewrite !byte_of_mod in * by lia. simpl Z.mul in *.
  change (2 ^ 0) with 1 in *. change (2 ^ 8) with 256 in *.
  rewrite !Z.mod_mod in * by lia.
  set (x := memcpy_word (u32 stack) [val / 1 mod 256; val / 256 mod 256] 2) in *.
  unfold frame_byte_sum. change (occ_cmd1 0 34 2) with 2228226.
  simpl. rewrite !byte_of_mod by lia. simpl Z.mul. simpl Z.pow.
  specialize (H0 ltac:(lia)). specialize (H1 ltac:(lia)).
  Z.div_mod_to_equations. lia.
Qed.

Lemma powercap_frame_value_witness :
  occ_cmd1 0 34 2 = 0x00220002
  /\ occ_cmd2 0 34 2 [byte_of 4660 0; byte_of 4660 1] 7
     = Ok (4660 * 65536 + (36 + 4660 / 256 + 4660 mod 256)).
Proof. apply powercap_frame_value. lia. Defined.


Section Powercap.
Context {W : Type} `{Platform W}.
Variable kstrtou16 : list Z -> Z -> Z * Z.

End Powercap.


(** ** Tag dispatch *)

Lemma strncmp_refl (y : list Z) : forall n, strncmp y y n = 0.
Proof.
  induction y as [|c y IH]; intros [|n]; simpl; try done.
  rewrite Z.eqb_refl. simpl. destruct (c =? 0); [done|]. apply IH.
Qed.

Lemma strncmp_eq (n : nat) : forall x y : list Z,
  length x = n -> length y = n -> Forall (fun c => c <> 0) y ->
  strncmp x y n = 0 -> x = y.
Proof.
  induction n as [|n IH]; intros x y Hx Hy Hnz.
  - by destruct x, y.
  - destruct x as [|a x], y as [|b y]; try done. simpl.
    apply Forall_cons in Hnz as [Hb Hnz].
    destruct (Z.eqb_spec a b) as [->|]; simpl.
    + destruct (Z.eqb_spec b 0); [done|]. intros Hc. f_equal.
      apply IH; [by injection Hx|by injection Hy|done|done].
    + by destruct (a <? b).
Qed.

Lemma strncpy_eq (n : nat) : forall x y : list Z,
  length x = n -> length y = n -> Forall (fun c => c <> 0) y ->
  strncpy x n = y -> x = y.
Proof.
  induction n as [|n IH]; intros x y Hx Hy Hnz.
  - by destruct x, y.
  - destruct x as [|a x], y as [|b y]; try done. simpl.
    apply Forall_cons in Hnz as [Hb Hnz].
    destruct (Z.eqb_spec a 0) as [->|].
    + intros [= <- _]. done.
    + intros [= <- Hc]. f_equal.
      apply IH; [by injection Hx|by injection Hy|done|done].
Qed.

Lemma strncpy_nonzero (y : list Z) :
  Forall (fun c => c <> 0) y -> strncpy y (length y) = y.
Proof.
  induction 1 as [|c y Hc _ IH]; [done|]. simpl.
  destruct (Z.eqb_spec c 0); [done|]. by rewrite IH.
Qed.

Lemma length_strncpy (x : list Z) : forall n, length (strncpy x n) = n.
Proof.
  intros n. revert x. induction n as [|n IH]; intros x; [done|]. simpl.
  destruct (hd 0 x =? 0); simpl; [by rewrite length_replicate|by rewrite IH].
Qed.

Lemma tag_of_nonzero t : Forall (fun c => c <> 0) (tag_of t) /\ length (tag_of t) = 4%nat.
Proof. split; [|by destruct t]. destruct t; repeat constructor; done. Qed.

Lemma sensor_t_of_tag_spec (tag : list Z) (t : sensor_t) :
  length tag = 4%nat ->
  sensor_t_of_tag (strncpy tag 4) = Some t <-> tag = tag_of t.
Proof.
  intros Hlen. split.
  - intros Hd.
    assert (strncmp (strncpy tag 4) (tag_of t) 4 = 0) as Hc.
    { unfold sensor_t_of_tag in Hd.
      destruct (Z.eqb_spec (strncmp (strncpy tag 4) str_FREQ 4) 0);
        [by injection Hd as <-|].
      destruct (Z.eqb_spec (strncmp (strncpy tag 4) str_TEMP 4) 0);
        [by injection Hd as <-|].
      destruct (Z.eqb_spec (strncmp (strncpy tag 4) str_POWR 4) 0);
        [by injection Hd as <-|].
      destruct (Z.eqb_spec (strncmp (strncpy tag 4) str_CAPS 4) 0);
        [by injection Hd as <-|done]. }
    destruct (tag_of_nonzero t) as [Hnz Hl].
    apply strncmp_eq in Hc; [|by rewrite length_strncpy|done|done].
    by apply (strncpy_eq 4).
  - intros ->. by destruct t.
Qed.

(** X7.  The [strncpy]/[strncmp] chain of the block loop selects a sensor
    type exactly when the four tag bytes are that type's tag, and falls
    through to the error exit exactly when they are none of the four. *)
Theorem tag_dispatch_exact (tag : list Z) :
  length tag = 4%nat ->
  (forall t, sensor_t_of_tag (strncpy tag 4) = Some t <-> tag = tag_of t)
  /\ (sensor_t_of_tag (strncpy tag 4) = None <-> forall t, tag <> tag_of t).
Proof.
  intros Hlen. split; [intros t; by apply sensor_t_of_tag_spec|]. split.
  - intros Hn t Ht. apply (sensor_t_of_tag_spec tag t Hlen) in Ht. congruence.
  - intros Hall. destruct (sensor_t_of_tag (strncpy tag 4)) as [t|] eqn:E; [|done].
    apply (sensor_t_of_tag_spec tag t Hlen) in E. by destruct (Hall t).
Qed.

Lemma tag_dispatch_exact_witness :
  length [80; 79; 87; 82] = 4%nat
  /\ sensor_t_of_tag (strncpy [80; 79; 87; 82] 4) = Some power_t.
Proof.
  split; [reflexivity|].
  by apply (proj1 (tag_dispatch_exact [80; 79; 87; 82] eq_refl) power_t).
Defined.

(** ** The record loops *)

Lemma assign_same h a o : objs h !! a = Some o -> assign h a o = h.
Proof. intros Ho. destruct h as [m b q]. unfold assign. simpl in *. by rewrite insert_id. Qed.

Lemma assign_assign h a o o' : assign (assign h a o) a o' = assign h a o'.
Proof. unfold assign. simpl. by rewrite insert_insert_eq. Qed.

Lemma length_decode_list {A} (dec : Z -> A) d len n : length (decode_list dec d len n) = n.
Proof. revert d. induction n as [|n IH]; intros d; simpl; [done|by rewrite IH]. Qed.

Lemma for_each_cons {A S} (body : A -> S -> res S) i l s :
  for_each body (i :: l) s = (s' ← body i s; for_each body l s').
Proof. done. Qed.

Section DecodeLoop.
Variables (A : Type) (dec : Z -> A) (wrap : list A -> object).
Variables (data : list Z) (resp : occ_response) (t : sensor_t) (b len : Z).
Variables (a : ptr) (bs : list sensor_data_block).
Hypothesis Hab : a <> blocks resp.
Hypothesis Hlen : 0 <= len.
Hypothesis Hstep : forall l s d h,
  objs h !! blocks resp = Some (Blocks bs) ->
  objs h !! a = Some (wrap l) ->
  0 <= s < Z.of_nat (length l) ->
  0 <= d -> d + record_size t <= OCC_DATA_MAX ->
  decode_record data resp t b len s (d, h)
  = Ok (d + len, assign h a (wrap (<[Z.to_nat s := dec d]> l))).
Hypothesis Hstep_out : forall s d h,
  objs h !! blocks resp = Some (Blocks bs) ->
  OCC_DATA_MAX < d + record_size t ->
  decode_record data resp t b len s (d, h) = Fault OutOfBounds.

(** The records are read at [d], [d + len], ...: all of them lie inside
    the buffer when the last one does. *)
Lemma decode_loop (todo : list A) : forall done d h,
  objs h !! blocks resp = Some (Blocks bs) ->
  objs h !! a = Some (wrap (done ++ todo)) ->
  0 <= d ->
  (todo <> [] ->
   d + (Z.of_nat (length todo) - 1) * len + record_size t <= OCC_DATA_MAX) ->
  for_each (decode_record data resp t b len)
    (seqZ (Z.of_nat (length done)) (Z.of_nat (length todo))) (d, h)
  = Ok (d + Z.of_nat (length todo) * len,
        assign h a (wrap (done ++ decode_list dec d len (length todo)))).
Proof.
  induction todo as [|x todo IH]; intros done d h Hbs Ha Hd Hin.
  - simpl. rewrite Z.add_0_r. by rewrite assign_same.
  - change (length (x :: todo)) with (S (length todo)) in *.
    specialize (Hin ltac:(done)).
    rewrite Nat2Z.inj_succ, seqZ_cons by lia. rewrite for_each_cons.
    rewrite (Hstep (done ++ x :: todo) _ d h Hbs Ha)
      by (rewrite ?length_app; simpl; nia).
    simpl mbind. rewrite Nat2Z.id.
    replace (<[length done:=dec d]> (done ++ x :: todo)) with ((done ++ [dec d]) ++ todo).
    2:{ rewrite <- (Nat.add_0_r (length done)), insert_app_r. simpl.
        by rewrite <- app_assoc. }
    replace (Z.succ (Z.of_nat (length done))) with (Z.of_nat (length (done ++ [dec d])))
      by (rewrite length_app; simpl; lia).
    replace (Z.pred (Z.succ (Z.of_nat (length todo)))) with (Z.of_nat (length todo)) by lia.
    rewrite IH.
    + rewrite assign_assign. rewrite <- app_assoc. simpl. do 2 f_equal. lia.
    + unfold assign. simpl. by rewrite lookup_insert_ne.
    + unfold assign. simpl. by rewrite lookup_insert_eq.
    + lia.
    + intros _. nia.
Qed.

(** When the last record does not lie inside the buffer, the loop runs
    into the first one that does not. *)
Lemma decode_loop_out (todo : list A) : forall done d h,
  objs h !! blocks resp = Some (Blocks bs) ->
  objs h !! a = Some (wrap (done ++ todo)) ->
  0 <= d ->
  todo <> [] ->
  OCC_DATA_MAX < d + (Z.of_nat (length todo) - 1) * len + record_size t ->
  for_each (decode_record data resp t b len)
    (seqZ (Z.of_nat (length done)) (Z.of_nat (length todo))) (d, h)
  = Fault OutOfBounds.
Proof.
  induction todo as [|x todo IH]; intros done d h Hbs Ha Hd Hne Hout; [by destruct Hne|].
  change (length (x :: todo)) with (S (length todo)) in *.
  rewrite Nat2Z.inj_succ, seqZ_cons by lia. rewrite for_each_cons.
  destruct (Z.le_gt_cases (d + record_size t) OCC_DATA_MAX) as [Hok|Hbad].
  - rewrite (Hstep (done ++ x :: todo) _ d h Hbs Ha)
      by (rewrite ?length_app; simpl; lia).
    simpl mbind. rewrite Nat2Z.id.
    replace (<[length done:=dec d]> (done ++ x :: todo)) with ((done ++ [dec d]) ++ todo).
    2:{ rewrite <- (Nat.add_0_r (length done)), insert_app_r. simpl.
        by rewrite <- app_assoc. }
    replace (Z.succ (Z.of_nat (length done))) with (Z.of_nat (length (done ++ [dec d])))
      by (rewrite length_app; simpl; lia).
    replace (Z.pred (Z.succ (Z.of_nat (length todo)))) with (Z.of_nat (length todo)) by lia.
    apply IH.
    + unfold assign. simpl. by rewrite lookup_insert_ne.
    + unfold assign. simpl. by rewrite lookup_insert_eq.
    + lia.
    + intros ->. simpl in Hout. lia.
    + nia.
  - by rewrite Hstep_out.
Qed.
End DecodeLoop.

(** One turn of the record loop, for each of the three record shapes. *)
Lemma decode_record_sensors data resp t b len bs blk a l s d h :
  t = temp \/ t = freq ->
  blocks resp <> NULL -> 0 <= b -> bs !! Z.to_nat b = Some blk ->
  array_of t blk = a -> a <> NULL ->
  objs h !! blocks resp = Some (Blocks bs) ->
  objs h !! a = Some (Sensors l) ->
  0 <= s < Z.of_nat (length l) ->
  0 <= d -> d + record_size t <= OCC_DATA_MAX ->
  decode_record data resp t b len s (d, h)
  = Ok (d + len, assign h a (Sensors (<[Z.to_nat s := decode_occ_sensor data d]> l))).
Proof.
  intros Ht Hp Hb Hblk Ha Hane Hbs Hl Hs Hd Hin. unfold decode_record.
  rewrite (load_block_ok h _ bs b blk) by done. cbn [mbind res_bind].
  rewrite in_buffer_ok by done. cbn [mbind res_bind]. rewrite Ha.
  unfold deref. destruct (Z.eqb_spec a NULL); [done|]. rewrite Hl. simpl.
  unfold update. destruct (Z.leb_spec 0 s); [|lia].
  destruct (Z.ltb_spec s (Z.of_nat (length l))); [|lia].
  by destruct Ht as [-> | ->].
Qed.

Lemma decode_record_powers data resp b len bs blk a l s d h :
  blocks resp <> NULL -> 0 <= b -> bs !! Z.to_nat b = Some blk ->
  array_of power_t blk = a -> a <> NULL ->
  objs h !! blocks resp = Some (Blocks bs) ->
  objs h !! a = Some (Powers l) ->
  0 <= s < Z.of_nat (length l) ->
  0 <= d -> d + record_size power_t <= OCC_DATA_MAX ->
  decode_record data resp power_t b len s (d, h)
  = Ok (d + len, assign h a (Powers (<[Z.to_nat s := decode_power_sensor data d]> l))).
Proof.
  intros Hp Hb Hblk Ha Hane Hbs Hl Hs Hd Hin. unfold decode_record.
  rewrite (load_block_ok h _ bs b blk) by done. cbn [mbind res_bind].
  rewrite in_buffer_ok by done. cbn [mbind res_bind]. rewrite Ha.
  unfold deref. destruct (Z.eqb_spec a NULL); [done|]. rewrite Hl. simpl.
  unfold update. destruct (Z.leb_spec 0 s); [|lia].
  by destruct (Z.ltb_spec s (Z.of_nat (length l))); [|lia].
Qed.

Lemma decode_record_caps data resp b len bs blk a l s d h :
  blocks resp <> NULL -> 0 <= b -> bs !! Z.to_nat b = Some blk ->
  array_of caps_t blk = a -> a <> NULL ->
  objs h !! blocks resp = Some (Blocks bs) ->
  objs h !! a = Some (Caps l) ->
  0 <= s < Z.of_nat (length l) ->
  0 <= d -> d + record_size caps_t <= OCC_DATA_MAX ->
  decode_record data resp caps_t b len s (d, h)
  = Ok (d + len, assign h a (Caps (<[Z.to_nat s := decode_caps_sensor data d]> l))).
Proof.
  intros Hp Hb Hblk Ha Hane Hbs Hl Hs Hd Hin. unfold decode_record.
  rewrite (load_block_ok h _ bs b blk) by done. cbn [mbind res_bind].
  rewrite in_buffer_ok by done. cbn [mbind res_bind]. rewrite Ha.
  unfold deref. destruct (Z.eqb_spec a NULL); [done|]. rewrite Hl. simpl.
  unfold update. destruct (Z.leb_spec 0 s); [|lia].
  by destruct (Z.ltb_spec s (Z.of_nat (length l))); [|lia].
Qed.

Lemma decode_record_out data resp t b len bs blk s d h :
  blocks resp <> NULL -> 0 <= b -> bs !! Z.to_nat b = Some blk ->
  objs h !! blocks resp = Some (Blocks bs) ->
  OCC_DATA_MAX < d + record_size t ->
  decode_record data resp t b len s (d, h) = Fault OutOfBounds.
Proof.
  intros Hp Hb Hblk Hbs Hout. unfold decode_record.
  rewrite (load_block_ok h _ bs b blk) by done. cbn [mbind res_bind].
  by rewrite in_buffer_fault by lia.
Qed.

(** The whole record loop: an array of [num] records of the block's type is
    overwritten, record by record, with the records found at [dnum],
    [dnum + len], ...; the cursor ends [num * len] bytes further.  The
    records must lie inside the buffer; when the last one does not, the
    loop reads outside it. *)
Lemma decode_records data resp t b len num bs blk a o dnum h :
  blocks resp <> NULL -> 0 <= b -> bs !! Z.to_nat b = Some blk ->
  array_of t blk = a -> a <> NULL -> a <> blocks resp ->
  objs h !! blocks resp = Some (Blocks bs) ->
  objs h !! a = Some o ->
  0 <= num ->
  array_length t o = Some (Z.to_nat num) ->
  0 <= len -> 0 <= dnum ->
  (num <> 0 /\ OCC_DATA_MAX < dnum + (num - 1) * len + record_size t ->
   for_each (decode_record data resp t b len) (seqZ 0 num) (dnum, h) = Fault OutOfBounds)
  /\ (num = 0 \/ dnum + (num - 1) * len + record_size t <= OCC_DATA_MAX ->
      for_each (decode_record data resp t b len) (seqZ 0 num) (dnum, h)
      = Ok (dnum + num * len, assign h a (decoded_array t data dnum len num))).
Proof.
  intros Hp Hb Hblk Ha Hane Hab Hbs Ho Hnum Hlen Hl Hd.
  assert (forall l : list Z, True) as _ by done.
  destruct t, o as [?|l|l|l]; try done; simpl in Hlen; injection Hlen as Hlen.
  - pose proof (decode_loop _ (decode_occ_sensor data) Sensors data resp freq b len a bs
                  Hab Hl) as L.
    pose proof (decode_loop_out _ (decode_occ_sensor data) Sensors data resp freq b len a bs
                  Hab Hl) as F.
    assert (forall l s d h,
              objs h !! blocks resp = Some (Blocks bs) ->
              objs h !! a = Some (Sensors l) ->
              0 <= s < Z.of_nat (length l) ->
              0 <= d -> d + record_size freq <= OCC_DATA_MAX ->
              decode_record data resp freq b len s (d, h)
              = Ok (d + len, assign h a (Sensors (<[Z.to_nat s := decode_occ_sensor data d]> l))))
      as Hstep.
    { intros; by eapply decode_record_sensors; eauto. }
    specialize (L Hstep l [] dnum h Hbs Ho Hd).
    specialize (F Hstep (fun s d h Hbs Hout =>
      decode_record_out data resp freq b len bs blk s d h Hp Hb Hblk Hbs Hout)
      l [] dnum h Hbs Ho Hd).
    cbn [length app] in L, F. rewrite Hlen, Z2Nat.id in L, F by lia.
    change (Z.of_nat 0) with 0 in L, F.
    split.
    + intros [Hn Hout]. apply F; [|done]. intros ->. simpl in Hlen. lia.
    + intros Hin. apply L. intros Hne. destruct Hin as [-> | Hin]; [|done].
      destruct l; [done|]. simpl in Hlen. lia.
  - pose proof (decode_loop _ (decode_occ_sensor data) Sensors data resp temp b len a bs
                  Hab Hl) as L.
    pose proof (decode_loop_out _ (decode_occ_sensor data) Sensors data resp temp b len a bs
                  Hab Hl) as F.
    assert (forall l s d h,
              objs h !! blocks resp = Some (Blocks bs) ->
              objs h !! a = Some (Sensors l) ->
              0 <= s < Z.of_nat (length l) ->
              0 <= d -> d + record_size temp <= OCC_DATA_MAX ->
              decode_record data resp temp b len s (d, h)
              = Ok (d + len, assign h a (Sensors (<[Z.to_nat s := decode_occ_sensor data d]> l))))
      as Hstep.
    { intros; by eapply decode_record_sensors; eauto. }
    specialize (L Hstep l [] dnum h Hbs Ho Hd).
    specialize (F Hstep (fun s d h Hbs Hout =>
      decode_record_out data resp temp b len bs blk s d h Hp Hb Hblk Hbs Hout)
      l [] dnum h Hbs Ho Hd).
    cbn [length app] in L, F. rewrite Hlen, Z2Nat.id in L, F by lia.
    change (Z.of_nat 0) with 0 in L, F.
    split.
    + intros [Hn Hout]. apply F; [|done]. intros ->. simpl in Hlen. lia.
    + intros Hin. apply L. intros Hne. destruct Hin as [-> | Hin]; [|done].
      destruct l; [done|]. simpl in Hlen. lia.
  - pose proof (decode_loop _ (decode_power_sensor data) Powers data resp power_t b len a bs
                  Hab Hl) as L.
    pose proof (decode_loop_out _ (decode_power_sensor data) Powers data resp power_t b len a bs
                  Hab Hl) as F.
    assert (forall l s d h,
              objs h !! blocks resp = Some (Blocks bs) ->
              objs h !! a = Some (Powers l) ->
              0 <= s < Z.of_nat (length l) ->
              0 <= d -> d + record_size power_t <= OCC_DATA_MAX ->
              decode_record data resp power_t b len s (d, h)
              = Ok (d + len, assign h a (Powers (<[Z.to_nat s := decode_power_sensor data d]> l))))
      as Hstep.
    { intros; by eapply decode_record_powers; eauto. }
    specialize (L Hstep l [] dnum h Hbs Ho Hd).
    specialize (F Hstep (fun s d h Hbs Hout =>
      decode_record_out data resp power_t b len bs blk s d h Hp Hb Hblk Hbs Hout)
      l [] dnum h Hbs Ho Hd).
    cbn [length app] in L, F. rewrite Hlen, Z2Nat.id in L, F by lia.
    change (Z.of_nat 0) with 0 in L, F.
    split.
    + intros [Hn Hout]. apply F; [|done]. intros ->. simpl in Hlen. lia.
    + intros Hin. apply L. intros Hne. destruct Hin as [-> | Hin]; [|done].
      destruct l; [done|]. simpl in Hlen. lia.
  - pose proof (decode_loop _ (decode_caps_sensor data) Caps data resp caps_t b len a bs
                  Hab Hl) as L.
    pose proof (decode_loop_out _ (decode_caps_sensor data) Caps data resp caps_t b len a bs
                  Hab Hl) as F.
    assert (forall l s d h,
              objs h !! blocks resp = Some (Blocks bs) ->
              objs h !! a = Some (Caps l) ->
              0 <= s < Z.of_nat (length l) ->
              0 <= d -> d + record_size caps_t <= OCC_DATA_MAX ->
              decode_record data resp caps_t b len s (d, h)
              = Ok (d + len, assign h a (Caps (<[Z.to_nat s := decode_caps_sensor data d]> l))))
      as Hstep.
    { intros; by eapply decode_record_caps; eauto. }
    specialize (L Hstep l [] dnum h Hbs Ho Hd).
    specialize (F Hstep (fun s d h Hbs Hout =>
      decode_record_out data resp caps_t b len bs blk s d h Hp Hb Hblk Hbs Hout)
      l [] dnum h Hbs Ho Hd).
    cbn [length app] in L, F. rewrite Hlen, Z2Nat.id in L, F by lia.
    change (Z.of_nat 0) with 0 in L, F.
    split.
    + intros [Hn Hout]. apply F; [|done]. intros ->. simpl in Hlen. lia.
    + intros Hin. apply L. intros Hne. destruct Hin as [-> | Hin]; [|done].
      destruct l; [done|]. simpl in Hlen. lia.
Qed.

(** ** Decoding one block *)

Lemma lookup_ptr_ne (m : gmap Z object) (p q : ptr) o :
  m !! p = None -> m !! q = Some o -> p <> q.
Proof.
  intros Hp Hq E. cut (Some o = None); [discriminate|].
  rewrite <- Hq, <- Hp. by rewrite E.
Qed.

(** Renewal for a type that is absent: one allocation at the next address,
    stored in the block's slot. *)
Lemma renew_absent resp h len num t b bs blk q :
  num <> 0 -> len <> 0 ->
  occ_get_sensor_by_type resp h t = Ok NULL ->
  blocks resp <> NULL ->
  objs h !! blocks resp = Some (Blocks bs) ->
  0 <= b -> bs !! Z.to_nat b = Some blk ->
  quota h = S q -> below_brk h ->
  objs h !! Z.max 1 (brk h) = None
  /\ Z.max 1 (brk h) <> blocks resp
  /\ occ_renew_sensor resp h len num t b
     = Ok (0, resp,
           assign {| objs := <[Z.max 1 (brk h) := zero_array t num]> (objs h);
                     brk := Z.max 1 (brk h) + 1; quota := q |}
             (blocks resp) (Blocks (<[Z.to_nat b := set_array t blk (Z.max 1 (brk h))]> bs))).
Proof.
  intros Hnum Hlen Hget Hp Hbs Hb Hblk Hq Hbrk.
  set (p := Z.max 1 (brk h)).
  assert (objs h !! p = None) as Hfresh.
  { destruct (objs h !! p) as [o|] eqn:E; [|done].
    apply Hbrk in E. simpl in E. lia. }
  assert (p <> blocks resp) as Hpb by (by eapply lookup_ptr_ne).
  split; [done|]. split; [done|].
  unfold occ_renew_sensor. rewrite Hget. simpl.
  destruct (Z.eqb_spec num 0) as [|_]; [done|].
  destruct (Z.eqb_spec len 0) as [|_]; [done|]. simpl.
  unfold kcalloc. rewrite Hq. fold p.
  set (h1 := {| objs := <[p:=zero_array t num]> (objs h); brk := p + 1; quota := q |}).
  assert (objs h1 !! blocks resp = Some (Blocks bs)) as Hbs1.
  { simpl. by rewrite lookup_insert_ne. }
  rewrite (load_block_ok h1 _ bs b blk) by done. simpl.
  unfold store_block, deref. destruct (Z.eqb_spec (blocks resp) NULL) as [|_]; [done|].
  rewrite Hbs1. simpl. unfold update.
  apply lookup_lt_Some in Hblk as Hlt.
  destruct (Z.leb_spec 0 b); [|lia].
  destruct (Z.ltb_spec b (Z.of_nat (length bs))); [|lia]. simpl.
  destruct (Z.eqb_spec p NULL) as [E|_]; [unfold p, NULL in E; lia|]. done.
Qed.

Lemma byte_at_range data j : 0 <= byte_at data j < 256.
Proof.
  unfold byte_at. destruct (j <? 0); [lia|]. unfold u8. apply Z.mod_pos_bound. lia.
Qed.

Lemma reserved0_set_array t blk p : reserved0 (set_array t blk p) = reserved0 blk.
Proof. by destruct t. Qed.

Lemma sensor_t_of_tag_tag data dnum t :
  sensor_t_of_tag (strncpy (bytes_at data dnum 4) 4) = Some t ->
  strncpy (bytes_at data dnum 4) 4 = tag_of t.
Proof.
  intros Hd.
  apply (strncmp_eq 4); [apply length_strncpy|by destruct t| |].
  - apply tag_of_nonzero.
  - unfold sensor_t_of_tag in Hd.
    destruct (Z.eqb_spec (strncmp (strncpy (bytes_at data dnum 4) 4) str_FREQ 4) 0);
      [by injection Hd as <-|].
    destruct (Z.eqb_spec (strncmp (strncpy (bytes_at data dnum 4) 4) str_TEMP 4) 0);
      [by injection Hd as <-|].
    destruct (Z.eqb_spec (strncmp (strncpy (bytes_at data dnum 4) 4) str_POWR 4) 0);
      [by injection Hd as <-|].
    destruct (Z.eqb_spec (strncmp (strncpy (bytes_at data dnum 4) 4) str_CAPS 4) 0);
      [by injection Hd as <-|done].
Qed.

(** The tail of a turn of the block loop, once the block's array [p] is in
    place in slot [b]: the records are decoded into it and the block head
    is stored; when the records do not lie inside the buffer, the record
    loop reads outside it. *)
Lemma parse_block_fill data b dnum resp t bs blk p o h :
  sensor_t_of_tag (strncpy (bytes_at data dnum 4) 4) = Some t ->
  blocks resp <> NULL -> 0 <= b -> bs !! Z.to_nat b = Some blk ->
  array_of t blk = p -> p <> NULL -> p <> blocks resp ->
  objs h !! blocks resp = Some (Blocks bs) ->
  objs h !! p = Some o ->
  array_length t o = Some (Z.to_nat (byte_at data (dnum + 7))) ->
  0 <= dnum -> byte_at data (dnum + 7) <> 0 ->
  ('(dnum', h') ← for_each (decode_record data (set_block_id resp t b) t b
                              (byte_at data (dnum + 6)))
                     (seqZ 0 (byte_at data (dnum + 7))) (dnum + 8, h);
   blk' ← load_block h' (blocks (set_block_id resp t b)) b;
   h' ← store_block h' (blocks (set_block_id resp t b)) b
          {| sensor_type := strncpy (strncpy (bytes_at data dnum 4) 4) 4;
             reserved0 := reserved0 blk';
             sensor_format := byte_at data (dnum + 5);
             sensor_length := byte_at data (dnum + 6);
             num_of_sensors := byte_at data (dnum + 7);
             sensor := sensor blk'; power := power blk'; caps := caps blk' |};
   Ok (Next dnum' (set_block_id resp t b) h'))
  = if decide (dnum + 8 + (byte_at data (dnum + 7) - 1) * byte_at data (dnum + 6)
               + record_size t <= OCC_DATA_MAX)
    then
      Ok (Next (dnum + 8 + byte_at data (dnum + 7) * byte_at data (dnum + 6))
            (set_block_id resp t b)
            (assign (assign h p (decoded_array t data (dnum + 8) (byte_at data (dnum + 6))
                                   (byte_at data (dnum + 7))))
               (blocks resp)
               (Blocks (<[Z.to_nat b := decoded_block t data dnum blk (array_of t blk)]> bs))))
    else Fault OutOfBounds.
Proof.
  intros Hd Hp Hb Hblk Ha Hane Hab Hbs Ho Hlen Hdn Hn0.
  pose proof (byte_at_range data (dnum + 7)) as Hnum.
  pose proof (byte_at_range data (dnum + 6)) as Hl.
  rewrite (sensor_t_of_tag_tag _ _ _ Hd).
  assert (strncpy (tag_of t) 4 = tag_of t) as -> by (by destruct t).
  change (blocks (set_block_id resp t b)) with (blocks resp).
  destruct (decode_records data (set_block_id resp t b) t b (byte_at data (dnum + 6))
              (byte_at data (dnum + 7)) bs blk p o (dnum + 8) h) as [Fout Fin];
    try done; [lia..|].
  case_decide as Hin.
  2:{ rewrite Fout by (split; [done|lia]). done. }
  rewrite Fin by (right; lia).
  cbn [mbind res_bind].
  set (h1 := assign h p _).
  assert (objs h1 !! blocks resp = Some (Blocks bs)) as Hbs1.
  { unfold h1, assign. simpl. rewrite lookup_insert_ne; done. }
  rewrite (load_block_ok h1 _ bs b blk) by done. cbn [mbind res_bind].
  unfold store_block, deref. destruct (Z.eqb_spec (blocks resp) NULL) as [|_]; [done|].
  rewrite Hbs1. cbn [mbind res_bind]. unfold update.
  apply lookup_lt_Some in Hblk as Hlt.
  destruct (Z.leb_spec 0 b); [|lia].
  destruct (Z.ltb_spec b (Z.of_nat (length bs))); [|lia].
  cbn [andb mbind res_bind].
  do 4 f_equal.
  unfold decoded_block.
  destruct blk, t; simpl in *; subst; reflexivity.
Qed.

Lemma set_array_idem t blk p q : set_array t (set_array t blk q) p = set_array t blk p.
Proof. by destruct t. Qed.

Lemma decoded_block_set_array t data dnum blk p q :
  decoded_block t data dnum (set_array t blk q) p = decoded_block t data dnum blk p.
Proof. by destruct t. Qed.

Lemma array_length_zero_array t num :
  array_length t (zero_array t num) = Some (Z.to_nat num).
Proof. destruct t; simpl; by rewrite length_replicate. Qed.

(** A turn of the block loop for a type that is absent: with the block
    inside the buffer, the heap it leaves written out; otherwise a read
    outside the buffer. *)
Lemma parse_block_new data b dnum resp h t bs blk q :
  sensor_t_of_tag (strncpy (bytes_at data dnum 4) 4) = Some t ->
  byte_at data (dnum + 7) <> 0 -> byte_at data (dnum + 6) <> 0 ->
  occ_get_sensor_by_type resp h t = Ok NULL ->
  blocks resp <> NULL ->
  objs h !! blocks resp = Some (Blocks bs) ->
  0 <= b -> bs !! Z.to_nat b = Some blk ->
  quota h = S q -> below_brk h ->
  objs h !! Z.max 1 (brk h) = None
  /\ Z.max 1 (brk h) <> blocks resp
  /\ (~ block_in_buffer t dnum (byte_at data (dnum + 6)) (byte_at data (dnum + 7)) ->
      parse_block data b dnum resp h = Fault OutOfBounds)
  /\ (block_in_buffer t dnum (byte_at data (dnum + 6)) (byte_at data (dnum + 7)) ->
      parse_block data b dnum resp h
      = Ok (Next (dnum + 8 + byte_at data (dnum + 7) * byte_at data (dnum + 6))
              (set_block_id resp t b)
              {| objs :=
                   <[blocks resp :=
                       Blocks (<[Z.to_nat b := decoded_block t data dnum blk (Z.max 1 (brk h))]> bs)]>
                     (<[Z.max 1 (brk h) :=
                          decoded_array t data (dnum + 8) (byte_at data (dnum + 6))
                            (byte_at data (dnum + 7))]> (objs h));
                 brk := Z.max 1 (brk h) + 1; quota := q |})).
Proof.
  intros Hd Hnum Hlen Hget Hp Hbs Hb Hblk Hq Hbrk.
  destruct (renew_absent resp h (byte_at data (dnum + 6)) (byte_at data (dnum + 7))
              t b bs blk q) as (Hfresh & Hpb & Hrenew); try done.
  split; [done|]. split; [done|].
  set (p := Z.max 1 (brk h)) in *.
  assert (p <> NULL) as Hp0 by (unfold p, NULL; lia).
  apply lookup_lt_Some in Hblk as Hlt.
  assert (forall H0 : 0 <= dnum, dnum + 8 <= OCC_DATA_MAX ->
            parse_block data b dnum resp h
            = if decide (dnum + 8 + (byte_at data (dnum + 7) - 1) * byte_at data (dnum + 6)
                         + record_size t <= OCC_DATA_MAX)
              then Ok (Next (dnum + 8 + byte_at data (dnum + 7) * byte_at data (dnum + 6))
                         (set_block_id resp t b)
                         {| objs :=
                              <[blocks resp :=
                                  Blocks (<[Z.to_nat b := decoded_block t data dnum blk p]> bs)]>
                                (<[p := decoded_array t data (dnum + 8) (byte_at data (dnum + 6))
                                          (byte_at data (dnum + 7))]> (objs h));
                            brk := p + 1; quota := q |})
              else Fault OutOfBounds) as Hpb'.
  { intros H0 H8. unfold parse_block. rewrite in_buffer_ok by done.
    cbn [mbind res_bind]. cbv zeta. rewrite Hd, Hrenew. cbn [mbind res_bind].
    change (negb (0 =? 0)) with false. cbv iota.
    erewrite (parse_block_fill data b dnum resp t (<[Z.to_nat b := set_array t blk p]> bs)
                (set_array t blk p) p (zero_array t _)).
    - case_decide; [|done].
      do 2 f_equal. unfold assign. cbn [objs brk quota].
      rewrite array_of_set_array, decoded_block_set_array, list_insert_insert_eq.
      f_equal. apply map_eq. intros k.
      destruct (decide (k = blocks resp)) as [->|Hk1].
      { by rewrite !lookup_insert_eq. }
      destruct (decide (k = p)) as [->|Hk2].
      { rewrite !(lookup_insert_ne _ (blocks resp)) by (intros E; apply Hk1; symmetry; exact E).
        by rewrite !lookup_insert_eq. }
      repeat first
        [ rewrite (lookup_insert_ne _ (blocks resp)) by (intros E; apply Hk1; symmetry; exact E)
        | rewrite (lookup_insert_ne _ p) by (intros E; apply Hk2; symmetry; exact E) ].
      done.
    - done.
    - done.
    - done.
    - apply list_lookup_insert_eq. lia.
    - apply array_of_set_array.
    - done.
    - done.
    - unfold assign. cbn [objs]. by rewrite lookup_insert_eq.
    - unfold assign. cbn [objs]. rewrite lookup_insert_ne by done. by rewrite lookup_insert_eq.
    - apply array_length_zero_array.
    - done.
    - done. }
  split.
  - intros Hout. unfold block_in_buffer in Hout.
    destruct (Z.lt_ge_cases dnum 0) as [Hneg|H0].
    { unfold parse_block. by rewrite in_buffer_fault by lia. }
    destruct (Z.lt_ge_cases OCC_DATA_MAX (dnum + 8)) as [Hbig|H8].
    { unfold parse_block. by rewrite in_buffer_fault by lia. }
    rewrite Hpb' by lia. case_decide as Hin; [|done]. destruct Hout. lia.
  - intros (H0 & H8 & Hin). rewrite Hpb' by lia.
    case_decide as Hin'; [done|]. specialize (Hin Hnum). lia.
Qed.

Lemma below_brk_entry_state data : below_brk (entry_state data).2.
Proof.
  unfold below_brk, entry_state. simpl.
  apply map_Forall_insert_2; [lia | apply map_Forall_empty].
Qed.

(** X8.  A block of a type the snapshot does not hold yet, with non-zero
    count and record length, that lies inside the response buffer: the loop
    body allocates a fresh array, fills it with the [num] records decoded at
    [dnum + 8], [dnum + 8 + len], ..., writes the block head, records the
    block index for the type, advances [dnum] past the block and leaves
    every other allocation alone. *)
Theorem parse_block_decodes (data : list Z) (b dnum : Z) (resp : occ_response) (h : heap)
    (t : sensor_t) (bs : list sensor_data_block) (blk : sensor_data_block) :
  sensor_t_of_tag (strncpy (bytes_at data dnum 4) 4) = Some t ->
  byte_at data (dnum + 7) <> 0 -> byte_at data (dnum + 6) <> 0 ->
  occ_get_sensor_by_type resp h t = Ok NULL ->
  blocks resp <> NULL ->
  objs h !! blocks resp = Some (Blocks bs) ->
  0 <= b -> bs !! Z.to_nat b = Some blk ->
  quota h <> 0%nat -> below_brk h ->
  block_in_buffer t dnum (byte_at data (dnum + 6)) (byte_at data (dnum + 7)) ->
  exists p h',
    parse_block data b dnum resp h
    = Ok (Next (dnum + 8 + byte_at data (dnum + 7) * byte_at data (dnum + 6))
            (set_block_id resp t b) h')
    /\ p <> NULL /\ objs h !! p = None
    /\ objs h' !! p
       = Some (decoded_array t data (dnum + 8) (byte_at data (dnum + 6))
                 (byte_at data (dnum + 7)))
    /\ objs h' !! blocks resp
       = Some (Blocks (<[Z.to_nat b := decoded_block t data dnum blk p]> bs))
    /\ forall k, k <> p -> k <> blocks resp -> objs h' !! k = objs h !! k.
Proof.
  intros Hd Hnum Hlen Hget Hp Hbs Hb Hblk Hq Hbrk Hin.
  destruct (quota h) as [|q] eqn:Eq; [done|].
  destruct (parse_block_new data b dnum resp h t bs blk q) as (Hfresh & Hpb & _ & Hok);
    try done.
  rewrite (Hok Hin).
  eexists (Z.max 1 (brk h)), _. split; [reflexivity|].
  split; [unfold NULL; lia|]. split; [done|]. cbn [objs].
  split; [by rewrite lookup_insert_ne, lookup_insert_eq|].
  split; [by rewrite lookup_insert_eq|].
  intros k Hk1 Hk2.
  rewrite lookup_insert_ne by (intros E; apply Hk2; symmetry; exact E).
  rewrite lookup_insert_ne by (intros E; apply Hk1; symmetry; exact E). done.
Qed.

Lemma parse_block_decodes_witness :
  exists p h',
    parse_block (reply_freq 4 2 [0; 1; 0; 100; 0; 2; 0; 200]) 0 SENSOR_BLOCK_OFFSET
      (entry_state (reply_freq 4 2 [0; 1; 0; 100; 0; 2; 0; 200])).1
      (entry_state (reply_freq 4 2 [0; 1; 0; 100; 0; 2; 0; 200])).2
    = Ok (Next (SENSOR_BLOCK_OFFSET + 16)
            (set_block_id (entry_state (reply_freq 4 2 [0; 1; 0; 100; 0; 2; 0; 200])).1
               freq 0) h')
    /\ objs h' !! p
       = Some (Sensors [{| sensor_id := 1; value := 100 |};
                        {| sensor_id := 2; value := 200 |}]).
Proof.
  set (data := reply_freq 4 2 [0; 1; 0; 100; 0; 2; 0; 200]).
  destruct (parse_block_decodes data 0 SENSOR_BLOCK_OFFSET (entry_state data).1
              (entry_state data).2 freq [zero_block] zero_block)
    as (p & h' & Hpb & _ & _ & Hp & _);
    [reflexivity | by vm_compute | by vm_compute | reflexivity | by vm_compute
    | reflexivity | lia | reflexivity | by vm_compute | apply below_brk_entry_state
    | vm_compute; repeat split; intros; discriminate |].
  exists p, h'. split; [exact Hpb | exact Hp].
Defined.

Lemma set_block_id_same resp t b : block_id resp t = b -> set_block_id resp t b = resp.
Proof. intros <-. by destruct resp, t. Qed.

(** X9.  A block, lying inside the response buffer, of a type already held
    in the same slot with the same count: nothing is allocated or freed,
    the response state is unchanged, and the existing array is overwritten
    in place with the records of the new reply. *)
Theorem parse_block_overwrites (data : list Z) (b dnum : Z) (resp : occ_response)
    (h : heap) (t : sensor_t) (bs : list sensor_data_block) (blk : sensor_data_block)
    (p : ptr) (o : object) :
  sensor_t_of_tag (strncpy (bytes_at data dnum 4) 4) = Some t ->
  byte_at data (dnum + 7) <> 0 -> byte_at data (dnum + 6) <> 0 ->
  blocks resp <> NULL ->
  objs h !! blocks resp = Some (Blocks bs) ->
  0 <= b -> bs !! Z.to_nat b = Some blk ->
  block_id resp t = b ->
  array_of t blk = p -> p <> NULL -> p <> blocks resp ->
  num_of_sensors blk = byte_at data (dnum + 7) ->
  objs h !! p = Some o ->
  array_length t o = Some (Z.to_nat (byte_at data (dnum + 7))) ->
  block_in_buffer t dnum (byte_at data (dnum + 6)) (byte_at data (dnum + 7)) ->
  exists h',
    parse_block data b dnum resp h
    = Ok (Next (dnum + 8 + byte_at data (dnum + 7) * byte_at data (dnum + 6)) resp h')
    /\ brk h' = brk h /\ quota h' = quota h
    /\ objs h' !! p
       = Some (decoded_array t data (dnum + 8) (byte_at data (dnum + 6))
                 (byte_at data (dnum + 7)))
    /\ objs h' !! blocks resp
       = Some (Blocks (<[Z.to_nat b := decoded_block t data dnum blk p]> bs))
    /\ forall k, k <> p -> k <> blocks resp -> objs h' !! k = objs h !! k.
Proof.
  intros Hd Hnum Hlen Hp Hbs Hb Hblk Hid Ha Hp0 Hpb Hcount Ho Hal (H0 & H8 & Hin).
  assert (load_block h (blocks resp) (block_id resp t) = Ok blk) as Hload.
  { rewrite Hid. by apply (load_block_ok h _ bs). }
  assert (occ_get_sensor_by_type resp h t = Ok p) as Hget.
  { unfold occ_get_sensor_by_type.
    destruct (Z.eqb_spec (blocks resp) NULL) as [|_]; [done|].
    destruct (Z.eqb_spec (block_id resp t) (-1)) as [E|_]; [lia|].
    rewrite Hload. simpl. by rewrite Ha. }
  pose proof (renew_keeps resp h (byte_at data (dnum + 6)) (byte_at data (dnum + 7))
                t b p blk Hnum Hlen Hget Hp0 Hload Hcount) as Hrenew.
  unfold parse_block. rewrite in_buffer_ok by done. cbn [mbind res_bind].
  cbv zeta. rewrite Hd, Hrenew. cbn [mbind res_bind].
  change (negb (0 =? 0)) with false. cbv iota.
  rewrite (parse_block_fill data b dnum resp t bs blk p o) by done.
  specialize (Hin Hnum). case_decide; [|lia].
  rewrite (set_block_id_same resp t b Hid), Ha.
  eexists. split; [reflexivity|]. unfold assign. cbn [objs brk quota].
  split; [done|]. split; [done|].
  split; [rewrite lookup_insert_ne by (intros E; apply Hpb; symmetry; exact E);
          by rewrite lookup_insert_eq|].
  split; [by rewrite lookup_insert_eq|].
  intros k Hk1 Hk2.
  rewrite lookup_insert_ne by (intros E; apply Hk2; symmetry; exact E).
  rewrite lookup_insert_ne by (intros E; apply Hk1; symmetry; exact E). done.
Qed.

Lemma parse_block_overwrites_witness :
  exists h',
    parse_block (reply_freq 4 2 [0; 1; 0; 111; 0; 2; 0; 222]) 0 SENSOR_BLOCK_OFFSET
      snapshot_freq2.1 snapshot_freq2.2
    = Ok (Next (SENSOR_BLOCK_OFFSET + 16) snapshot_freq2.1 h')
    /\ objs h' !! 2
       = Some (Sensors [{| sensor_id := 1; value := 111 |};
                        {| sensor_id := 2; value := 222 |}]).
Proof.
  set (data := reply_freq 4 2 [0; 1; 0; 111; 0; 2; 0; 222]).
  edestruct (parse_block_overwrites data 0 SENSOR_BLOCK_OFFSET snapshot_freq2.1
               snapshot_freq2.2 freq) as (h' & Hpb & _ & _ & Hp & _);
    [reflexivity | by vm_compute | by vm_compute | by vm_compute
    | vm_compute; reflexivity | lia | vm_compute; reflexivity | reflexivity
    | vm_compute; reflexivity | by vm_compute | by vm_compute | reflexivity
    | vm_compute; reflexivity | reflexivity
    | vm_compute; repeat split; intros; discriminate |].
  exists h'. split; [exact Hpb | exact Hp].
Defined.

(** Decoding undoes the byte image of a list of records. *)
Lemma decode_encode_sensor (pre rest : list Z) (r : occ_sensor) :
  occ_sensor_in_range r ->
  decode_occ_sensor (pre ++ encode_occ_sensor r ++ rest) (Z.of_nat (length pre)) = r.
Proof.
  intros [Hid Hv]. destruct r as [id v]. simpl in Hid, Hv.
  unfold decode_occ_sensor, be16_to_cpup.
  rewrite !(byte_at_app_r pre) by lia.
  replace (Z.of_nat (length pre) - Z.of_nat (length pre)) with 0 by lia.
  replace (Z.of_nat (length pre) + 1 - Z.of_nat (length pre)) with 1 by lia.
  replace (Z.of_nat (length pre) + 2 - Z.of_nat (length pre)) with 2 by lia.
  replace (Z.of_nat (length pre) + 2 + 1 - Z.of_nat (length pre)) with 3 by lia.
  unfold encode_occ_sensor, byte_at. simpl. unfold u8. f_equal.
  - change (2 ^ 8) with 256. Z.div_mod_to_equations. lia.
  - change (2 ^ 8) with 256. Z.div_mod_to_equations. lia.
Qed.

Lemma decode_encode_list (rs : list occ_sensor) : forall pre : list Z,
  Forall occ_sensor_in_range rs ->
  decode_list (decode_occ_sensor (pre ++ concat (map encode_occ_sensor rs)))
    (Z.of_nat (length pre)) 4 (length rs) = rs.
Proof.
  induction rs as [|r rs IH]; intros pre Hok; [done|].
  apply Forall_cons in Hok as [Hr Hok]. simpl. f_equal.
  - exact (decode_encode_sensor pre _ r Hr).
  - specialize (IH (pre ++ encode_occ_sensor r) Hok).
    rewrite length_app in IH. simpl in IH.
    rewrite Nat2Z.inj_add in IH. simpl in IH.
    rewrite <- app_assoc in IH. exact IH.
Qed.

(** ** Round trip *)

Lemma u8_small x : 0 <= x < 256 -> u8 x = x.
Proof. intros. unfold u8. apply Z.mod_small. lia. Qed.

(** X10.  Round trip through the parser: the big-endian image of any
    non-empty list of at most 255 frequency records, sent as the only block
    of a reply, is parsed from the initial state into exactly that list;
    the frequency index is 0, the other indices stay -1, and the resulting
    state owns its storage. *)
Theorem freq_round_trip (rs : list occ_sensor) (q : nat) :
  rs <> [] -> (length rs <= 255)%nat -> Forall occ_sensor_in_range rs ->
  exists resp' h',
    parse_occ_response
      (reply_freq 4 (Z.of_nat (length rs)) (concat (map encode_occ_sensor rs)))
      fresh_response (empty_heap (S (S q))) = Ok (0, resp', h')
    /\ occ_get_sensor_by_type resp' h' freq = Ok 2
    /\ objs h' !! 2 = Some (Sensors rs)
    /\ block_id resp' freq = 0
    /\ (forall t, t <> freq -> block_id resp' t = -1)
    /\ owns_storage resp' h' = true.
Proof.
  intros Hne Hlen Hok.
  set (n := Z.of_nat (length rs)).
  assert (0 < n <= 255) as Hn.
  { unfold n. destruct rs; [done|]. simpl length in *. lia. }
  set (data := reply_freq 4 n (concat (map encode_occ_sensor rs))).
  assert (byte_at data (SENSOR_BLOCK_OFFSET + 7) = n) as Hnum.
  { unfold data, reply_freq, byte_at. simpl. by apply u8_small; lia. }
  assert (byte_at data (SENSOR_BLOCK_OFFSET + 6) = 4) as Hl4 by reflexivity.
  set (resp0 := set_header (set_blocks fresh_response 1) (read_header data)).
  set (h0 := {| objs := <[1 := Blocks [zero_block]]> (∅ : gmap Z object);
                brk := 2; quota := S q |}).
  assert (parse_occ_response data fresh_response (empty_heap (S (S q)))
          = parse_blocks data (seqZ 0 1) SENSOR_BLOCK_OFFSET resp0 h0) as ->.
  { reflexivity. }
  unfold parse_blocks. change (seqZ 0 1) with [0]. cbn [run_turns].
  destruct (parse_block_new data 0 SENSOR_BLOCK_OFFSET resp0 h0 freq [zero_block]
              zero_block q) as (_ & _ & _ & Hpb).
  - reflexivity.
  - rewrite Hnum. lia.
  - rewrite Hl4. lia.
  - reflexivity.
  - done.
  - reflexivity.
  - lia.
  - reflexivity.
  - reflexivity.
  - unfold below_brk, h0. cbn [objs brk].
    apply map_Forall_insert_2; [lia|]. apply map_Forall_empty.
  - rewrite Hpb.
    2:{ rewrite Hnum, Hl4. unfold block_in_buffer, SENSOR_BLOCK_OFFSET, OCC_DATA_MAX.
        simpl record_size. lia. }
    cbn [mbind res_bind]. eexists _, _. split; [reflexivity|].
    rewrite Hnum, Hl4.
    assert (decoded_array freq data (SENSOR_BLOCK_OFFSET + 8) 4 n = Sensors rs) as Hdec.
    { unfold decoded_array, n. rewrite Nat2Z.id. f_equal.
      exact (decode_encode_list rs (reply_prefix 64 1 ++ block_head str_FREQ 4 n) Hok). }
    rewrite Hdec. cbn [objs brk quota resp0 h0 blocks set_header set_blocks set_block_id].
    split; [reflexivity|]. split; [reflexivity|]. split; [reflexivity|].
    split; [by intros []|]. reflexivity.
Qed.

Lemma freq_round_trip_witness :
  exists resp' h',
    parse_occ_response
      (reply_freq 4 2 [0; 1; 0; 100; 0; 2; 0; 200])
      fresh_response (empty_heap 2) = Ok (0, resp', h')
    /\ occ_get_sensor_by_type resp' h' freq = Ok 2
    /\ objs h' !! 2 = Some (Sensors [{| sensor_id := 1; value := 100 |};
                                     {| sensor_id := 2; value := 200 |}])
    /\ block_id resp' freq = 0
    /\ (forall t, t <> freq -> block_id resp' t = -1)
    /\ owns_storage resp' h' = true.
Proof.
  apply (freq_round_trip [{| sensor_id := 1; value := 100 |};
                          {| sensor_id := 2; value := 200 |}] 0);
    [done | simpl; lia | repeat constructor; simpl; lia].
Defined.

(** ** The cache and the readers *)

Lemma time_after_within (j l i : Z) :
  0 <= i -> ulong (j - l) <= i < 2 ^ 31 ->
  time_after (ulong j) (ulong (l + i)) = false.
Proof.
  unfold time_after, ulong, BITS_PER_LONG. change (2 ^ 32) with 4294967296.
  change (2 ^ (32 - 1)) with 2147483648. change (2 ^ 31) with 2147483648.
  intros Hi He. apply Z.leb_gt. Z.div_mod_to_equations. lia.
Qed.

Lemma time_after_beyond (j l i : Z) :
  0 <= i -> i < ulong (j - l) <= i + 2 ^ 31 ->
  time_after (ulong j) (ulong (l + i)) = true.
Proof.
  unfold time_after, ulong, BITS_PER_LONG. change (2 ^ 32) with 4294967296.
  change (2 ^ (32 - 1)) with 2147483648. change (2 ^ 31) with 2147483648.
  intros Hi He. apply Z.leb_le. Z.div_mod_to_equations. lia.
Qed.

Lemma ulong_sub_ulong a b : ulong (a - ulong b) = ulong (a - b).
Proof.
  unfold ulong, BITS_PER_LONG. change (2 ^ 32) with 4294967296.
  Z.div_mod_to_equations. lia.
Qed.

Section Readers.
Context {W : Type} `{Platform W}.

(** X11.  After a successful refresh the cache is served until the update
    interval has passed: a call no more than [update_interval] ticks later
    does no bus traffic and changes nothing; once more ticks have passed
    (up to the wrap-around window of [time_after]) a refresh is due. *)
Theorem refresh_once_per_interval (w w1 w2 : W) (data data1 : occ_drv_data) (h h1 : heap) :
  refresh_due w data = true ->
  occ_update_device w data h = Ok (w1, 0, data1, h1) ->
  0 <= update_interval data < 2 ^ 31 ->
  (ulong (jiffies w2 - jiffies w1) <= update_interval data ->
   occ_update_device w2 data1 h1 = Ok (w2, 0, data1, h1))
  /\ (update_interval data < ulong (jiffies w2 - jiffies w1) <= update_interval data + 2 ^ 31 ->
      refresh_due w2 data1 = true).
Proof.
  intros Hdue Hup Hi. unfold occ_update_device in Hup. rewrite Hdue in Hup.
  destruct (occ_get_all w _ h) as [[[[w' ret] resp] h']|]; [|done].
  simpl in Hup. destruct (Z.eqb_spec ret 0) as [->|]; simpl in Hup.
  2:{ injection Hup as _ Hr _ _. done. }
  injection Hup as -> <- <-.
  split.
  - intros He. unfold occ_update_device, refresh_due. simpl.
    rewrite time_after_within; [done|lia|]. rewrite ulong_sub_ulong. lia.
  - intros He. unfold refresh_due. simpl.
    rewrite time_after_beyond; [done|lia|]. rewrite ulong_sub_ulong. lia.
Qed.

(** X12.  A read served from a valid cache inside the interval does no bus
    traffic and prints the fields of record [n] of the current snapshot:
    the temperature scaled to millidegrees, the frequency as it is, the
    labels as the sensor ids. *)
Theorem cached_reading (w : W) (data : occ_drv_data) (h : heap) (p : ptr)
    (l : list occ_sensor) (s : occ_sensor) (n : Z) (t : sensor_t) :
  refresh_due w data = false ->
  t = temp \/ t = freq ->
  occ_get_sensor_by_type (occ_resp data) h t = Ok p ->
  p <> NULL ->
  objs h !! p = Some (Sensors l) ->
  0 <= n -> l !! Z.to_nat n = Some s ->
  (t = temp ->
   show_occ_temp_input w data h n = Ok (w, value s * 1000, data, h)
   /\ show_occ_temp_label w data h n = Ok (w, sensor_id s, data, h))
  /\ (t = freq ->
      show_occ_freq_input w data h n = Ok (w, value s, data, h)
      /\ show_occ_freq_label w data h n = Ok (w, sensor_id s, data, h)).
Proof.
  intros Hdue Ht Hget Hp Hl Hn Hs.
  assert (occ_get_sensor w data h t = Ok (w, p, data, h)) as Hgs.
  { unfold occ_get_sensor, occ_update_device. rewrite Hdue. simpl. by rewrite Hget. }
  assert (sensor_at h p n = Ok s) as Hat.
  { unfold sensor_at, deref. destruct (Z.eqb_spec p NULL); [done|]. rewrite Hl. simpl.
    unfold index. destruct (Z.ltb_spec n 0); [lia|]. by rewrite Hs. }
  split; intros ->;
    unfold show_occ_temp_input, show_occ_temp_label, show_occ_freq_input,
      show_occ_freq_label; rewrite Hgs; simpl;
    destruct (Z.eqb_spec p NULL); try done; by rewrite Hat.
Qed.

(** X13.  Each reader prints -1 when no array is handed to it: after a
    failed refresh, or when the snapshot holds no block of the type that
    reader reads, whatever other types it holds. *)
Theorem readers_print_minus_one (w w' : W) (data data' : occ_drv_data) (h h' : heap)
    (ret n nr : Z) :
  occ_update_device w data h = Ok (w', ret, data', h') ->
  (ret <> 0 \/ occ_get_sensor_by_type (occ_resp data') h' temp = Ok NULL ->
   show_occ_temp_input w data h n = Ok (w', -1, data', h')
   /\ show_occ_temp_label w data h n = Ok (w', -1, data', h'))
  /\ (ret <> 0 \/ occ_get_sensor_by_type (occ_resp data') h' power_t = Ok NULL ->
      show_occ_power_label w data h n = Ok (w', -1, data', h')
      /\ show_occ_power_input w data h n = Ok (w', -1, data', h'))
  /\ (ret <> 0 \/ occ_get_sensor_by_type (occ_resp data') h' freq = Ok NULL ->
      show_occ_freq_label w data h n = Ok (w', -1, data', h')
      /\ show_occ_freq_input w data h n = Ok (w', -1, data', h'))
  /\ (ret <> 0 \/ occ_get_sensor_by_type (occ_resp data') h' caps_t = Ok NULL ->
      show_occ_caps w data h nr n = Ok (w', -1, data', h')).
Proof.
  intros Hup.
  assert (forall t,
            ret <> 0 \/ occ_get_sensor_by_type (occ_resp data') h' t = Ok NULL ->
            occ_get_sensor w data h t = Ok (w', NULL, data', h')) as Hgs.
  { intros t Hcase. unfold occ_get_sensor. rewrite Hup. simpl.
    destruct (Z.eqb_spec ret 0) as [->|]; [|done]. simpl.
    destruct Hcase as [|Hnone]; [done|]. by rewrite Hnone. }
  unfold show_occ_temp_input, show_occ_temp_label, show_occ_power_label,
    show_occ_power_input, show_occ_freq_label, show_occ_freq_input, show_occ_caps.
  split; [|split; [|split]]; intros Hcase; rewrite !(Hgs _ Hcase); done.
Qed.
End Readers.

Lemma refresh_once_per_interval_witness :
  occ_update_device sim_freq2 drv_0 (empty_heap 8)
  = Ok (sim_idle 5000, 0, drv_freq2, snapshot_freq2.2)
  /\ occ_update_device (sim_idle 5900) drv_freq2 snapshot_freq2.2
     = Ok (sim_idle 5900, 0, drv_freq2, snapshot_freq2.2)
  /\ refresh_due (sim_idle 6001) drv_freq2 = true.
Proof.
  assert (0 <= update_interval drv_0 < 2 ^ 31) as Hi by (simpl; lia).
  assert (ulong (jiffies (sim_idle 5900) - jiffies (sim_idle 5000)) <= update_interval drv_0)
    as Hin by (vm_compute; discriminate).
  assert (update_interval drv_0 < ulong (jiffies (sim_idle 6001) - jiffies (sim_idle 5000))
          <= update_interval drv_0 + 2 ^ 31) as Hout
    by (vm_compute; split; [reflexivity | discriminate]).
  assert (refresh_due sim_freq2 drv_0 = true) as Hdue by reflexivity.
  assert (occ_update_device sim_freq2 drv_0 (empty_heap 8)
          = Ok (sim_idle 5000, 0, drv_freq2, snapshot_freq2.2)) as Hup
    by (vm_compute; reflexivity).
  split; [exact Hup|]. split.
  - exact (proj1 (refresh_once_per_interval sim_freq2 (sim_idle 5000) (sim_idle 5900)
                    drv_0 drv_freq2 (empty_heap 8) snapshot_freq2.2 Hdue Hup Hi) Hin).
  - exact (proj2 (refresh_once_per_interval sim_freq2 (sim_idle 5000) (sim_idle 6001)
                    drv_0 drv_freq2 (empty_heap 8) snapshot_freq2.2 Hdue Hup Hi) Hout).
Defined.

Lemma cached_reading_witness :
  show_occ_freq_input (sim_idle 5900) drv_freq2 snapshot_freq2.2 1
  = Ok (sim_idle 5900, 200, drv_freq2, snapshot_freq2.2)
  /\ show_occ_freq_label (sim_idle 5900) drv_freq2 snapshot_freq2.2 1
     = Ok (sim_idle 5900, 2, drv_freq2, snapshot_freq2.2).
Proof.
  assert (freq = temp \/ freq = freq) as Ht by (right; reflexivity).
  assert ((2 : ptr) <> NULL) as Hp by (unfold NULL; lia).
  assert (0 <= 1) as Hn by lia.
  assert (refresh_due (sim_idle 5900) drv_freq2 = false) as Hdue
    by (vm_compute; reflexivity).
  assert (occ_get_sensor_by_type (occ_resp drv_freq2) snapshot_freq2.2 freq = Ok 2) as Hget
    by (vm_compute; reflexivity).
  assert (objs snapshot_freq2.2 !! (2 : ptr)
          = Some (Sensors [{| sensor_id := 1; value := 100 |};
                           {| sensor_id := 2; value := 200 |}])) as Ho
    by (vm_compute; reflexivity).
  exact (proj2 (cached_reading (sim_idle 5900) drv_freq2 snapshot_freq2.2 2
                  [{| sensor_id := 1; value := 100 |}; {| sensor_id := 2; value := 200 |}]
                  {| sensor_id := 2; value := 200 |} 1 freq
                  Hdue Ht Hget Hp Ho Hn eq_refl) eq_refl).
Defined.

(** After a failed refresh the temperature reader prints -1; so it does
    from the valid snapshot that holds frequency records only, and so does
    the reader of the power caps. *)
Lemma readers_print_minus_one_witness :
  show_occ_temp_input dead_0 drv_0 (empty_heap 8) 0
  = Ok ({| attempts := 8; ticks := 5000 |}, -1, drv_failed, empty_heap 8)
  /\ show_occ_temp_input (sim_idle 5900) drv_freq2 snapshot_freq2.2 0
     = Ok (sim_idle 5900, -1, drv_freq2, snapshot_freq2.2)
  /\ show_occ_caps (sim_idle 5900) drv_freq2 snapshot_freq2.2 3 0
     = Ok (sim_idle 5900, -1, drv_freq2, snapshot_freq2.2).
Proof.
  assert (- EINVAL <> 0) as Hret by (unfold EINVAL; lia).
  assert (occ_get_sensor_by_type (occ_resp drv_freq2) snapshot_freq2.2 temp = Ok NULL)
    as Htemp by (vm_compute; reflexivity).
  assert (occ_get_sensor_by_type (occ_resp drv_freq2) snapshot_freq2.2 caps_t = Ok NULL)
    as Hcaps by (vm_compute; reflexivity).
  assert (occ_update_device (sim_idle 5900) drv_freq2 snapshot_freq2.2
          = Ok (sim_idle 5900, 0, drv_freq2, snapshot_freq2.2)) as Hhit
    by (vm_compute; reflexivity).
  assert (occ_update_device dead_0 drv_0 (empty_heap 8)
          = Ok ({| attempts := 8; ticks := 5000 |}, - EINVAL, drv_failed, empty_heap 8))
    as Hup by (vm_compute; reflexivity).
  split; [|split].
  - exact (proj1 (proj1 (readers_print_minus_one dead_0 _ drv_0 _ (empty_heap 8) _ _ 0 3 Hup)
                    (or_introl Hret))).
  - exact (proj1 (proj1 (readers_print_minus_one (sim_idle 5900) _ drv_freq2 _
                           snapshot_freq2.2 _ _ 0 3 Hhit)
                    (or_intror Htemp))).
  - exact (proj2 (proj2 (proj2 (readers_print_minus_one (sim_idle 5900) _ drv_freq2 _
                                  snapshot_freq2.2 _ _ 0 3 Hhit)))
             (or_intror Hcaps)).
Defined.

(** ** Teardown and allocation failure *)

Lemma deinit_result p h p' h' :
  deinit_occ_resp_buf p h = Ok (p', h') -> blocks p' = NULL.
Proof.
  unfold deinit_occ_resp_buf. destruct (Z.eqb_spec (blocks p) NULL) as [E|].
  - by intros [= <- <-].
  - destruct (for_each _ _ _) as [h1|]; [simpl|done].
    destruct (kfree _ h1); [simpl|done]. by intros [= <- <-].
Qed.

(** X14.  [deinit_occ_resp_buf] leaves a state on which a second call is a
    no-op and from which every lookup by type returns NULL. *)
Theorem teardown_idempotent (p p' : occ_response) (h h' : heap) :
  deinit_occ_resp_buf p h = Ok (p', h') ->
  deinit_occ_resp_buf p' h' = Ok (p', h')
  /\ forall t, occ_get_sensor_by_type p' h' t = Ok NULL.
Proof.
  intros Hd%deinit_result. split.
  - unfold deinit_occ_resp_buf. by rewrite Hd.
  - intros t. unfold occ_get_sensor_by_type. by rewrite Hd.
Qed.

Lemma teardown_idempotent_witness :
  exists h',
    deinit_occ_resp_buf snapshot_freq2.1 snapshot_freq2.2 = Ok (reset_response, h')
    /\ deinit_occ_resp_buf reset_response h' = Ok (reset_response, h')
    /\ occ_get_sensor_by_type reset_response h' freq = Ok NULL.
Proof.
  eexists. split; [vm_compute; reflexivity|].
  match goal with
  | |- deinit_occ_resp_buf _ ?h = _ /\ _ =>
      assert (deinit_occ_resp_buf snapshot_freq2.1 snapshot_freq2.2
              = Ok (reset_response, h)) as Hd by (vm_compute; reflexivity);
      pose proof (teardown_idempotent _ _ _ _ Hd) as P
  end.
  split; [exact (proj1 P) | exact (proj2 P freq)].
Defined.

Lemma set_array_null t blk : array_of t blk = NULL -> set_array t blk NULL = blk.
Proof. destruct blk, t; simpl; intros ->; reflexivity. Qed.

(** X15.  Allocation failure in [occ_renew_sensor], for a type the snapshot
    does not hold and a block whose slot for it is empty: the function
    returns [-ENOMEM] after tearing the whole response down; the state is
    reset and the block list and every array it owned are released.  The
    restriction matters: when the type is held in another block (here three
    temperature records in block 1, a fourth announced in block 0), the
    old array is freed before the allocation is tried and a second time by
    the teardown. *)
Theorem renew_out_of_memory :
  (forall (resp : occ_response) (h : heap) (len num : Z) (t : sensor_t) (b : Z)
          (bs : list sensor_data_block) (blk : sensor_data_block),
      num <> 0 -> len <> 0 ->
      occ_get_sensor_by_type resp h t = Ok NULL ->
      quota h = 0%nat ->
      owns_storage resp h = true ->
      objs h !! blocks resp = Some (Blocks bs) ->
      0 <= b -> bs !! Z.to_nat b = Some blk ->
      array_of t blk = NULL ->
      exists h',
        occ_renew_sensor resp h len num t b = Ok (- ENOMEM, reset_response, h')
        /\ released (owned_ptrs (take (Z.to_nat (sensor_block_num (header resp))) bs)
                     ++ [blocks resp]) h h')
  /\ (owns_storage snapshot_freq2_temp3.1 (exhausted snapshot_freq2_temp3.2) = true
      /\ occ_get_sensor_by_type snapshot_freq2_temp3.1 (exhausted snapshot_freq2_temp3.2) temp
         = Ok 3
      /\ occ_renew_sensor snapshot_freq2_temp3.1 (exhausted snapshot_freq2_temp3.2) 4 4 temp 0
         = Fault DoubleFree).
Proof.
  split; [|vm_compute; repeat split].
  intros resp h len num t b bs blk Hnum Hlen Hget Hq Hown Hbs Hb Hblk Ha.
  destruct (deinit_owned _ _ Hown) as (bs' & h' & Hbs' & Hde & Hrel).
  rewrite Hbs in Hbs'. injection Hbs' as <-.
  destruct (owns_storage_inv _ _ Hown) as (_ & _ & Hp & _).
  exists h'. split; [|done].
  unfold occ_renew_sensor. rewrite Hget. cbn [mbind res_bind].
  destruct (Z.eqb_spec num 0) as [|_]; [done|].
  destruct (Z.eqb_spec len 0) as [|_]; [done|]. cbn [orb].
  change (NULL =? NULL) with true. cbv iota. cbn [mbind res_bind].
  rewrite kfree_null. cbn [mbind res_bind].
  unfold kcalloc. rewrite Hq.
  rewrite (load_block_ok h _ bs b blk) by done. cbn [mbind res_bind].
  unfold store_block, deref. destruct (Z.eqb_spec (blocks resp) NULL) as [|_]; [done|].
  rewrite Hbs. cbn [mbind res_bind]. unfold update.
  apply lookup_lt_Some in Hblk as Hlt.
  destruct (Z.leb_spec 0 b); [|lia].
  destruct (Z.ltb_spec b (Z.of_nat (length bs))); [|lia].
  cbn [andb mbind res_bind].
  rewrite set_array_null, list_insert_id, assign_same by done.
  change (NULL =? NULL) with true. cbv iota.
  by rewrite Hde.
Qed.

(** The first allocation of a parse that finds the allocator exhausted. *)
Lemma renew_out_of_memory_witness :
  exists h',
    occ_renew_sensor (entry_state (reply_freq 4 2 [0; 1; 0; 100; 0; 2; 0; 200])).1
      (exhausted (entry_state (reply_freq 4 2 [0; 1; 0; 100; 0; 2; 0; 200])).2) 4 2 freq 0
    = Ok (- ENOMEM, reset_response, h')
    /\ objs h' !! (1 : ptr) = None.
Proof.
  set (resp := (entry_state (reply_freq 4 2 [0; 1; 0; 100; 0; 2; 0; 200])).1).
  set (h := exhausted (entry_state (reply_freq 4 2 [0; 1; 0; 100; 0; 2; 0; 200])).2).
  assert ((2 : Z) <> 0) as H2 by lia.
  assert ((4 : Z) <> 0) as H4 by lia.
  assert (0 <= 0) as H0 by lia.
  assert (occ_get_sensor_by_type resp h freq = Ok NULL) as Hget by reflexivity.
  assert (owns_storage resp h = true) as Hown by (vm_compute; reflexivity).
  destruct (proj1 renew_out_of_memory resp h 4 2 freq 0 [zero_block] zero_block
              H2 H4 Hget eq_refl Hown eq_refl H0 eq_refl eq_refl)
    as (h' & Hr & Hrel).
  exists h'. split; [exact Hr|].
  destruct Hrel as (Hobj & _). rewrite Hobj. reflexivity.
Defined.

(** X16.  A reply announcing a different number of blocks makes the parser
    release the block list and every array of the old snapshot; it then
    either fails on allocation, leaving the reset state, or starts from a
    fresh zeroed block list of the new size. *)
Theorem block_count_change_rebuilds (nblocks : Z) (resp : occ_response) (h : heap) :
  nblocks <> sensor_block_num (header resp) ->
  owns_storage resp h = true ->
  below_brk h ->
  exists bs h1,
    objs h !! blocks resp = Some (Blocks bs)
    /\ released (owned_ptrs (take (Z.to_nat (sensor_block_num (header resp))) bs)
                 ++ [blocks resp]) h h1
    /\ (quota h = 0%nat ->
        renew_block_list nblocks resp h = Ok (reset_response, h1, true))
    /\ (quota h <> 0%nat ->
        exists p h',
          renew_block_list nblocks resp h = Ok (set_blocks reset_response p, h', false)
          /\ p <> NULL /\ objs h !! p = None
          /\ objs h' !! p = Some (Blocks (replicate (Z.to_nat nblocks) zero_block))
          /\ forall k, k <> p -> objs h' !! k = objs h1 !! k).
Proof.
  intros Hne Hown Hbrk.
  destruct (deinit_owned _ _ Hown) as (bs & h1 & Hbs & Hde & Hrel).
  exists bs, h1. split; [done|]. split; [done|].
  destruct Hrel as (Hl & Hb1 & Hq1).
  unfold renew_block_list.
  destruct (Z.eqb_spec nblocks (sensor_block_num (header resp))) as [|_]; [done|].
  cbn [negb]. rewrite Hde. cbn [mbind res_bind]. unfold kcalloc. rewrite Hq1.
  split.
  - intros ->. reflexivity.
  - intros Hq. destruct (quota h) as [|q]; [done|]. rewrite Hb1.
    set (p := Z.max 1 (brk h)).
    assert (p <> NULL) as Hp0 by (unfold p, NULL; lia).
    assert (objs h !! p = None) as Hfresh.
    { destruct (objs h !! p) as [o|] eqn:E; [|done]. apply Hbrk in E. simpl in E. lia. }
    eexists p, _. split.
    { destruct (Z.eqb_spec p NULL); [done|]. reflexivity. }
    split; [done|]. split; [done|]. cbn [objs].
    split; [by rewrite lookup_insert_eq|].
    intros k Hk. by rewrite lookup_insert_ne by (intros E; apply Hk; symmetry; exact E).
Qed.

Lemma block_count_change_rebuilds_witness :
  exists p h',
    renew_block_list 2 snapshot_freq2.1 snapshot_freq2.2
    = Ok (set_blocks reset_response p, h', false)
    /\ objs h' !! p = Some (Blocks [zero_block; zero_block]).
Proof.
  assert (2 <> sensor_block_num (header snapshot_freq2.1)) as Hn
    by (vm_compute; discriminate).
  assert (quota snapshot_freq2.2 <> 0%nat) as Hq by (vm_compute; discriminate).
  assert (owns_storage snapshot_freq2.1 snapshot_freq2.2 = true) as Hown
    by (vm_compute; reflexivity).
  destruct (block_count_change_rebuilds 2 snapshot_freq2.1 snapshot_freq2.2 Hn Hown
              below_brk_snapshot_freq2) as (bs & h1 & _ & _ & _ & Hnew).
  destruct (Hnew Hq) as (p & h' & Hr & _ & _ & Hp & _).
  exists p, h'. split; [exact Hr | exact Hp].
Defined.

Section Fetch.
Context {W : Type} `{Platform W}.

(** X17.  [occ_get_all] rejects a poll response whose length field is 0 or
    exceeds [OCC_DATA_MAX] with [-EINVAL], before reading further and
    without touching the response state. *)
Theorem occ_get_all_rejects_length (w w' : W) (occ_resp : occ_response) (h : heap)
    (buf : list Z) :
  occ_send_cmd w 0 0 1 [16] 0 (replicate (Z.to_nat OCC_DATA_MAX) 0) = Ok (w', 0, buf) ->
  get_occdata_length buf = 0 \/ OCC_DATA_MAX < get_occdata_length buf ->
  occ_get_all w occ_resp h = Ok (w', - EINVAL, occ_resp, h).
Proof.
  intros Hcmd Hlen. unfold occ_get_all. rewrite Hcmd. cbn [mbind res_bind].
  change (negb (0 =? 0)) with false. cbv iota zeta.
  destruct (Z.gtb_spec (get_occdata_length buf) OCC_DATA_MAX); [done|].
  destruct (Z.leb_spec (get_occdata_length buf) 0); [done|]. lia.
Qed.
End Fetch.

Lemma occ_get_all_rejects_length_witness :
  occ_get_all {| reply := [0; 0; 0; 0; 0; 0; 0; 0]; sent := 0; clock := 0 |}
    fresh_response (empty_heap 8)
  = Ok ({| reply := []; sent := 8; clock := 0 |}, - EINVAL, fresh_response, empty_heap 8).
Proof.
  assert (get_occdata_length (replicate (Z.to_nat OCC_DATA_MAX) 0) = 0
          \/ OCC_DATA_MAX < get_occdata_length (replicate (Z.to_nat OCC_DATA_MAX) 0))
    as Hlen by (left; vm_compute; reflexivity).
  assert (occ_send_cmd {| reply := [0; 0; 0; 0; 0; 0; 0; 0]; sent := 0; clock := 0 |}
            0 0 1 [16] 0 (replicate (Z.to_nat OCC_DATA_MAX) 0)
          = Ok ({| reply := []; sent := 8; clock := 0 |}, 0,
                replicate (Z.to_nat OCC_DATA_MAX) 0)) as Hcmd
    by (vm_compute; reflexivity).
  exact (occ_get_all_rejects_length _ _ fresh_response (empty_heap 8) _ Hcmd Hlen).
Defined.

(** ** Ownership across a block *)





Lemma block_ptrs_same t data dnum blk :
  block_ptrs (decoded_block t data dnum blk (array_of t blk)) = block_ptrs blk.
Proof. by destruct t. Qed.


